(** * LyricsFlip front-end: system calls and challenge modal

    A shallow embedding of [src/lib/dojo/useSystemCalls.ts] (the hook that
    submits the create / join / start round transactions and patches the
    local entity store optimistically) and of the display logic of the
    [ChallengeModal] component.

    Conventions of the embedding.
    - A JavaScript [bigint] is a [Z].  A [number] that takes part in
      arithmetic is an IEEE-754 binary64 value, modelled with the Standard
      Library's [spec_float] at precision 53 and maximal exponent 1024.
    - A function that can throw returns a [Result]; an [async] function is
      run to completion, one [await] after the other, in a state-and-error
      monad over the [World] (the store and the trace of calls made).
    - What the environment decides (the outcome of a remote action, the
      value of [uuidv4()], a reading of [Date.now()]) is an argument.
    - The entity store, the remote client and [getEntityIdFromKeys] belong
      to external packages: they are variables of the sections below.
    - The entities and the round data are first taken in the shape the
      code writes and expects: a [Rounds] model with its [round], amounts
      and state codes that are bigints.  [AnyDraft] and [ChallengeModalAny]
      then take them as the code receives them ([draft: any],
      [BigNumberish]), with the exceptions this adds. *)

From Stdlib Require Import ZArith Lia List Ascii String.
From Stdlib Require Import Floats.SpecFloat.
From stdpp Require Import base option list strings pretty gmap fin_maps.

Open Scope string_scope.
Open Scope Z_scope.

(** ** Thrown values and results *)

Inductive Error :=
| AccountNotAvailable            (* new Error("Account not available") *)
| SyntaxError (literal : string) (* BigInt(s) on a string that is no integer *)
| TypeError (what : string)      (* property access on undefined *)
| Rejected (reason : string).    (* the rejection value of a remote action *)

Inductive Result (A : Type) :=
| Ok (a : A)
| Err (e : Error).
Arguments Ok {A} a.
Arguments Err {A} e.

Definition result_bind {A B} (r : Result A) (k : A -> Result B) : Result B :=
  match r with
  | Ok a => k a
  | Err e => Err e
  end.

(** ** [BigInt(string)]

    ECMAScript's StringToBigInt: surrounding white space is dropped, the
    empty string is [0n], a decimal literal may carry a sign, and the
    prefixes [0x], [0o] and [0b] select the radix (no sign allowed there).
    Only the ASCII white-space characters are recognised here. *)

Definition is_white_space (c : ascii) : bool :=
  let n := nat_of_ascii c in
  (Nat.eqb n 32 || Nat.eqb n 9 || Nat.eqb n 10 || Nat.eqb n 11
   || Nat.eqb n 12 || Nat.eqb n 13)%bool.

Fixpoint trim_start (l : list ascii) : list ascii :=
  match l with
  | c :: l' => if is_white_space c then trim_start l' else l
  | [] => []
  end.

Definition trim (l : list ascii) : list ascii :=
  rev (trim_start (rev (trim_start l))).

Definition digit_value (radix : Z) (c : ascii) : option Z :=
  let n := Z.of_nat (nat_of_ascii c) in
  let v :=
    if (48 <=? n) && (n <=? 57) then Some (n - 48)
    else if (97 <=? n) && (n <=? 102) then Some (n - 87)
    else if (65 <=? n) && (n <=? 70) then Some (n - 55)
    else None in
  match v with
  | Some d => if d <? radix then Some d else None
  | None => None
  end.

Fixpoint parse_digits_from (radix acc : Z) (l : list ascii) : option Z :=
  match l with
  | [] => Some acc
  | c :: l' =>
      match digit_value radix c with
      | Some d => parse_digits_from radix (acc * radix + d) l'
      | None => None
      end
  end.

Definition parse_digits (radix : Z) (l : list ascii) : option Z :=
  match l with
  | [] => None
  | _ => parse_digits_from radix 0 l
  end.

Definition StringToBigInt (s : string) : option Z :=
  match trim (list_ascii_of_string s) with
  | [] => Some 0
  | "0"%char :: ("x" | "X")%char :: ds => parse_digits 16 ds
  | "0"%char :: ("o" | "O")%char :: ds => parse_digits 8 ds
  | "0"%char :: ("b" | "B")%char :: ds => parse_digits 2 ds
  | "-"%char :: ds => Z.opp <$> parse_digits 10 ds
  | "+"%char :: ds => parse_digits 10 ds
  | ds => parse_digits 10 ds
  end.

Definition BigInt (s : string) : Result Z :=
  match StringToBigInt s with
  | Some z => Ok z
  | None => Err (SyntaxError s)
  end.

(** [a || b] on strings: the empty string is falsy. *)
Definition string_or (a b : string) : string :=
  if decide (a = "") then b else a.

(** [Array.prototype.toString]: the elements joined by commas. *)
Fixpoint array_toString (xs : list string) : string :=
  match xs with
  | [] => ""
  | [x] => x
  | x :: xs' => x ++ "," ++ array_toString xs'
  end.

(** ** Data model

    The entities of the store, as the optimistic updates build them:
    [{ entityId, models: { lyricsflip: { Rounds | RoundPlayer | RoundCreated } } }].
    A property that an object may lack is an [option].  The numeric fields
    hold integers, some written as numbers ([state: 0]) and some as bigints
    ([round_id], [start_time]); both are a [Z] here. *)

Definition EntityId := string.
Definition TxId := string.

Record Account := { address : string }.

(** [CairoCustomEnum]: only [activeVariant()] is used. *)
Record CairoCustomEnum := { activeVariant : string }.

Record Round := {
  creator : string;
  genre : string;
  wager_amount : Z;
  start_time : Z;
  state : Z;
  end_time : Z;
  next_card_index : Z;
  players_count : Z;
  ready_players_count : Z;
}.

Record RoundsModel := {
  round_id : Z;
  round : Round;
}.

Record RoundPlayerModel := {
  player_to_round_id : string * Z;
  joined : bool;
  ready_state : bool;
}.

Record RoundCreatedModel := {
  created_round_id : Z;
  created_creator : string;
}.

Record Lyricsflip := {
  Rounds : option RoundsModel;
  RoundPlayer : option RoundPlayerModel;
  RoundCreated : option RoundCreatedModel;
}.

Record Models := { lyricsflip : option Lyricsflip }.

Record Entity := {
  entityId : EntityId;
  models : option Models;
}.

#[global] Instance Round_eq_dec : EqDecision Round.
Proof. solve_decision. Defined.
#[global] Instance RoundsModel_eq_dec : EqDecision RoundsModel.
Proof. solve_decision. Defined.
#[global] Instance RoundPlayerModel_eq_dec : EqDecision RoundPlayerModel.
Proof. solve_decision. Defined.
#[global] Instance RoundCreatedModel_eq_dec : EqDecision RoundCreatedModel.
Proof. solve_decision. Defined.
#[global] Instance Lyricsflip_eq_dec : EqDecision Lyricsflip.
Proof. solve_decision. Defined.
#[global] Instance Models_eq_dec : EqDecision Models.
Proof. solve_decision. Defined.
#[global] Instance Entity_eq_dec : EqDecision Entity.
Proof. solve_decision. Defined.

(** [draft.entities] is a JavaScript object used as a map from entity id
    to entity, a [gmap EntityId Entity] here: [draft.entities[id]] is falsy
    exactly when the id is absent. *)

(** [e?.models?.lyricsflip?.Rounds] *)
Definition entity_Rounds (e : Entity) : option RoundsModel :=
  ms ← models e; lf ← lyricsflip ms; Rounds lf.

Definition entity_RoundPlayer (e : Entity) : option RoundPlayerModel :=
  ms ← models e; lf ← lyricsflip ms; RoundPlayer lf.

Definition entity_RoundCreated (e : Entity) : option RoundCreatedModel :=
  ms ← models e; lf ← lyricsflip ms; RoundCreated lf.

(** ** The environment of the hook

    [useAccount()] yields the connected account, if any; [useDojoSDK()]
    yields the contract client.  A remote action either resolves or
    rejects; what it answers is not decided by this repository, so the
    client is a record of answers.  [getEntityIdFromKeys] is the key hash
    of [@dojoengine/utils]. *)

Record Client := {
  actions_createRound : Account -> CairoCustomEnum -> Result string;
  actions_getRoundId : Result (list string);
  actions_joinRound : Account -> Z -> Result unit;
  actions_startRound : Account -> Z -> Result unit;
}.

Class Env := {
  account : option Account;
  client : Client;
  getEntityIdFromKeys : list Z -> EntityId;
}.

(** The optimistic-update store of the SDK, as an interface: the three
    methods the hook calls, and two observations, the entities and the
    set of transaction ids that have a pending marker. *)
Class DojoStore (S : Type) := {
  entities : S -> gmap EntityId Entity;
  pendingTransactions : S -> gset TxId;
  applyOptimisticUpdate : TxId -> (gmap EntityId Entity -> gmap EntityId Entity) -> S -> S;
  revertOptimisticUpdate : TxId -> S -> S;
  confirmTransaction : TxId -> S -> S;
}.

(** What the hook relies on from the store: an optimistic update runs the
    updater on the entities and marks the transaction pending; reverting a
    transaction that has no pending marker changes nothing, and reverting
    right after the optimistic update restores the entities; confirming
    only clears the marker. *)
Class DojoStoreLaws (S : Type) `{DojoStore S} := {
  entities_apply tx f s :
    entities (applyOptimisticUpdate tx f s) = f (entities s);
  pending_apply tx f s :
    pendingTransactions (applyOptimisticUpdate tx f s) = {[tx]} ∪ pendingTransactions s;
  entities_revert_unknown tx s :
    tx ∉ pendingTransactions s -> entities (revertOptimisticUpdate tx s) = entities s;
  entities_revert_apply tx f s :
    entities (revertOptimisticUpdate tx (applyOptimisticUpdate tx f s)) = entities s;
  pending_revert tx s :
    pendingTransactions (revertOptimisticUpdate tx s) = pendingTransactions s ∖ {[tx]};
  entities_confirm tx s :
    entities (confirmTransaction tx s) = entities s;
  pending_confirm tx s :
    pendingTransactions (confirmTransaction tx s) = pendingTransactions s ∖ {[tx]};
}.

(** ** Effects

    The calls an operation makes on the store, on the remote client and on
    the console are recorded in order; the store is threaded along. *)

Inductive Action :=
| ACreateRound (acc : Account) (genre : CairoCustomEnum)
| AGetRoundId
| AJoinRound (acc : Account) (roundId : Z)
| AStartRound (acc : Account) (roundId : Z).

Inductive Event :=
| EAction (a : Action)        (* client.actions.<a>(...) *)
| ESleep (ms : Z)             (* await new Promise(r => setTimeout(r, ms)) *)
| EApply (tx : TxId)          (* state.applyOptimisticUpdate(tx, ...) *)
| ERevert (tx : TxId)         (* state.revertOptimisticUpdate(tx) *)
| EConfirm (tx : TxId)        (* state.confirmTransaction(tx) *)
| EConsoleError (e : Error).  (* console.error(..., e) *)

Record World (S : Type) := mkWorld {
  store : S;
  trace : list Event;
}.
Arguments mkWorld {S} store trace.
Arguments store {S} w.
Arguments trace {S} w.

Definition M (S A : Type) : Type := World S -> World S * Result A.

Definition ret {S A} (a : A) : M S A := fun w => (w, Ok a).

Definition throw {S A} (e : Error) : M S A := fun w => (w, Err e).

Definition bind {S A B} (m : M S A) (k : A -> M S B) : M S B :=
  fun w =>
    match m w with
    | (w1, Ok a) => k a w1
    | (w1, Err e) => (w1, Err e)
    end.

Notation "x <- m ;; k" := (bind m (fun x => k))
  (at level 100, m at level 99, k at level 200, right associativity).
Notation "m ;;; k" := (bind m (fun _ => k))
  (at level 100, k at level 200, right associativity).

Definition lift {S A} (r : Result A) : M S A := fun w => (w, r).

Definition emit {S} (ev : Event) : M S unit :=
  fun w => (mkWorld (store w) (trace w ++ [ev]), Ok tt).

Definition on_store {S} (f : S -> S) : M S unit :=
  fun w => (mkWorld (f (store w)) (trace w), Ok tt).

(** [try { body } catch (error) { handler } finally { finalizer }]: the
    handler runs when the body throws, the finalizer runs in every case,
    and the outcome is that of the body or of the handler unless the
    finalizer throws itself. *)
Definition try_catch_finally {S A}
    (body : M S A) (handler : Error -> M S A) (finalizer : M S unit) : M S A :=
  fun w =>
    let '(w1, r1) := body w in
    let '(w2, r2) :=
      match r1 with
      | Ok a => (w1, Ok a)
      | Err e => handler e w1
      end in
    match finalizer w2 with
    | (w3, Ok _) => (w3, r2)
    | (w3, Err e) => (w3, Err e)
    end.

(** [await client.actions.<a>(...)] with the answer [r]. *)
Definition await_action {S A} (a : Action) (r : Result A) : M S A :=
  emit (EAction a) ;;; lift r.

Definition sleep {S} (ms : Z) : M S unit := emit (ESleep ms).

Definition console_error {S} (e : Error) : M S unit := emit (EConsoleError e).

Definition state_applyOptimisticUpdate {S} `{st : DojoStore S}
    (tx : TxId) (f : gmap EntityId Entity -> gmap EntityId Entity) : M S unit :=
  emit (EApply tx) ;;; on_store (applyOptimisticUpdate tx f).

Definition state_revertOptimisticUpdate {S} `{st : DojoStore S} (tx : TxId) : M S unit :=
  emit (ERevert tx) ;;; on_store (revertOptimisticUpdate tx).

Definition state_confirmTransaction {S} `{st : DojoStore S} (tx : TxId) : M S unit :=
  emit (EConfirm tx) ;;; on_store (confirmTransaction tx).

(** ** [useSystemCalls] *)

Definition generateEntityId `{env : Env} : Result EntityId :=
  match account with
  | None => Err AccountNotAvailable
  | Some acc =>
      result_bind (BigInt (address acc)) (fun k => Ok (getEntityIdFromKeys [k]))
  end.

(** [BigInt(roundIdResult[0] || roundIdResult.toString())] on the raw
    answer of the contract call, an array of felt strings. *)
Definition extractRoundId (roundIdResult : list string) : Result Z :=
  match roundIdResult with
  | x :: _ => BigInt (string_or x (array_toString roundIdResult))
  | [] => BigInt (array_toString roundIdResult)
  end.

(** The updater of [createRound].  [now_start] and [now_event] are the two
    readings of [Date.now()], the first taken only when the round entity
    is created. *)
Definition createRound_update `{env : Env} (acc : Account) (genre : CairoCustomEnum)
    (actualRoundId now_start now_event : Z)
    (draft_entities : gmap EntityId Entity) : gmap EntityId Entity :=
  let roundsEntityId := getEntityIdFromKeys [actualRoundId] in
  let draft1 :=
    match draft_entities !! roundsEntityId with
    | Some _ => draft_entities
    | None =>
        <[roundsEntityId :=
           {| entityId := roundsEntityId;
              models := Some {| lyricsflip := Some {|
                Rounds := Some {|
                  round_id := actualRoundId;
                  round := {|
                    creator := string_or (address acc) "";
                    genre := activeVariant genre;
                    wager_amount := 0;
                    start_time := now_start;
                    state := 0;
                    end_time := 0;
                    next_card_index := 0;
                    players_count := 1;
                    ready_players_count := 0 |} |};
                RoundPlayer := None;
                RoundCreated := None |} |} |}]> draft_entities
    end in
  let eventEntityId := getEntityIdFromKeys [actualRoundId; now_event] in
  match draft1 !! eventEntityId with
  | Some _ => draft1
  | None =>
      <[eventEntityId :=
         {| entityId := eventEntityId;
            models := Some {| lyricsflip := Some {|
              Rounds := None;
              RoundPlayer := None;
              RoundCreated := Some {|
                created_round_id := actualRoundId;
                created_creator := string_or (address acc) "" |} |} |} |}]> draft1
  end.

Definition createRound {S} `{env : Env} `{DojoStore S} (genre : CairoCustomEnum)
    (transactionId : TxId) (now_start now_event : Z) : M S Z :=
  match account with
  | None => throw AccountNotAvailable
  | Some acc =>
      try_catch_finally
        (txResult <- await_action (ACreateRound acc genre)
                       (actions_createRound client acc genre) ;;
         sleep 2000 ;;;
         roundIdResult <- await_action AGetRoundId (actions_getRoundId client) ;;
         actualRoundId <- lift (extractRoundId roundIdResult) ;;
         state_applyOptimisticUpdate transactionId
           (createRound_update acc genre actualRoundId now_start now_event) ;;;
         ret actualRoundId)
        (fun error =>
           state_revertOptimisticUpdate transactionId ;;;
           console_error error ;;;
           throw error)
        (state_confirmTransaction transactionId)
  end.

(** The updater of [joinRound]. *)
Definition joinRound_update (acc : Account) (roundId : Z) (entityId : EntityId)
    (draft_entities : gmap EntityId Entity) : gmap EntityId Entity :=
  match draft_entities !! entityId with
  | Some _ => draft_entities
  | None =>
      <[entityId :=
         {| entityId := entityId;
            models := Some {| lyricsflip := Some {|
              Rounds := None;
              RoundPlayer := Some {|
                player_to_round_id := (address acc, roundId);
                joined := true;
                ready_state := false |};
              RoundCreated := None |} |} |}]> draft_entities
  end.

Definition joinRound {S} `{env : Env} `{DojoStore S} (roundId : Z)
    (transactionId : TxId) : M S unit :=
  match account with
  | None => throw AccountNotAvailable
  | Some acc =>
      entityId <- lift generateEntityId ;;
      state_applyOptimisticUpdate transactionId
        (joinRound_update acc roundId entityId) ;;;
      try_catch_finally
        (await_action (AJoinRound acc roundId) (actions_joinRound client acc roundId))
        (fun error =>
           console_error error ;;;
           state_revertOptimisticUpdate transactionId ;;;
           throw error)
        (state_confirmTransaction transactionId)
  end.

(** [existingRound.models.lyricsflip.Rounds.round.state = 1] and
    [....round.start_time = BigInt(Date.now())], on an entity that has a
    [Rounds] model. *)
Definition mark_started (now : Z) (e : Entity) (lf : Lyricsflip)
    (rm : RoundsModel) : Entity :=
  let r := round rm in
  let r' := {|
    creator := creator r;
    genre := genre r;
    wager_amount := wager_amount r;
    start_time := now;
    state := 1;
    end_time := end_time r;
    next_card_index := next_card_index r;
    players_count := players_count r;
    ready_players_count := ready_players_count r |} in
  {| entityId := entityId e;
     models := Some {| lyricsflip := Some {|
       Rounds := Some {| round_id := round_id rm; round := r' |};
       RoundPlayer := RoundPlayer lf;
       RoundCreated := RoundCreated lf |} |} |}.

(** The updater of [startRound], on entities of the shape the hook writes,
    where a [Rounds] model has its [round].  [AnyDraft.startRound_update]
    below takes the draft as it comes. *)
Definition startRound_update `{env : Env} (roundId now : Z)
    (draft_entities : gmap EntityId Entity) : gmap EntityId Entity :=
  let roundsEntityId := getEntityIdFromKeys [roundId] in
  match draft_entities !! roundsEntityId with
  | Some existingRound =>
      match models existingRound with
      | Some ms =>
          match lyricsflip ms with
          | Some lf =>
              match Rounds lf with
              | Some rm =>
                  <[roundsEntityId := mark_started now existingRound lf rm]>
                    draft_entities
              | None => draft_entities
              end
          | None => draft_entities
          end
      | None => draft_entities
      end
  | None => draft_entities
  end.

(** [startRound] on such entities.  [AnyDraft.startRound] below is the run
    on stored entities of any shape, where the updater may throw before
    the [try] statement. *)
Definition startRound {S} `{env : Env} `{DojoStore S} (roundId : Z)
    (transactionId : TxId) (now : Z) : M S unit :=
  match account with
  | None => throw AccountNotAvailable
  | Some acc =>
      state_applyOptimisticUpdate transactionId (startRound_update roundId now) ;;;
      try_catch_finally
        (await_action (AStartRound acc roundId) (actions_startRound client acc roundId))
        (fun error =>
           console_error error ;;;
           state_revertOptimisticUpdate transactionId ;;;
           throw error)
        (state_confirmTransaction transactionId)
  end.

(** ** [ChallengeModal] *)

Module ChallengeModal.

(** JavaScript numbers: binary64. *)
Definition prec : Z := 53.
Definition emax : Z := 1024.

(** [Number(b)] for a bigint [b]: the nearest double, ties to even. *)
Definition Number (b : Z) : spec_float := binary_normalize prec emax b 0 false.

Definition number_mul : spec_float -> spec_float -> spec_float := SFmul prec emax.
Definition number_div : spec_float -> spec_float -> spec_float := SFdiv prec emax.

(** [x === y] on numbers. *)
Definition strict_eq : spec_float -> spec_float -> bool := SFeqb.

(** The literals [1e18], [6], [0], [1], [2]. *)
Definition lit_1e18 : spec_float := Number (10 ^ 18).
Definition lit_6 : spec_float := Number 6.
Definition lit_0 : spec_float := Number 0.
Definition lit_1 : spec_float := Number 1.
Definition lit_2 : spec_float := Number 2.

(** The amounts and state codes reach the component as integers
    ([BigNumberish] holding a bigint): [BigInt(x.toString())] is [x].
    [ChallengeModalAny] below takes any [BigNumberish]. *)
Definition formatWagerAmount (amount : Z) : spec_float :=
  number_div (Number amount) lit_1e18.

(** [maxPlayers] is an optional argument: [None] is a call without it. *)
Definition calculatePayout (wagerAmount : Z) (maxPlayers : option spec_float)
    : spec_float :=
  let maxPlayers := default lit_6 maxPlayers in
  number_div (number_mul (Number wagerAmount) maxPlayers) lit_1e18.

Record Status := { text : string; color : string }.

Definition getRoundStatus (state : Z) : Status :=
  let n := Number state in
  if strict_eq n lit_0 then
    {| text := "Waiting for players"; color := "text-green-500" |}
  else if strict_eq n lit_1 then
    {| text := "In progress"; color := "text-yellow-500" |}
  else if strict_eq n lit_2 then
    {| text := "Ended"; color := "text-red-500" |}
  else
    {| text := "Unknown"; color := "text-gray-500" |}.

(** What [useRoundQuery] hands over: [round.round] with the fields the
    modal reads.  [state] may be missing, the button reads it with [?.]. *)
Record RoundData := {
  wager_amount : Z;
  creator : string;
  state : option Z;
}.

Record Props := {
  code : string;
  roundId : option Z;          (* useState<bigint | null> *)
  isJoining : bool;
  round : option RoundData;
  isPlayer : bool;
  playersCount : Z;
  isLoadingRound : bool;
  error : option string;
}.

Definition isLoading (p : Props) : bool := isJoining p || isLoadingRound p.

(** A bigint-or-null in a condition: [null] and [0n] are falsy. *)
Definition truthy (b : option Z) : bool :=
  match b with
  | Some z => negb (z =? 0)
  | None => false
  end.

(** [Number(BigInt(round.round.state?.toString() || '0'))] *)
Definition stateNumber (r : RoundData) : spec_float :=
  Number (default 0 (state r)).

Inductive Handler := closeModal | handleQuery | handleJoin.

Record Button := {
  onClick : Handler;
  disabled : bool;
  label : string;
}.

Record Card := {
  wagerAmount : spec_float;
  participants : Z;
  payout : spec_float;
  status : Status;
  joinedBadge : bool;
}.

Record View := {
  card : option Card;
  cancel : Button;
  action : option Button;
}.

(** The card is rendered for a loaded round; [getRoundStatus(undefined)]
    throws on [state.toString()]. *)
Definition render_card (p : Props) : Result (option Card) :=
  match round p with
  | Some r =>
      if negb (isLoadingRound p) then
        match state r with
        | Some s =>
            Ok (Some {| wagerAmount := formatWagerAmount (wager_amount r);
                        participants := playersCount p;
                        payout := calculatePayout (wager_amount r) None;
                        status := getRoundStatus s;
                        joinedBadge := isPlayer p |})
        | None => Err (TypeError "state.toString")
        end
      else Ok None
  | None => Ok None
  end.

Definition render_action (p : Props) : option Button :=
  match round p with
  | None =>
      if truthy (roundId p) then
        Some {| onClick := handleQuery;
                disabled := isLoading p || negb (truthy (roundId p));
                label := if isLoadingRound p then "Loading..." else "Load Challenge" |}
      else None
  | Some r =>
      Some {| onClick := handleJoin;
              disabled := isLoading p || isPlayer p
                          || negb (strict_eq (stateNumber r) lit_0);
              label := if isJoining p then "Joining..."
                       else if isPlayer p then "Already Joined"
                       else if negb (strict_eq (stateNumber r) lit_0)
                            then "Round Not Available"
                       else "Join Challenge" |}
  end.

Definition render (p : Props) : Result View :=
  result_bind (render_card p) (fun c =>
    Ok {| card := c;
          cancel := {| onClick := closeModal; disabled := isLoading p;
                       label := "Cancel" |};
          action := render_action p |}).

(** A click on a button runs its handler unless the button is disabled. *)
Definition click (b : Button) : option Handler :=
  if disabled b then None else Some (onClick b).

(** The round id [handleJoin] passes to [joinRound], if it gets there. *)
Definition handleJoin_request (p : Props) : option Z :=
  if truthy (roundId p) then roundId p else None.

(** The join request that a click on the action button of the rendered
    modal issues, if any. *)
Definition join_action (p : Props) : option Z :=
  match render p with
  | Ok v =>
      match action v with
      | Some b =>
          match click b with
          | Some handleJoin => handleJoin_request p
          | _ => None
          end
      | None => None
      end
  | Err _ => None
  end.


(** *** Error of a rounded result *)

(** While a mantissa is shifted right, the two bits of the record say
    where the quantity [N / D], counted in units of the current exponent,
    lies between the mantissa and its successor: on the mantissa, below the
    midpoint, on it, or above it. *)
Definition bracket (mrs : shr_record) (N D : Z) : Prop :=
  let m := shr_m mrs in
  match shr_r mrs, shr_s mrs with
  | false, false => N = m * D
  | false, true => m * D < N /\ 2 * N < (2 * m + 1) * D
  | true, false => 2 * N = (2 * m + 1) * D
  | true, true => (2 * m + 1) * D < 2 * N /\ N < (m + 1) * D
  end.

(** [x] is the quotient [num / den] of two non-negative integers up to a
    relative error of [2 ^ - bits]: zero for a zero quotient, and otherwise
    a positive finite double [m * 2^e] with
    [|m * 2^e * den - num| <= num / 2^bits].  Both sides are scaled by
    2^1074, which makes every power of two an integer. *)
Definition close_to (x : spec_float) (num den bits : Z) : Prop :=
  match x with
  | S754_zero _ => num = 0
  | S754_finite false m e =>
      -1074 <= e
      /\ 2 ^ bits * Z.abs (Zpos m * 2 ^ (e + 1074) * den - num * 2 ^ 1074)
         <= num * 2 ^ 1074
  | _ => False
  end.

(** *** Checking a table of cases by evaluation *)

#[global] Instance spec_float_eq_dec : EqDecision spec_float.
Proof. solve_decision. Defined.

Definition forall_range (lo len : Z) (f : Z -> bool) : bool :=
  forallb f (seqZ lo len).

(** [x] is finite and its value is exactly [num / den] (for [0 < den]). *)
Definition has_value (x : spec_float) (num den : Z) : bool :=
  match x with
  | S754_zero _ => num =? 0
  | S754_finite s m e =>
      let v := if s then Z.neg m else Z.pos m in
      if 0 <=? e then v * 2 ^ e * den =? num
      else v * den =? num * 2 ^ (- e)
  | _ => false
  end.

(** The amount of [n / 2^j] tokens, in the smallest unit. *)
Definition tokens (n j : Z) : Z := n * 5 ^ 18 * 2 ^ (18 - j).

Definition format_exact_at (n j : Z) : bool :=
  has_value (formatWagerAmount (tokens n j)) (tokens n j) (10 ^ 18).

(** [calculatePayout] at [k] whole tokens and [n] players. *)
Definition payout_exact_at (k n : Z) : bool :=
  bool_decide (calculatePayout (k * 10 ^ 18) (Some (Number n))
               = number_mul (Number n) (formatWagerAmount (k * 10 ^ 18)))
  && has_value (calculatePayout (k * 10 ^ 18) (Some (Number n))) (k * n) 1.

(** The row of [k >= 1]: the player counts [n] with [k * n <= 2361]. *)
Definition payout_exact_row (k : Z) : bool :=
  forall_range 0 (2361 / k + 1) (payout_exact_at k).

End ChallengeModal.

(** ** Observations on runs *)

(** The events an operation adds to the trace of the world it starts in. *)
Definition emitted {S A} (m : M S A) (w : World S) : list Event :=
  drop (length (trace w)) (trace (fst (m w))).

Definition outcome {S A} (m : M S A) (w : World S) : Result A := snd (m w).

Definition final_store {S A} (m : M S A) (w : World S) : S := store (fst (m w)).

(** The transaction ids [confirmTransaction] was called with, in order. *)
Definition confirmed (evs : list Event) : list TxId :=
  omap (fun ev => match ev with EConfirm tx => Some tx | _ => None end) evs.

Definition reverted (evs : list Event) : list TxId :=
  omap (fun ev => match ev with ERevert tx => Some tx | _ => None end) evs.

Definition applied (evs : list Event) : list TxId :=
  omap (fun ev => match ev with EApply tx => Some tx | _ => None end) evs.

Definition actions (evs : list Event) : list Action :=
  omap (fun ev => match ev with EAction a => Some a | _ => None end) evs.

(** ** A reference store

    An implementation of the store interface in the manner of the SDK: an
    optimistic update keeps, under the transaction id, the previous value
    of every entry the updater changed; reverting puts these values back
    and drops the record; confirming drops the record. *)

Module RefStore.

Record t := mk {
  ents : gmap EntityId Entity;
  inverse : gmap TxId (gmap EntityId (option Entity));
}.

Definition empty : t := mk ∅ ∅.

Definition inversePatches (old new : gmap EntityId Entity)
    : gmap EntityId (option Entity) :=
  merge (fun o n => if decide (o = n) then None else Some o) old new.

Definition applyPatches (patches : gmap EntityId (option Entity))
    (cur : gmap EntityId Entity) : gmap EntityId Entity :=
  merge (fun p c => match p with Some old => old | None => c end) patches cur.

Definition apply (tx : TxId)
    (f : gmap EntityId Entity -> gmap EntityId Entity) (s : t) : t :=
  let new := f (ents s) in
  mk new (<[tx := inversePatches (ents s) new]> (inverse s)).

Definition revert (tx : TxId) (s : t) : t :=
  match inverse s !! tx with
  | Some patches => mk (applyPatches patches (ents s)) (delete tx (inverse s))
  | None => s
  end.

Definition confirm (tx : TxId) (s : t) : t :=
  mk (ents s) (delete tx (inverse s)).

#[global] Instance store : DojoStore t := {|
  entities := ents;
  pendingTransactions := fun s => dom (inverse s);
  applyOptimisticUpdate := apply;
  revertOptimisticUpdate := revert;
  confirmTransaction := confirm;
|}.

End RefStore.

(** ** Sample environments *)

Module Sample.

(** A stand-in for the key hash: the keys in decimal, separated by
    commas.  It keeps distinct key lists apart. *)
Definition keys_text (keys : list Z) : EntityId :=
  array_toString (map pretty keys).

Definition alice : Account := {| address := "0xA11CE" |}.

Definition pop : CairoCustomEnum := {| activeVariant := "Pop" |}.

(** A client whose actions all resolve; [getRoundId] answers [0x7]. *)
Definition resolving : Client := {|
  actions_createRound := fun _ _ => Ok "0xfeed";
  actions_getRoundId := Ok ["0x7"];
  actions_joinRound := fun _ _ => Ok tt;
  actions_startRound := fun _ _ => Ok tt;
|}.

(** A client whose actions all reject. *)
Definition rejecting : Client := {|
  actions_createRound := fun _ _ => Err (Rejected "create");
  actions_getRoundId := Err (Rejected "getRoundId");
  actions_joinRound := fun _ _ => Err (Rejected "join");
  actions_startRound := fun _ _ => Err (Rejected "start");
|}.

(** [createRound] resolves, the round-id fetch rejects. *)
Definition rejecting_fetch : Client := {|
  actions_createRound := fun _ _ => Ok "0xfeed";
  actions_getRoundId := Err (Rejected "getRoundId");
  actions_joinRound := fun _ _ => Ok tt;
  actions_startRound := fun _ _ => Ok tt;
|}.

(** Both calls resolve, the fetched value is no integer. *)
Definition garbled_fetch : Client := {|
  actions_createRound := fun _ _ => Ok "0xfeed";
  actions_getRoundId := Ok ["seven"];
  actions_joinRound := fun _ _ => Ok tt;
  actions_startRound := fun _ _ => Ok tt;
|}.

Definition env (acc : option Account) (c : Client) : Env := {|
  account := acc;
  client := c;
  getEntityIdFromKeys := keys_text;
|}.

Definition resolving_env : Env := env (Some alice) resolving.
Definition rejecting_env : Env := env (Some alice) rejecting.
Definition rejecting_fetch_env : Env := env (Some alice) rejecting_fetch.
Definition garbled_fetch_env : Env := env (Some alice) garbled_fetch.
Definition no_account_env : Env := env None resolving.

Definition w0 : World RefStore.t := mkWorld RefStore.empty [].

(** A loaded round that waits for players, wager 0.1 token, and the modal
    of a user who has not joined it. *)
Definition open_round : ChallengeModal.RoundData := {|
  ChallengeModal.wager_amount := 10 ^ 17;
  ChallengeModal.creator := "0xB0B";
  ChallengeModal.state := Some 0;
|}.

Definition modal : ChallengeModal.Props := {|
  ChallengeModal.code := "7";
  ChallengeModal.roundId := Some 7;
  ChallengeModal.isJoining := false;
  ChallengeModal.round := Some open_round;
  ChallengeModal.isPlayer := false;
  ChallengeModal.playersCount := 1;
  ChallengeModal.isLoadingRound := false;
  ChallengeModal.error := None;
|}.

End Sample.

(** ** [ChallengeModal]: the handlers and the creator label *)

Module ChallengeModalHandlers.
Import ChallengeModal.

(** [s.trim()], on the ASCII white space. *)
Definition js_trim (s : string) : string :=
  string_of_list_ascii (trim (list_ascii_of_string s)).

(** [x.toString()] for a bigint [x]: its decimal digits, with a minus sign
    for a negative one. *)
Definition bigint_toString (x : Z) : string := pretty x.

(** [handleCodeChange(value)].  [validateRoundId] comes from the
    [useJoinRound] hook; only the [isValid] field of its answer is read.
    Both branches of the test on the [0x] prefix convert with [BigInt], and
    a conversion that throws is caught. *)
Definition handleCodeChange (validateRoundId : string -> bool) (value : string)
    (p : Props) : Props :=
  let roundId' :=
    if validateRoundId (js_trim value) then
      match (if String.prefix "0x" value then BigInt value else BigInt value) with
      | Ok id => Some id
      | Err _ => None
      end
    else None in
  {| code := value;
     roundId := roundId';
     isJoining := isJoining p;
     round := round p;
     isPlayer := isPlayer p;
     playersCount := playersCount p;
     isLoadingRound := isLoadingRound p;
     error := error p |}.

(** The round id [handleQuery] passes to [queryRound], if it gets there. *)
Definition handleQuery_request (p : Props) : option Z :=
  if truthy (roundId p) then roundId p else None.

(** The query that a click on the action button of the rendered modal
    issues, if any. *)
Definition query_action (p : Props) : option Z :=
  match render p with
  | Ok v =>
      match action v with
      | Some b =>
          match click b with
          | Some handleQuery => handleQuery_request p
          | _ => None
          end
      | None => None
      end
  | Err _ => None
  end.




End ChallengeModalHandlers.

(** ** Drafts of any shape

    The updaters receive [draft: any].  Those of [createRound] and
    [joinRound] only test whether an entity id is taken and write fresh
    entities, so the shape of what the store holds does not matter to
    them.  The updater of [startRound] reads into the stored entity: the
    optional chain of line 167 stops at [Rounds], and line 168 assigns to
    [Rounds.round.state].  On a [Rounds] model that has no [round] this
    assignment throws a TypeError, inside [applyOptimisticUpdate] and
    before the [try] statement of line 173.

    Here the stored entities are taken with an optional [round], and the
    store with an [applyOptimisticUpdate] whose updater may throw: the
    store then stays as it was and the exception reaches the caller.
    [startRound] above is this operation on the entities that have their
    [round], where the updater cannot throw. *)

Module AnyDraft.

Record RoundsModel := {
  round_id : Z;
  round : option Round;
}.

Record Lyricsflip := {
  Rounds : option RoundsModel;
  RoundPlayer : option RoundPlayerModel;
  RoundCreated : option RoundCreatedModel;
}.

Record Models := { lyricsflip : option Lyricsflip }.

Record Entity := {
  entityId : EntityId;
  models : option Models;
}.

#[global] Instance AnyRoundsModel_eq_dec : EqDecision RoundsModel.
Proof. solve_decision. Defined.
#[global] Instance AnyLyricsflip_eq_dec : EqDecision Lyricsflip.
Proof. solve_decision. Defined.
#[global] Instance AnyModels_eq_dec : EqDecision Models.
Proof. solve_decision. Defined.
#[global] Instance AnyEntity_eq_dec : EqDecision Entity.
Proof. solve_decision. Defined.

(** The store, with an updater that may throw. *)
Class DojoStore (S : Type) := {
  entities : S -> gmap EntityId Entity;
  pendingTransactions : S -> gset TxId;
  applyOptimisticUpdate :
    TxId -> (gmap EntityId Entity -> Result (gmap EntityId Entity)) -> S -> Result S;
  revertOptimisticUpdate : TxId -> S -> S;
  confirmTransaction : TxId -> S -> S;
}.

(** [applyOptimisticUpdate] runs the updater on the entities of the store:
    when the updater throws, so does the call; when it returns, the store
    holds its result and marks the transaction pending.  Confirming clears
    the marker. *)
Class DojoStoreLaws (S : Type) `{DojoStore S} := {
  any_apply_throws tx f s e :
    f (entities s) = Err e -> applyOptimisticUpdate tx f s = Err e;
  any_apply_returns tx f s d :
    f (entities s) = Ok d ->
    exists s', applyOptimisticUpdate tx f s = Ok s'
               /\ entities s' = d
               /\ pendingTransactions s' = {[tx]} ∪ pendingTransactions s;
  any_pending_confirm tx s :
    pendingTransactions (confirmTransaction tx s) = pendingTransactions s ∖ {[tx]};
}.

(** A call that throws leaves the store as it found it. *)
Definition state_applyOptimisticUpdate {S} `{st : DojoStore S}
    (tx : TxId) (f : gmap EntityId Entity -> Result (gmap EntityId Entity))
    : M S unit :=
  emit (EApply tx) ;;;
  (fun w =>
     match applyOptimisticUpdate tx f (store w) with
     | Ok s' => (mkWorld s' (trace w), Ok tt)
     | Err e => (w, Err e)
     end).

Definition state_revertOptimisticUpdate {S} `{st : DojoStore S} (tx : TxId) : M S unit :=
  emit (ERevert tx) ;;; on_store (revertOptimisticUpdate tx).

Definition state_confirmTransaction {S} `{st : DojoStore S} (tx : TxId) : M S unit :=
  emit (EConfirm tx) ;;; on_store (confirmTransaction tx).

(** The two assignments of lines 168 and 169, on a [Rounds] model whose
    [round] is [r]. *)
Definition mark_started (now : Z) (e : Entity) (lf : Lyricsflip)
    (rm : RoundsModel) (r : Round) : Entity :=
  let r' := {|
    creator := creator r;
    genre := genre r;
    wager_amount := wager_amount r;
    start_time := now;
    state := 1;
    end_time := end_time r;
    next_card_index := next_card_index r;
    players_count := players_count r;
    ready_players_count := ready_players_count r |} in
  {| entityId := entityId e;
     models := Some {| lyricsflip := Some {|
       Rounds := Some {| round_id := round_id rm; round := Some r' |};
       RoundPlayer := RoundPlayer lf;
       RoundCreated := RoundCreated lf |} |} |}.

(** The updater of [startRound]: [Rounds.round.state = 1] on a model
    without [round] is an assignment to a property of [undefined]. *)
Definition startRound_update `{env : Env} (roundId now : Z)
    (draft_entities : gmap EntityId Entity) : Result (gmap EntityId Entity) :=
  let roundsEntityId := getEntityIdFromKeys [roundId] in
  match draft_entities !! roundsEntityId with
  | Some existingRound =>
      match models existingRound with
      | Some ms =>
          match lyricsflip ms with
          | Some lf =>
              match Rounds lf with
              | Some rm =>
                  match round rm with
                  | Some r =>
                      Ok (<[roundsEntityId := mark_started now existingRound lf rm r]>
                            draft_entities)
                  | None => Err (TypeError "Rounds.round.state")
                  end
              | None => Ok draft_entities
              end
          | None => Ok draft_entities
          end
      | None => Ok draft_entities
      end
  | None => Ok draft_entities
  end.

Definition startRound {S} `{env : Env} `{DojoStore S} (roundId : Z)
    (transactionId : TxId) (now : Z) : M S unit :=
  match account with
  | None => throw AccountNotAvailable
  | Some acc =>
      state_applyOptimisticUpdate transactionId (startRound_update roundId now) ;;;
      try_catch_finally
        (await_action (AStartRound acc roundId) (actions_startRound client acc roundId))
        (fun error =>
           console_error error ;;;
           state_revertOptimisticUpdate transactionId ;;;
           throw error)
        (state_confirmTransaction transactionId)
  end.

(** A reference store, in the manner of [RefStore]. *)
Record RefStore := mkRefStore {
  ents : gmap EntityId Entity;
  inverse : gmap TxId (gmap EntityId (option Entity));
}.

Definition inversePatches (old new : gmap EntityId Entity)
    : gmap EntityId (option Entity) :=
  merge (fun o n => if decide (o = n) then None else Some o) old new.

Definition applyPatches (patches : gmap EntityId (option Entity))
    (cur : gmap EntityId Entity) : gmap EntityId Entity :=
  merge (fun p c => match p with Some old => old | None => c end) patches cur.

Definition apply (tx : TxId)
    (f : gmap EntityId Entity -> Result (gmap EntityId Entity)) (s : RefStore)
    : Result RefStore :=
  match f (ents s) with
  | Ok new => Ok (mkRefStore new (<[tx := inversePatches (ents s) new]> (inverse s)))
  | Err e => Err e
  end.

Definition revert (tx : TxId) (s : RefStore) : RefStore :=
  match inverse s !! tx with
  | Some patches => mkRefStore (applyPatches patches (ents s)) (delete tx (inverse s))
  | None => s
  end.

Definition confirm (tx : TxId) (s : RefStore) : RefStore :=
  mkRefStore (ents s) (delete tx (inverse s)).

#[global] Instance ref_store : DojoStore RefStore := {|
  entities := ents;
  pendingTransactions := fun s => dom (inverse s);
  applyOptimisticUpdate := apply;
  revertOptimisticUpdate := revert;
  confirmTransaction := confirm;
|}.

(** A stored entity for round 7 whose [Rounds] model has no [round], one
    for round 8 that has it, and a store holding both. *)
Definition roundless : Entity := {|
  entityId := "7";
  models := Some {| lyricsflip := Some {|
    Rounds := Some {| round_id := 7; round := None |};
    RoundPlayer := None;
    RoundCreated := None |} |} |}.

Definition waiting : Entity := {|
  entityId := "8";
  models := Some {| lyricsflip := Some {|
    Rounds := Some {| round_id := 8;
                      round := Some {| creator := "0xA11CE"; genre := "Pop";
                                       wager_amount := 0; start_time := 100;
                                       state := 0; end_time := 0;
                                       next_card_index := 0; players_count := 1;
                                       ready_players_count := 0 |} |};
    RoundPlayer := None;
    RoundCreated := None |} |} |}.

Definition w_sample : World RefStore :=
  mkWorld (mkRefStore {[ "7" := roundless; "8" := waiting ]} ∅) [].

End AnyDraft.

(** An entity of the shape the hook writes, as a stored entity. *)
Definition loosen (e : Entity) : AnyDraft.Entity := {|
  AnyDraft.entityId := entityId e;
  AnyDraft.models :=
    (fun ms => {|
       AnyDraft.lyricsflip :=
         (fun lf => {|
            AnyDraft.Rounds :=
              (fun rm => {| AnyDraft.round_id := round_id rm;
                            AnyDraft.round := Some (round rm) |}) <$> Rounds lf;
            AnyDraft.RoundPlayer := RoundPlayer lf;
            AnyDraft.RoundCreated := RoundCreated lf |}) <$> lyricsflip ms |})
    <$> models e |}.

(** ** [ChallengeModal] on any [BigNumberish]

    [round.round.wager_amount] and [round.round.state] have the type
    [BigNumberish] of starknet.js: a string, a number or a bigint.  The
    component reads them through [toString()] only (lines 251, 255, 259,
    361 and 370), so such a value is taken here as the text its
    [toString()] returns: the decimal digits of a bigint, the string
    itself, the decimal form of a number with its fraction or exponent if
    it has one.  [BigInt] of a text that is no integer literal throws a
    SyntaxError while the modal renders.  [RoundData] stands for
    [round.round]; its [creator] is a string, as the call of [slice] has
    it.  The definitions of [ChallengeModal] above are these on bigints,
    where the conversion cannot throw. *)

Module ChallengeModalAny.
Import ChallengeModal ChallengeModalHandlers.

Record RoundData := {
  wager_amount : string;       (* wager_amount.toString() *)
  creator : string;
  state : option string;       (* state.toString(), if there is a state *)
}.

Record Props := {
  code : string;
  roundId : option Z;
  isJoining : bool;
  round : option RoundData;
  isPlayer : bool;
  playersCount : Z;
  isLoadingRound : bool;
  error : option string;
}.

Definition isLoading (p : Props) : bool := isJoining p || isLoadingRound p.

(** [Number(BigInt(amount.toString())) / 1e18] *)
Definition formatWagerAmount (amount : string) : Result spec_float :=
  result_bind (BigInt amount) (fun b =>
  Ok (number_div (Number b) lit_1e18)).

(** [(Number(BigInt(wagerAmount.toString())) * maxPlayers) / 1e18] *)
Definition calculatePayout (wagerAmount : string) (maxPlayers : option spec_float)
    : Result spec_float :=
  let maxPlayers := default lit_6 maxPlayers in
  result_bind (BigInt wagerAmount) (fun b =>
  Ok (number_div (number_mul (Number b) maxPlayers) lit_1e18)).

(** [getRoundStatus(state)]: [state.toString()] on a missing state is a
    TypeError; the [switch] on the converted value is
    [ChallengeModal.getRoundStatus]. *)
Definition getRoundStatus (state : option string) : Result Status :=
  match state with
  | None => Err (TypeError "state.toString")
  | Some s =>
      result_bind (BigInt s) (fun b => Ok (ChallengeModal.getRoundStatus b))
  end.

(** [Number(BigInt(round.round.state?.toString() || '0'))] *)
Definition stateNumber (r : RoundData) : Result spec_float :=
  result_bind (BigInt (string_or (default "" (state r)) "0")) (fun b =>
  Ok (Number b)).

(** The card, its expressions evaluated in the order of lines 300 to 326. *)
Definition render_card (p : Props) : Result (option Card) :=
  match round p with
  | Some r =>
      if negb (isLoadingRound p) then
        result_bind (formatWagerAmount (wager_amount r)) (fun wa =>
        result_bind (calculatePayout (wager_amount r) None) (fun po =>
        result_bind (getRoundStatus (state r)) (fun st =>
        Ok (Some {| wagerAmount := wa;
                    participants := playersCount p;
                    payout := po;
                    status := st;
                    joinedBadge := isPlayer p |}))))
      else Ok None
  | None => Ok None
  end.

(** The action button.  [||] and [? :] evaluate the state conversion only
    when they get to it: in [disabled] when nothing is loading and the
    user is no participant, in the label when no join is in progress and
    the user is no participant. *)
Definition render_action (p : Props) : Result (option Button) :=
  match round p with
  | None =>
      if truthy (roundId p) then
        Ok (Some {| onClick := handleQuery;
                    disabled := isLoading p || negb (truthy (roundId p));
                    label := if isLoadingRound p then "Loading..."
                             else "Load Challenge" |})
      else Ok None
  | Some r =>
      result_bind
        (if isLoading p || isPlayer p then Ok true
         else result_bind (stateNumber r) (fun n => Ok (negb (strict_eq n lit_0))))
        (fun d =>
      result_bind
        (if isJoining p then Ok "Joining..."
         else if isPlayer p then Ok "Already Joined"
         else result_bind (stateNumber r) (fun n =>
              Ok (if negb (strict_eq n lit_0) then "Round Not Available"
                  else "Join Challenge")))
        (fun l =>
      Ok (Some {| onClick := handleJoin; disabled := d; label := l |})))
  end.

Definition render (p : Props) : Result View :=
  result_bind (render_card p) (fun c =>
  result_bind (render_action p) (fun a =>
  Ok {| card := c;
        cancel := {| onClick := closeModal; disabled := isLoading p;
                     label := "Cancel" |};
        action := a |})).

(** The round id [handleJoin] passes to [joinRound], if it gets there. *)
Definition handleJoin_request (p : Props) : option Z :=
  if truthy (roundId p) then roundId p else None.

(** The join request that a click on the action button of the rendered
    modal issues, if any. *)
Definition join_action (p : Props) : option Z :=
  match render p with
  | Ok v =>
      match action v with
      | Some b =>
          match click b with
          | Some handleJoin => handleJoin_request p
          | _ => None
          end
      | None => None
      end
  | Err _ => None
  end.

(** The props of [ChallengeModal] above, with the bigints printed. *)
Definition of_bigints (p : ChallengeModal.Props) : Props := {|
  code := ChallengeModal.code p;
  roundId := ChallengeModal.roundId p;
  isJoining := ChallengeModal.isJoining p;
  round :=
    (fun r => {| wager_amount := bigint_toString (ChallengeModal.wager_amount r);
                 creator := ChallengeModal.creator r;
                 state := bigint_toString <$> ChallengeModal.state r |})
    <$> ChallengeModal.round p;
  isPlayer := ChallengeModal.isPlayer p;
  playersCount := ChallengeModal.playersCount p;
  isLoadingRound := ChallengeModal.isLoadingRound p;
  error := ChallengeModal.error p;
|}.

(** A round whose wager is the number 1.5, and the modal showing it. *)
Definition fractional_round : RoundData := {|
  wager_amount := "1.5";
  creator := "0xB0B";
  state := Some "0";
|}.

Definition fractional_modal : Props := {|
  code := "7";
  roundId := Some 7;
  isJoining := false;
  round := Some fractional_round;
  isPlayer := false;
  playersCount := 1;
  isLoadingRound := false;
  error := None;
|}.

End ChallengeModalAny.

(** * Properties *)

(** ** The reference store obeys the laws of the interface *)

(** A revert in the reference store undoes the optimistic update it
    belongs to when nothing else was written in between. *)
Lemma RefStore_revert_apply tx f s :
  RefStore.ents (RefStore.revert tx (RefStore.apply tx f s)) = RefStore.ents s.
Proof.
  unfold RefStore.revert, RefStore.apply; cbn.
  rewrite lookup_insert_eq; cbn.
  apply map_eq; intros i.
  unfold RefStore.applyPatches, RefStore.inversePatches.
  rewrite !lookup_merge.
  destruct (RefStore.ents s !! i) eqn:E1, (f (RefStore.ents s) !! i) eqn:E2;
    cbn; try case_decide; cbn; congruence.
Qed.

#[global] Instance RefStore_laws : DojoStoreLaws RefStore.t.
Proof.
  split.
  - reflexivity.
  - intros tx f s. cbn. apply dom_insert_L.
  - intros tx s Hfresh. cbn in *. unfold RefStore.revert.
    destruct (RefStore.inverse s !! tx) eqn:E; [|reflexivity].
    exfalso. apply Hfresh. apply elem_of_dom. eauto.
  - intros tx f s. apply RefStore_revert_apply.
  - intros tx s. cbn. unfold RefStore.revert.
    destruct (RefStore.inverse s !! tx) eqn:E; cbn.
    + apply dom_delete_L.
    + apply not_elem_of_dom in E. symmetry. apply difference_disjoint_L.
      by apply disjoint_singleton_r.
  - reflexivity.
  - intros tx s. cbn. apply dom_delete_L.
Qed.

(** ** [BigInt] on sample literals *)

Example BigInt_hex : BigInt "0x1F" = Ok 31.
Proof. reflexivity. Qed.

Example BigInt_decimal : BigInt " -42 " = Ok (-42).
Proof. reflexivity. Qed.

Example BigInt_empty : BigInt "" = Ok 0.
Proof. reflexivity. Qed.

Example BigInt_no_digits : BigInt "0x" = Err (SyntaxError "0x").
Proof. reflexivity. Qed.

Example BigInt_signed_hex : BigInt "-0x1" = Err (SyntaxError "-0x1").
Proof. reflexivity. Qed.

(** ** The runs of the three operations

    Each operation, past its guard, is computed out in every case of the
    answers of the remote client. *)

Section Runs.
Context `{env : Env} {S : Type} `{st : DojoStore S}.
Variable acc : Account.
Hypothesis Hacc : account = Some acc.

Lemma createRound_run genre tx n1 n2 (w : World S) :
  createRound genre tx n1 n2 w =
  let create := EAction (ACreateRound acc genre) in
  let failed evs e :=
    (mkWorld (confirmTransaction tx (revertOptimisticUpdate tx (store w)))
             (trace w ++ evs ++ [ERevert tx; EConsoleError e; EConfirm tx]),
     Err e) in
  match actions_createRound client acc genre with
  | Err e => failed [create] e
  | Ok _ =>
      match actions_getRoundId client with
      | Err e => failed [create; ESleep 2000; EAction AGetRoundId] e
      | Ok res =>
          match extractRoundId res with
          | Err e => failed [create; ESleep 2000; EAction AGetRoundId] e
          | Ok r =>
              (mkWorld
                 (confirmTransaction tx
                    (applyOptimisticUpdate tx
                       (createRound_update acc genre r n1 n2) (store w)))
                 (trace w ++ [create; ESleep 2000; EAction AGetRoundId;
                              EApply tx; EConfirm tx]),
               Ok r)
          end
      end
  end.
Proof.
  unfold createRound. rewrite Hacc.
  unfold try_catch_finally, await_action, sleep, console_error,
    state_applyOptimisticUpdate, state_revertOptimisticUpdate,
    state_confirmTransaction, bind, emit, on_store, lift, throw, ret; cbn.
  destruct (actions_createRound client acc genre) as [txr|e]; cbn.
  - destruct (actions_getRoundId client) as [res|e]; cbn.
    + destruct (extractRoundId res) as [r|e]; cbn;
        rewrite <- ?app_assoc; reflexivity.
    + rewrite <- ?app_assoc; reflexivity.
  - rewrite <- ?app_assoc; reflexivity.
Qed.

Lemma joinRound_run roundId tx k (w : World S) :
  BigInt (address acc) = Ok k ->
  joinRound roundId tx w =
  let upd := joinRound_update acc roundId (getEntityIdFromKeys [k]) in
  let join := EAction (AJoinRound acc roundId) in
  match actions_joinRound client acc roundId with
  | Err e =>
      (mkWorld
         (confirmTransaction tx
            (revertOptimisticUpdate tx (applyOptimisticUpdate tx upd (store w))))
         (trace w ++ [EApply tx; join; EConsoleError e; ERevert tx; EConfirm tx]),
       Err e)
  | Ok u =>
      (mkWorld
         (confirmTransaction tx (applyOptimisticUpdate tx upd (store w)))
         (trace w ++ [EApply tx; join; EConfirm tx]),
       Ok u)
  end.
Proof.
  intros Hk. unfold joinRound, generateEntityId. rewrite Hacc, Hk.
  unfold try_catch_finally, await_action, console_error,
    state_applyOptimisticUpdate, state_revertOptimisticUpdate,
    state_confirmTransaction, bind, emit, on_store, lift, throw, ret; cbn.
  destruct (actions_joinRound client acc roundId) as [u|e]; cbn;
    rewrite <- ?app_assoc; reflexivity.
Qed.

Lemma startRound_run roundId tx now (w : World S) :
  startRound roundId tx now w =
  let upd := startRound_update roundId now in
  let start := EAction (AStartRound acc roundId) in
  match actions_startRound client acc roundId with
  | Err e =>
      (mkWorld
         (confirmTransaction tx
            (revertOptimisticUpdate tx (applyOptimisticUpdate tx upd (store w))))
         (trace w ++ [EApply tx; start; EConsoleError e; ERevert tx; EConfirm tx]),
       Err e)
  | Ok u =>
      (mkWorld
         (confirmTransaction tx (applyOptimisticUpdate tx upd (store w)))
         (trace w ++ [EApply tx; start; EConfirm tx]),
       Ok u)
  end.
Proof.
  unfold startRound. rewrite Hacc.
  unfold try_catch_finally, await_action, console_error,
    state_applyOptimisticUpdate, state_revertOptimisticUpdate,
    state_confirmTransaction, bind, emit, on_store, lift, throw, ret; cbn.
  destruct (actions_startRound client acc roundId) as [u|e]; cbn;
    rewrite <- ?app_assoc; reflexivity.
Qed.

End Runs.

(** The events added to a trace are read off from its new suffix. *)
Lemma emitted_suffix {S A} (m : M S A) (w : World S) (evs : list Event) :
  trace (fst (m w)) = (trace w ++ evs)%list -> emitted m w = evs.
Proof.
  intros H. unfold emitted. rewrite H. apply drop_app_length.
Qed.

(** ** Failure of a remote action *)

Section RemoteFailure.
Context `{env : Env} {S : Type} `{laws : DojoStoreLaws S}.

(** C1. When the remote action of an operation rejects with [e], the
    operation calls [revertOptimisticUpdate] with its transaction id and
    then throws [e] itself.  Each action is called once: nothing is
    retried.  The runs are given in full: the calls made, in order, the
    resulting store and the outcome.  For [createRound] either of its two
    remote actions may be the one that rejects.  In [joinRound] and
    [startRound], where the update was applied before the call, the
    entities of the store are back to what they were. *)
Theorem remote_failure_reverts_and_rethrows
    (acc : Account) (e : Error) (tx : TxId) (w : World S) :
  account = Some acc ->
  (forall genre n1 n2,
      actions_createRound client acc genre = Err e ->
      createRound genre tx n1 n2 w =
        (mkWorld (confirmTransaction tx (revertOptimisticUpdate tx (store w)))
                 (trace w ++ [EAction (ACreateRound acc genre);
                              ERevert tx; EConsoleError e; EConfirm tx]),
         Err e))
  /\ (forall genre n1 n2 txResult,
      actions_createRound client acc genre = Ok txResult ->
      actions_getRoundId client = Err e ->
      createRound genre tx n1 n2 w =
        (mkWorld (confirmTransaction tx (revertOptimisticUpdate tx (store w)))
                 (trace w ++ [EAction (ACreateRound acc genre); ESleep 2000;
                              EAction AGetRoundId;
                              ERevert tx; EConsoleError e; EConfirm tx]),
         Err e))
  /\ (forall roundId k,
      BigInt (address acc) = Ok k ->
      actions_joinRound client acc roundId = Err e ->
      joinRound roundId tx w =
        (mkWorld
           (confirmTransaction tx
              (revertOptimisticUpdate tx
                 (applyOptimisticUpdate tx
                    (joinRound_update acc roundId (getEntityIdFromKeys [k]))
                    (store w))))
           (trace w ++ [EApply tx; EAction (AJoinRound acc roundId);
                        EConsoleError e; ERevert tx; EConfirm tx]),
         Err e))
  /\ (forall roundId now,
      actions_startRound client acc roundId = Err e ->
      startRound roundId tx now w =
        (mkWorld
           (confirmTransaction tx
              (revertOptimisticUpdate tx
                 (applyOptimisticUpdate tx (startRound_update roundId now)
                    (store w))))
           (trace w ++ [EApply tx; EAction (AStartRound acc roundId);
                        EConsoleError e; ERevert tx; EConfirm tx]),
         Err e))
  /\ (forall roundId k,
      BigInt (address acc) = Ok k ->
      actions_joinRound client acc roundId = Err e ->
      entities (final_store (joinRound roundId tx) w) = entities (store w))
  /\ (forall roundId now,
      actions_startRound client acc roundId = Err e ->
      entities (final_store (startRound roundId tx now) w) = entities (store w)).
Proof.
  intros Hacc. split; [|split; [|split; [|split; [|split]]]].
  - intros genre n1 n2 Hc.
    rewrite (createRound_run acc Hacc); cbn. rewrite Hc. reflexivity.
  - intros genre n1 n2 txr Hc Hg.
    rewrite (createRound_run acc Hacc); cbn. rewrite Hc, Hg. reflexivity.
  - intros roundId k Hk Hj.
    rewrite (joinRound_run acc Hacc _ _ k _ Hk); cbn. rewrite Hj. reflexivity.
  - intros roundId now Hs.
    rewrite (startRound_run acc Hacc); cbn. rewrite Hs. reflexivity.
  - intros roundId k Hk Hj. unfold final_store.
    rewrite (joinRound_run acc Hacc _ _ k _ Hk); cbn. rewrite Hj; cbn.
    rewrite entities_confirm. apply entities_revert_apply.
  - intros roundId now Hs. unfold final_store.
    rewrite (startRound_run acc Hacc); cbn. rewrite Hs; cbn.
    rewrite entities_confirm. apply entities_revert_apply.
Qed.

End RemoteFailure.

Lemma remote_failure_reverts_and_rethrows_witness :
  outcome (createRound (env := Sample.rejecting_env) Sample.pop "tx-1" 100 101)
    Sample.w0 = Err (Rejected "create")
  /\ reverted (emitted (createRound (env := Sample.rejecting_env)
                          Sample.pop "tx-1" 100 101) Sample.w0) = ["tx-1"]
  /\ outcome (createRound (env := Sample.rejecting_fetch_env) Sample.pop "tx-2" 100 101)
       Sample.w0 = Err (Rejected "getRoundId")
  /\ outcome (joinRound (env := Sample.rejecting_env) 7 "tx-3") Sample.w0
     = Err (Rejected "join")
  /\ actions (emitted (joinRound (env := Sample.rejecting_env) 7 "tx-3") Sample.w0)
     = [AJoinRound Sample.alice 7]
  /\ outcome (startRound (env := Sample.rejecting_env) 7 "tx-4" 100) Sample.w0
     = Err (Rejected "start").
Proof.
  pose proof (remote_failure_reverts_and_rethrows (env := Sample.rejecting_env)
                Sample.alice (Rejected "create") "tx-1" Sample.w0 eq_refl)
    as (Hc & _).
  pose proof (remote_failure_reverts_and_rethrows (env := Sample.rejecting_fetch_env)
                Sample.alice (Rejected "getRoundId") "tx-2" Sample.w0 eq_refl)
    as (_ & Hg & _).
  pose proof (remote_failure_reverts_and_rethrows (env := Sample.rejecting_env)
                Sample.alice (Rejected "join") "tx-3" Sample.w0 eq_refl)
    as (_ & _ & Hj & _).
  pose proof (remote_failure_reverts_and_rethrows (env := Sample.rejecting_env)
                Sample.alice (Rejected "start") "tx-4" Sample.w0 eq_refl)
    as (_ & _ & _ & Hs & _).
  specialize (Hc Sample.pop 100 101 eq_refl).
  specialize (Hg Sample.pop 100 101 "0xfeed" eq_refl eq_refl).
  specialize (Hj 7 659918 eq_refl eq_refl).
  specialize (Hs 7 100 eq_refl).
  unfold outcome, emitted.
  rewrite Hc, Hg, Hj, Hs. cbn.
  repeat split; reflexivity.
Defined.

(** ** The pending marker *)

(** Without a connected account an operation throws at its guard: no
    transaction id is drawn and neither the client nor the store is
    called. *)
Lemma no_account_no_calls `{env : Env} {S : Type} `{st : DojoStore S}
    (w : World S) :
  account = None ->
  (forall genre tx n1 n2,
      createRound genre tx n1 n2 w = (w, Err AccountNotAvailable))
  /\ (forall roundId tx, joinRound roundId tx w = (w, Err AccountNotAvailable))
  /\ (forall roundId tx now,
      startRound roundId tx now w = (w, Err AccountNotAvailable)).
Proof.
  intros Hacc. unfold createRound, joinRound, startRound. rewrite Hacc.
  repeat split.
Qed.

(** [joinRound] draws its transaction id and then computes the entity id
    outside the [try]: an address that is no integer literal makes it throw
    there, before any call on the store. *)
Lemma joinRound_bad_address `{env : Env} {S : Type} `{st : DojoStore S}
    (acc : Account) roundId tx (w : World S) :
  account = Some acc ->
  BigInt (address acc) = Err (SyntaxError (address acc)) ->
  joinRound roundId tx w = (w, Err (SyntaxError (address acc))).
Proof.
  intros Hacc Hk. unfold joinRound, generateEntityId. rewrite Hacc, Hk.
  reflexivity.
Qed.

(** ** [startRound] on drafts of any shape *)

#[global] Instance AnyDraft_RefStore_laws : AnyDraft.DojoStoreLaws AnyDraft.RefStore.
Proof.
  split.
  - intros tx f s e Hf. cbn in *. unfold AnyDraft.apply. rewrite Hf. reflexivity.
  - intros tx f s d Hf. cbn in *. unfold AnyDraft.apply. rewrite Hf.
    eexists. split; [reflexivity|]. split; [reflexivity|]. cbn.
    apply dom_insert_L.
  - intros tx s. cbn. apply dom_delete_L.
Qed.

(** The updater throws exactly on a stored round entity that carries a
    [Rounds] model without [round], and what it throws is a TypeError. *)
Lemma startRound_update_throws_iff `{env : Env} roundId now (d : gmap EntityId AnyDraft.Entity) e :
  AnyDraft.startRound_update roundId now d = Err e
  <-> e = TypeError "Rounds.round.state"
      /\ exists ent ms lf rm,
           d !! getEntityIdFromKeys [roundId] = Some ent
           /\ AnyDraft.models ent = Some ms
           /\ AnyDraft.lyricsflip ms = Some lf
           /\ AnyDraft.Rounds lf = Some rm
           /\ AnyDraft.round rm = None.
Proof.
  unfold AnyDraft.startRound_update.
  destruct (d !! getEntityIdFromKeys [roundId]) as [ent|] eqn:He.
  2:{ split; [discriminate|]. intros (_ & ent & ms & lf & rm & H & _). discriminate. }
  destruct (AnyDraft.models ent) as [ms|] eqn:Hms.
  2:{ split; [discriminate|].
      intros (_ & ent' & ms & lf & rm & [= <-] & H & _). congruence. }
  destruct (AnyDraft.lyricsflip ms) as [lf|] eqn:Hlf.
  2:{ split; [discriminate|].
      intros (_ & ent' & ms' & lf & rm & [= <-] & H1 & H2 & _). congruence. }
  destruct (AnyDraft.Rounds lf) as [rm|] eqn:Hrm.
  2:{ split; [discriminate|].
      intros (_ & ent' & ms' & lf' & rm & [= <-] & H1 & H2 & H3 & _). congruence. }
  destruct (AnyDraft.round rm) as [r|] eqn:Hr.
  - split; [discriminate|].
    intros (_ & ent' & ms' & lf' & rm' & [= <-] & H1 & H2 & H3 & H4). congruence.
  - split.
    + intros [= <-]. split; [reflexivity|]. exists ent, ms, lf, rm. auto.
    + intros (-> & _). reflexivity.
Qed.

(** On entities that have their [round] the updater does not throw and is
    the updater of [startRound] above. *)
Lemma startRound_update_on_complete `{env : Env} roundId now
    (d : gmap EntityId Entity) :
  AnyDraft.startRound_update roundId now (loosen <$> d)
  = Ok (loosen <$> startRound_update roundId now d).
Proof.
  unfold AnyDraft.startRound_update, startRound_update. cbv zeta.
  rewrite lookup_fmap.
  destruct (d !! getEntityIdFromKeys [roundId]) as [ent|] eqn:He; [|reflexivity].
  cbn. destruct ent as [eid [[[lf|]]|]]; cbn; try reflexivity.
  destruct lf as [[rm|] rp rc]; cbn; [|reflexivity].
  rewrite fmap_insert. reflexivity.
Qed.

Section AnyDraftRuns.
Context `{env : Env} {U : Type} `{st : AnyDraft.DojoStore U}.
Variable acc : Account.
Hypothesis Hacc : account = Some acc.

Lemma startRound_any_run roundId tx now (u : World U) :
  AnyDraft.startRound roundId tx now u =
  let start := EAction (AStartRound acc roundId) in
  match AnyDraft.applyOptimisticUpdate tx
          (AnyDraft.startRound_update roundId now) (store u) with
  | Err e => (mkWorld (store u) (trace u ++ [EApply tx]), Err e)
  | Ok s1 =>
      match actions_startRound client acc roundId with
      | Err e =>
          (mkWorld
             (AnyDraft.confirmTransaction tx (AnyDraft.revertOptimisticUpdate tx s1))
             (trace u ++ [EApply tx; start; EConsoleError e; ERevert tx; EConfirm tx]),
           Err e)
      | Ok v =>
          (mkWorld (AnyDraft.confirmTransaction tx s1)
             (trace u ++ [EApply tx; start; EConfirm tx]),
           Ok v)
      end
  end.
Proof.
  unfold AnyDraft.startRound. rewrite Hacc.
  unfold try_catch_finally, await_action, console_error,
    AnyDraft.state_applyOptimisticUpdate, AnyDraft.state_revertOptimisticUpdate,
    AnyDraft.state_confirmTransaction, bind, emit, on_store, lift, throw, ret; cbn.
  destruct (AnyDraft.applyOptimisticUpdate tx
              (AnyDraft.startRound_update roundId now) (store u)) as [s1|e]; cbn;
    [|reflexivity].
  destruct (actions_startRound client acc roundId) as [v|e]; cbn;
    rewrite <- ?app_assoc; reflexivity.
Qed.

End AnyDraftRuns.

(** When its updater returns, the run of [startRound] on drafts of any
    shape makes the calls and has the outcome of [startRound] above. *)
Lemma startRound_any_agrees `{env : Env} {S : Type} `{st : DojoStore S}
    {U : Type} `{ulaws : AnyDraft.DojoStoreLaws U}
    (acc : Account) roundId tx now (w : World S) (u : World U) d :
  account = Some acc ->
  AnyDraft.startRound_update roundId now (AnyDraft.entities (store u)) = Ok d ->
  outcome (AnyDraft.startRound roundId tx now) u
  = outcome (startRound roundId tx now) w
  /\ emitted (AnyDraft.startRound roundId tx now) u
     = emitted (startRound roundId tx now) w.
Proof.
  intros Hacc Hupd. unfold outcome, emitted.
  rewrite (startRound_any_run acc Hacc), (startRound_run acc Hacc).
  destruct (AnyDraft.any_apply_returns tx _ _ _ Hupd) as (s1 & -> & _).
  cbn. destruct (actions_startRound client acc roundId) as [v|e]; cbn;
    rewrite !drop_app_length; split; reflexivity.
Qed.

Section PendingMarker.
Context `{env : Env} {S : Type} `{laws : DojoStoreLaws S}
  {U : Type} `{ulaws : AnyDraft.DojoStoreLaws U}.

(** C2, amended.  [confirmTransaction] is called exactly once, with the
    transaction id of the operation, in every execution that reaches the
    [try] statement, whatever the remote client answers, and that id then
    has no pending marker in the store the operation leaves.  An
    execution does not reach the [try] statement, and does not call
    [confirmTransaction] at all, in three cases: no account is connected
    (all three operations); the account address is no integer literal
    ([joinRound], through [generateEntityId]); the stored round entity
    carries a [Rounds] model without [round] ([startRound], whose updater
    then throws a TypeError inside [applyOptimisticUpdate]).  The run of
    [startRound] is taken on drafts of any shape. *)
Theorem confirmTransaction_once_past_guard
    (tx : TxId) (w : World S) (u : World U) :
  (account = None ->
     (forall genre n1 n2,
        outcome (createRound genre tx n1 n2) w = Err AccountNotAvailable
        /\ emitted (createRound genre tx n1 n2) w = [])
     /\ (forall roundId,
        outcome (joinRound roundId tx) w = Err AccountNotAvailable
        /\ emitted (joinRound roundId tx) w = [])
     /\ (forall roundId now,
        outcome (AnyDraft.startRound roundId tx now) u = Err AccountNotAvailable
        /\ emitted (AnyDraft.startRound roundId tx now) u = []))
  /\ (forall acc, account = Some acc ->
     (forall genre n1 n2,
        confirmed (emitted (createRound genre tx n1 n2) w) = [tx]
        /\ tx ∉ pendingTransactions (final_store (createRound genre tx n1 n2) w))
     /\ (forall roundId,
        match BigInt (address acc) with
        | Ok k =>
            confirmed (emitted (joinRound roundId tx) w) = [tx]
            /\ tx ∉ pendingTransactions (final_store (joinRound roundId tx) w)
        | Err e =>
            outcome (joinRound roundId tx) w = Err e
            /\ emitted (joinRound roundId tx) w = []
        end)
     /\ (forall roundId now,
        match AnyDraft.startRound_update roundId now (AnyDraft.entities (store u)) with
        | Ok _ =>
            confirmed (emitted (AnyDraft.startRound roundId tx now) u) = [tx]
            /\ tx ∉ AnyDraft.pendingTransactions
                      (final_store (AnyDraft.startRound roundId tx now) u)
        | Err e =>
            outcome (AnyDraft.startRound roundId tx now) u = Err e
            /\ emitted (AnyDraft.startRound roundId tx now) u = [EApply tx]
            /\ final_store (AnyDraft.startRound roundId tx now) u = store u
        end))
  /\ (forall roundId now d e,
        AnyDraft.startRound_update roundId now d = Err e
        <-> e = TypeError "Rounds.round.state"
            /\ exists ent ms lf rm,
                 d !! getEntityIdFromKeys [roundId] = Some ent
                 /\ AnyDraft.models ent = Some ms
                 /\ AnyDraft.lyricsflip ms = Some lf
                 /\ AnyDraft.Rounds lf = Some rm
                 /\ AnyDraft.round rm = None).
Proof.
  split; [|split].
  - intros Hacc.
    unfold outcome, emitted, createRound, joinRound, AnyDraft.startRound.
    rewrite Hacc. cbn. rewrite !drop_all. repeat split.
  - intros acc Hacc.
    assert (Hclear : forall s, tx ∉ pendingTransactions (confirmTransaction tx s)).
    { intros s. rewrite pending_confirm.
      apply not_elem_of_difference. right. by apply elem_of_singleton. }
    assert (Hclear' : forall s,
               tx ∉ AnyDraft.pendingTransactions (AnyDraft.confirmTransaction tx s)).
    { intros s. rewrite AnyDraft.any_pending_confirm.
      apply not_elem_of_difference. right. by apply elem_of_singleton. }
    split; [|split].
    + intros genre n1 n2. unfold emitted, final_store.
      rewrite (createRound_run acc Hacc); cbn.
      destruct (actions_createRound client acc genre) as [txr|e]; cbn;
        [destruct (actions_getRoundId client) as [res|e]; cbn;
         [destruct (extractRoundId res) as [r|e]; cbn|]|];
        rewrite drop_app_length; (split; [reflexivity|apply Hclear]).
    + intros roundId. destruct (BigInt (address acc)) as [k|e] eqn:Hk.
      * unfold emitted, final_store.
        rewrite (joinRound_run acc Hacc _ _ k _ Hk); cbn.
        destruct (actions_joinRound client acc roundId) as [v|e]; cbn;
          rewrite drop_app_length; (split; [reflexivity|apply Hclear]).
      * unfold outcome, emitted, joinRound, generateEntityId.
        rewrite Hacc, Hk. cbn. rewrite drop_all. split; reflexivity.
    + intros roundId now. unfold outcome, emitted, final_store.
      rewrite (startRound_any_run acc Hacc).
      destruct (AnyDraft.startRound_update roundId now (AnyDraft.entities (store u)))
        as [d|e] eqn:Hupd.
      * destruct (AnyDraft.any_apply_returns tx _ _ _ Hupd) as (s1 & -> & _).
        cbn. destruct (actions_startRound client acc roundId) as [v|e]; cbn;
          rewrite drop_app_length; (split; [reflexivity|apply Hclear']).
      * rewrite (AnyDraft.any_apply_throws tx _ _ _ Hupd). cbn.
        rewrite drop_app_length. repeat split.
  - intros roundId now d e. apply startRound_update_throws_iff.
Qed.

End PendingMarker.

Lemma confirmTransaction_once_past_guard_witness :
  confirmed (emitted (createRound (env := Sample.resolving_env)
                        Sample.pop "tx-1" 100 101) Sample.w0) = ["tx-1"]
  /\ confirmed (emitted (joinRound (env := Sample.rejecting_env) 7 "tx-1")
                  Sample.w0) = ["tx-1"]
  /\ confirmed (emitted (AnyDraft.startRound (env := Sample.resolving_env)
                           8 "tx-1" 100) AnyDraft.w_sample) = ["tx-1"]
  /\ outcome (AnyDraft.startRound (env := Sample.resolving_env) 7 "tx-1" 100)
       AnyDraft.w_sample = Err (TypeError "Rounds.round.state")
  /\ emitted (AnyDraft.startRound (env := Sample.resolving_env) 7 "tx-1" 100)
       AnyDraft.w_sample = [EApply "tx-1"]
  /\ emitted (createRound (env := Sample.no_account_env) Sample.pop "tx-1" 100 101)
       Sample.w0 = [].
Proof.
  pose proof (confirmTransaction_once_past_guard (env := Sample.resolving_env)
                "tx-1" Sample.w0 AnyDraft.w_sample) as (_ & Hres & _).
  pose proof (confirmTransaction_once_past_guard (env := Sample.rejecting_env)
                "tx-1" Sample.w0 AnyDraft.w_sample) as (_ & Hrej & _).
  pose proof (confirmTransaction_once_past_guard (env := Sample.no_account_env)
                "tx-1" Sample.w0 AnyDraft.w_sample) as (Hnone & _).
  destruct (Hres Sample.alice eq_refl) as (Hc & _ & Hs).
  destruct (Hrej Sample.alice eq_refl) as (_ & Hj & _).
  destruct (Hnone eq_refl) as (Hn & _).
  destruct (Hc Sample.pop 100 101) as (H1 & _).
  pose proof (Hj 7) as H2. cbn in H2. destruct H2 as (H2 & _).
  pose proof (Hs 8 100) as H3. cbn in H3. destruct H3 as (H3 & _).
  pose proof (Hs 7 100) as H4. cbn in H4. destruct H4 as (H4 & H5 & _).
  destruct (Hn Sample.pop 100 101) as (_ & H6).
  split; [exact H1|]. split; [exact H2|]. split; [exact H3|].
  split; [exact H4|]. split; [exact H5|exact H6].
Defined.

(** The TypeError of the updater on the real shape of the exit: the round
    entity of round 7 has a [Rounds] model without [round]; [startRound]
    throws past the account guard, the remote action is not called, and
    [confirmTransaction] is not called. *)
Example startRound_updater_throws_before_try :
  outcome (AnyDraft.startRound (env := Sample.resolving_env) 7 "tx-1" 100)
    AnyDraft.w_sample = Err (TypeError "Rounds.round.state")
  /\ actions (emitted (AnyDraft.startRound (env := Sample.resolving_env) 7 "tx-1" 100)
                AnyDraft.w_sample) = []
  /\ confirmed (emitted (AnyDraft.startRound (env := Sample.resolving_env) 7 "tx-1" 100)
                  AnyDraft.w_sample) = [].
Proof. vm_compute. repeat split. Qed.

(** C2, as stated, fails at the account guard: with no account connected
    [createRound] throws before its [try] statement, and
    [confirmTransaction] is not called at all. *)
Lemma confirmTransaction_skipped_without_account :
  outcome (createRound (env := Sample.no_account_env) Sample.pop "tx-1" 100 101)
    Sample.w0 = Err AccountNotAvailable
  /\ confirmed (emitted (createRound (env := Sample.no_account_env)
                           Sample.pop "tx-1" 100 101) Sample.w0) <> ["tx-1"].
Proof.
  split; [reflexivity|]. vm_compute. discriminate.
Qed.

(** ** [createRound] patches the store last *)

Section CreateRoundFailure.
Context `{env : Env} {S : Type} `{laws : DojoStoreLaws S}.

(** In any run of [createRound], a call of [applyOptimisticUpdate] means
    that both remote calls resolved and the round id was extracted. *)
Lemma createRound_applies_after_remote_calls
    (acc : Account) genre tx n1 n2 (w : World S) :
  account = Some acc ->
  applied (emitted (createRound genre tx n1 n2) w) <> [] ->
  exists txResult res r,
    actions_createRound client acc genre = Ok txResult
    /\ actions_getRoundId client = Ok res
    /\ extractRoundId res = Ok r
    /\ outcome (createRound genre tx n1 n2) w = Ok r.
Proof.
  intros Hacc. unfold emitted, outcome.
  rewrite (createRound_run acc Hacc); cbn.
  destruct (actions_createRound client acc genre) as [txr|e]; cbn;
    [destruct (actions_getRoundId client) as [res|e]; cbn;
     [destruct (extractRoundId res) as [r|e] eqn:Hr; cbn|]|];
    rewrite drop_app_length; cbn; intros Happ; try congruence.
  exists txr, res, r. auto.
Qed.

(** C9. If [createRound] fails because the remote [createRound] call
    rejects, or the round-id fetch rejects, or the extraction of the id
    throws, then no optimistic update was applied in that run,
    [revertOptimisticUpdate] is called with the transaction id all the
    same, and the entities of the store are as they were.  The
    transaction id is fresh: it has no pending marker when the operation
    starts. *)
Theorem createRound_failure_leaves_entities
    (acc : Account) genre tx n1 n2 (w : World S) (e : Error) :
  account = Some acc ->
  tx ∉ pendingTransactions (store w) ->
  (actions_createRound client acc genre = Err e
   \/ (exists txResult,
        actions_createRound client acc genre = Ok txResult
        /\ actions_getRoundId client = Err e)
   \/ (exists txResult res,
        actions_createRound client acc genre = Ok txResult
        /\ actions_getRoundId client = Ok res
        /\ extractRoundId res = Err e)) ->
  outcome (createRound genre tx n1 n2) w = Err e
  /\ applied (emitted (createRound genre tx n1 n2) w) = []
  /\ reverted (emitted (createRound genre tx n1 n2) w) = [tx]
  /\ entities (final_store (createRound genre tx n1 n2) w) = entities (store w).
Proof.
  intros Hacc Hfresh Hcause.
  assert (Hsame : entities (confirmTransaction tx
                              (revertOptimisticUpdate tx (store w)))
                  = entities (store w)).
  { rewrite entities_confirm. by apply entities_revert_unknown. }
  unfold outcome, emitted, final_store.
  rewrite (createRound_run acc Hacc); cbn.
  destruct Hcause as [Hc | [(txr & Hc & Hg) | (txr & res & Hc & Hg & Hx)]].
  - rewrite Hc; cbn. rewrite drop_app_length. auto.
  - rewrite Hc, Hg; cbn. rewrite drop_app_length. auto.
  - rewrite Hc, Hg, Hx; cbn. rewrite drop_app_length. auto.
Qed.

End CreateRoundFailure.

Lemma createRound_failure_leaves_entities_witness :
  entities (final_store (createRound (env := Sample.rejecting_env)
                           Sample.pop "tx-1" 100 101) Sample.w0)
    = entities (store Sample.w0)
  /\ entities (final_store (createRound (env := Sample.rejecting_fetch_env)
                              Sample.pop "tx-1" 100 101) Sample.w0)
     = entities (store Sample.w0)
  /\ outcome (createRound (env := Sample.garbled_fetch_env)
                Sample.pop "tx-1" 100 101) Sample.w0
     = Err (SyntaxError "seven")
  /\ entities (final_store (createRound (env := Sample.garbled_fetch_env)
                              Sample.pop "tx-1" 100 101) Sample.w0)
     = entities (store Sample.w0).
Proof.
  assert (Hfresh : "tx-1" ∉ pendingTransactions (store Sample.w0)).
  { cbn. rewrite dom_empty_L. apply not_elem_of_empty. }
  split; [|split; [|split]].
  - apply (createRound_failure_leaves_entities (env := Sample.rejecting_env)
             Sample.alice Sample.pop "tx-1" 100 101 Sample.w0
             (Rejected "create") eq_refl Hfresh).
    left. reflexivity.
  - apply (createRound_failure_leaves_entities (env := Sample.rejecting_fetch_env)
             Sample.alice Sample.pop "tx-1" 100 101 Sample.w0
             (Rejected "getRoundId") eq_refl Hfresh).
    right. left. exists "0xfeed". split; reflexivity.
  - apply (createRound_failure_leaves_entities (env := Sample.garbled_fetch_env)
             Sample.alice Sample.pop "tx-1" 100 101 Sample.w0
             (SyntaxError "seven") eq_refl Hfresh).
    right. right. exists "0xfeed", ["seven"]. repeat split; reflexivity.
  - apply (createRound_failure_leaves_entities (env := Sample.garbled_fetch_env)
             Sample.alice Sample.pop "tx-1" 100 101 Sample.w0
             (SyntaxError "seven") eq_refl Hfresh).
    right. right. exists "0xfeed", ["seven"]. repeat split; reflexivity.
Defined.

(** ** The optimistic updates *)

Section Updaters.
Context `{env : Env}.

Lemma startRound_update_hit roundId now (d : gmap EntityId Entity) e ms lf rm :
  d !! getEntityIdFromKeys [roundId] = Some e ->
  models e = Some ms -> lyricsflip ms = Some lf -> Rounds lf = Some rm ->
  startRound_update roundId now d
  = <[getEntityIdFromKeys [roundId] := mark_started now e lf rm]> d.
Proof.
  intros He Hms Hlf Hrm. unfold startRound_update.
  rewrite He, Hms, Hlf, Hrm. reflexivity.
Qed.

Lemma startRound_update_miss roundId now (d : gmap EntityId Entity) :
  (forall e, d !! getEntityIdFromKeys [roundId] = Some e -> entity_Rounds e = None) ->
  startRound_update roundId now d = d.
Proof.
  intros Hno. unfold startRound_update.
  destruct (d !! getEntityIdFromKeys [roundId]) as [e|] eqn:He; [|reflexivity].
  specialize (Hno e eq_refl). unfold entity_Rounds in Hno.
  destruct (models e) as [ms|]; [|reflexivity]. cbn in Hno.
  destruct (lyricsflip ms) as [lf|]; [|reflexivity]. cbn in Hno.
  rewrite Hno. reflexivity.
Qed.

(** C10. The updater of [startRound] touches one entry of the draft, the
    one under the entity id of the key [roundId], and only if that entity
    carries a [Rounds] model: then the [state] of its round becomes 1 and
    its [start_time] the current time, while the entity id, the other
    models, the [round_id] and the seven other fields of the round keep
    their values.  Every other entry is as before, and a draft with no
    entity (or with an entity without a [Rounds] model) under that id is
    returned as it is. *)
Theorem startRound_update_frame roundId now (d : gmap EntityId Entity) :
  let id := getEntityIdFromKeys [roundId] in
  let d' := startRound_update roundId now d in
  (forall k, k <> id -> d' !! k = d !! k)
  /\ (d !! id = None -> d' = d)
  /\ (forall e, d !! id = Some e -> entity_Rounds e = None -> d' = d)
  /\ (forall e rm,
        d !! id = Some e -> entity_Rounds e = Some rm ->
        exists e' rm',
          d' !! id = Some e' /\ entity_Rounds e' = Some rm'
          /\ state (round rm') = 1
          /\ start_time (round rm') = now
          /\ entityId e' = entityId e
          /\ entity_RoundPlayer e' = entity_RoundPlayer e
          /\ entity_RoundCreated e' = entity_RoundCreated e
          /\ round_id rm' = round_id rm
          /\ creator (round rm') = creator (round rm)
          /\ genre (round rm') = genre (round rm)
          /\ wager_amount (round rm') = wager_amount (round rm)
          /\ end_time (round rm') = end_time (round rm)
          /\ next_card_index (round rm') = next_card_index (round rm)
          /\ players_count (round rm') = players_count (round rm)
          /\ ready_players_count (round rm') = ready_players_count (round rm)).
Proof.
  intros id d'. subst d'. split; [|split; [|split]].
  - intros k Hk. unfold startRound_update. fold id.
    destruct (d !! id) as [e|]; [|reflexivity].
    destruct (models e) as [ms|]; [|reflexivity].
    destruct (lyricsflip ms) as [lf|]; [|reflexivity].
    destruct (Rounds lf) as [rm|]; [|reflexivity].
    apply lookup_insert_ne. congruence.
  - intros Hnone. apply startRound_update_miss. fold id.
    intros e He. congruence.
  - intros e He Hno. apply startRound_update_miss. fold id.
    intros e0 He0. congruence.
  - intros e rm He Hrm. unfold entity_Rounds in Hrm.
    destruct (models e) as [ms|] eqn:Hms; [|discriminate]. cbn in Hrm.
    destruct (lyricsflip ms) as [lf|] eqn:Hlf; [|discriminate]. cbn in Hrm.
    rewrite (startRound_update_hit roundId now d e ms lf rm He Hms Hlf Hrm).
    fold id. rewrite lookup_insert_eq.
    eexists _, _. split; [reflexivity|]. split; [reflexivity|].
    unfold entity_RoundPlayer, entity_RoundCreated. rewrite Hms. cbn.
    rewrite Hlf. cbn. repeat split.
Qed.

End Updaters.

(** A round created and then started in the reference store: the round
    entity shows state 1 and the start time of [startRound]; the event
    entity is as [createRound] wrote it. *)
Example startRound_after_createRound :
  let w1 := fst (createRound (env := Sample.resolving_env)
                   Sample.pop "tx-1" 100 101 Sample.w0) in
  let w2 := fst (startRound (env := Sample.resolving_env) 7 "tx-2" 250 w1) in
  (fun e => (state (round e), start_time (round e), players_count (round e)))
    <$> (entities (store w2) !! "7" ≫= entity_Rounds) = Some (1, 250, 1)
  /\ entities (store w2) !! "7,101" = entities (store w1) !! "7,101".
Proof. vm_compute. split; reflexivity. Qed.

Section JoinRoundEntity.
Context `{env : Env} {S : Type} `{laws : DojoStoreLaws S}.

(** The updater of [joinRound] writes under a free id and nowhere else. *)
Lemma joinRound_update_fresh acc roundId id (d : gmap EntityId Entity) :
  d !! id = None ->
  exists e,
    joinRound_update acc roundId id d = <[id := e]> d
    /\ entityId e = id
    /\ entity_RoundPlayer e
       = Some {| player_to_round_id := (address acc, roundId);
                 joined := true; ready_state := false |}.
Proof.
  intros Hd. unfold joinRound_update. rewrite Hd.
  eexists. split; [reflexivity|]. split; reflexivity.
Qed.

Lemma joinRound_update_taken acc roundId id (d : gmap EntityId Entity) e :
  d !! id = Some e -> joinRound_update acc roundId id d = d.
Proof.
  intros Hd. unfold joinRound_update. rewrite Hd. reflexivity.
Qed.

(** C4.  The entity id [joinRound] writes under is
    [getEntityIdFromKeys([BigInt(account.address)])]: the round id is not
    among the keys.  The entity written for a first round records the
    pair (address, round id) with [joined = true] and
    [ready_state = false]; when the same account then joins another
    round, the id is taken and the second optimistic update writes
    nothing. *)
Theorem joinRound_entity_id_ignores_round
    (acc : Account) (k r1 r2 : Z) (tx1 tx2 : TxId) (w : World S) :
  account = Some acc ->
  BigInt (address acc) = Ok k ->
  actions_joinRound client acc r1 = Ok tt ->
  actions_joinRound client acc r2 = Ok tt ->
  entities (store w) !! getEntityIdFromKeys [k] = None ->
  let w1 := fst (joinRound r1 tx1 w) in
  let w2 := fst (joinRound r2 tx2 w1) in
  generateEntityId = Ok (getEntityIdFromKeys [k])
  /\ (exists e,
        entities (store w1) = <[getEntityIdFromKeys [k] := e]> (entities (store w))
        /\ entity_RoundPlayer e
           = Some {| player_to_round_id := (address acc, r1);
                     joined := true; ready_state := false |})
  /\ entities (store w2) = entities (store w1).
Proof.
  intros Hacc Hk Hj1 Hj2 Hfree w1 w2. subst w1 w2.
  split.
  { unfold generateEntityId. rewrite Hacc, Hk. reflexivity. }
  rewrite (joinRound_run acc Hacc r2 tx2 k _ Hk); cbn. rewrite Hj2; cbn.
  rewrite (joinRound_run acc Hacc r1 tx1 k _ Hk); cbn. rewrite Hj1; cbn.
  rewrite !entities_confirm, !entities_apply, !entities_confirm, !entities_apply.
  destruct (joinRound_update_fresh acc r1 _ _ Hfree) as (e & He & _ & Hp).
  rewrite He. split.
  - exists e. auto.
  - apply joinRound_update_taken with (e := e). apply lookup_insert_eq.
Qed.

End JoinRoundEntity.

Lemma joinRound_entity_id_ignores_round_witness :
  let w1 := fst (joinRound (env := Sample.resolving_env) 7 "tx-1" Sample.w0) in
  let w2 := fst (joinRound (env := Sample.resolving_env) 8 "tx-2" w1) in
  entities (store w2) = entities (store w1)
  /\ (entity_RoundPlayer <$> (map_to_list (entities (store w2))).*2)
     = [Some {| player_to_round_id := ("0xA11CE", 7);
                joined := true; ready_state := false |}].
Proof.
  split.
  - apply (joinRound_entity_id_ignores_round (env := Sample.resolving_env)
             Sample.alice 659918 7 8 "tx-1" "tx-2" Sample.w0
             eq_refl eq_refl eq_refl eq_refl (lookup_empty _)).
  - vm_compute. reflexivity.
Defined.

Lemma string_or_empty (a : string) : string_or a "" = a.
Proof.
  unfold string_or. case_decide; congruence.
Qed.

Section CreateRoundEvent.
Context `{env : Env} {S : Type} `{laws : DojoStoreLaws S}.

(** The entry under the event id after the updater of [createRound]. *)
Lemma createRound_update_event acc genre r n1 n2 (d : gmap EntityId Entity) :
  let rid := getEntityIdFromKeys [r] in
  let eid := getEntityIdFromKeys [r; n2] in
  let d' := createRound_update acc genre r n1 n2 d in
  (d !! eid = None -> eid <> rid ->
   exists e,
     d' !! eid = Some e
     /\ entityId e = eid
     /\ entity_RoundCreated e
        = Some {| created_round_id := r; created_creator := address acc |}
     /\ entity_Rounds e = None
     /\ entity_RoundPlayer e = None)
  /\ (forall e, d !! eid = Some e -> d' !! eid = Some e).
Proof.
  intros rid eid d'. subst d'. unfold createRound_update. fold rid eid.
  split.
  - intros Hfree Hne.
    destruct (d !! rid) as [e0|] eqn:Hr.
    + rewrite Hfree. rewrite lookup_insert_eq.
      eexists. split; [reflexivity|]. cbn. rewrite string_or_empty. auto.
    + rewrite lookup_insert_ne by congruence. rewrite Hfree.
      rewrite lookup_insert_eq.
      eexists. split; [reflexivity|]. cbn. rewrite string_or_empty. auto.
  - intros e He.
    destruct (d !! rid) as [e0|] eqn:Hr.
    + rewrite He. exact He.
    + destruct (decide (rid = eid)) as [Heq|Hne].
      * congruence.
      * rewrite lookup_insert_ne by exact Hne. rewrite He.
        rewrite lookup_insert_ne by exact Hne. exact He.
Qed.

(** C5, amended.  A successful [createRound] call applies one optimistic
    update, under its transaction id.  That update looks up the entity id
    derived from the round id and the reading of [Date.now()] taken for
    the event: when no entity is stored under this id (and the id is not
    the one of the round entity itself), a [RoundCreated] event entity
    recording the round id and the address of the creator is written
    there; an entity already stored under the id is left as it is. *)
Theorem createRound_writes_event_if_absent
    (acc : Account) genre tx n1 n2 (w : World S) (r : Z) :
  account = Some acc ->
  outcome (createRound genre tx n1 n2) w = Ok r ->
  let rid := getEntityIdFromKeys [r] in
  let eid := getEntityIdFromKeys [r; n2] in
  let after := entities (final_store (createRound genre tx n1 n2) w) in
  applied (emitted (createRound genre tx n1 n2) w) = [tx]
  /\ (entities (store w) !! eid = None -> eid <> rid ->
      exists e,
        after !! eid = Some e
        /\ entityId e = eid
        /\ entity_RoundCreated e
           = Some {| created_round_id := r; created_creator := address acc |})
  /\ (forall e, entities (store w) !! eid = Some e -> after !! eid = Some e).
Proof.
  intros Hacc Hok rid eid after. subst after.
  revert Hok. unfold outcome, emitted, final_store.
  rewrite (createRound_run acc Hacc); cbn.
  destruct (actions_createRound client acc genre) as [txr|e]; cbn;
    [destruct (actions_getRoundId client) as [res|e]; cbn;
     [destruct (extractRoundId res) as [r'|e]; cbn|]|];
    intros Hok; try discriminate.
  injection Hok as ->.
  rewrite drop_app_length, entities_confirm, entities_apply. cbn.
  destruct (createRound_update_event acc genre r n1 n2 (entities (store w)))
    as (Hfresh & Htaken).
  split; [reflexivity|]. split.
  - intros Hfree Hne. destruct (Hfresh Hfree Hne) as (e & He & Hid & Hrc & _).
    exists e. auto.
  - exact Htaken.
Qed.

End CreateRoundEvent.

Lemma createRound_writes_event_if_absent_witness :
  exists e,
    entities (final_store (createRound (env := Sample.resolving_env)
                             Sample.pop "tx-1" 100 101) Sample.w0) !! "7,101"
    = Some e
    /\ entityId e = "7,101"
    /\ entity_RoundCreated e
       = Some {| created_round_id := 7; created_creator := "0xA11CE" |}.
Proof.
  pose proof (createRound_writes_event_if_absent (env := Sample.resolving_env)
                Sample.alice Sample.pop "tx-1" 100 101 Sample.w0 7
                eq_refl eq_refl) as (_ & Hfresh & _).
  apply Hfresh.
  - apply lookup_empty.
  - vm_compute. discriminate.
Defined.

(** C5, as stated, fails when the id is taken: two calls that fetch the
    same round id and read the same millisecond both succeed, and the
    second one writes nothing; the store holds one [RoundCreated] entity
    for the two creations. *)
Lemma createRound_same_round_same_millisecond :
  let w1 := fst (createRound (env := Sample.resolving_env)
                   Sample.pop "tx-1" 100 101 Sample.w0) in
  let second := createRound (env := Sample.resolving_env)
                  Sample.pop "tx-2" 100 101 in
  outcome second w1 = Ok 7
  /\ entities (final_store second w1) = entities (store w1)
  /\ length (filter (fun e => is_Some (entity_RoundCreated e))
               (map_to_list (entities (final_store second w1))).*2) = 1%nat.
Proof.
  vm_compute. repeat split.
Qed.

(** ** [Number] on integers

    What the conversion of a bigint to a double does to the values the
    modal compares against: an integer is converted to zero only if it is
    zero, and to 1 or 2 only if it is 1 or 2. *)

Module NumberFacts.
Import ChallengeModal.

Lemma digits2_pos_size p : digits2_pos p = Pos.size p.
Proof. induction p; simpl; congruence. Qed.

Lemma iter_pos_iter {A} (f : A -> A) n :
  forall x, SpecFloat.iter_pos f n x = Pos.iter f x n.
Proof.
  induction n; intros x; simpl.
  - rewrite !IHn. rewrite !Pos.iter_swap. reflexivity.
  - rewrite !IHn. reflexivity.
  - reflexivity.
Qed.

Lemma shr_1_m mrs : 0 <= shr_m mrs -> shr_m (shr_1 mrs) = Z.div2 (shr_m mrs).
Proof.
  destruct mrs as [m r s]. simpl.
  destruct m as [|[p|p|]|p]; simpl; try reflexivity; lia.
Qed.

Lemma shr_iter_m n : forall mrs, 0 <= shr_m mrs ->
  shr_m (Pos.iter shr_1 mrs n) = Z.shiftr (shr_m mrs) (Zpos n).
Proof.
  intros mrs Hm. rewrite Z.shiftr_div_pow2 by lia.
  revert mrs Hm. induction n using Pos.peano_ind; intros mrs Hm.
  - simpl. rewrite shr_1_m by assumption. rewrite Z.div2_div. reflexivity.
  - rewrite Pos.iter_succ. rewrite shr_1_m.
    + rewrite IHn by assumption. rewrite Z.div2_div.
      rewrite Pos2Z.inj_succ, Z.pow_succ_r by lia.
      rewrite Z.div_div by lia. f_equal. lia.
    + rewrite IHn by assumption. apply Z.div_pos; lia.
Qed.

Lemma digits2_pos_lower p : 2 ^ (Zpos (digits2_pos p) - 1) <= Zpos p.
Proof.
  rewrite digits2_pos_size.
  pose proof (Pos.size_le p) as H.
  apply Pos2Z.pos_le_pos in H. rewrite Pos2Z.inj_pow in H.
  change (Z.pos p~0) with (2 * Z.pos p) in H.
  replace (Z.pos (Pos.size p)) with (Z.succ (Z.pos (Pos.size p) - 1)) in H by lia.
  rewrite Z.pow_succ_r in H by lia. lia.
Qed.

Lemma fexp_eq e : fexp prec emax e = Z.max (e - 53) (-1074).
Proof. reflexivity. Qed.

(** Shifting a positive mantissa right to its format, at an exponent that
    is not below the least one, leaves a positive mantissa. *)
Lemma shr_fexp_pos q e l :
  -1074 <= e ->
  0 < shr_m (fst (shr_fexp prec emax (Zpos q) e l))
  /\ e <= snd (shr_fexp prec emax (Zpos q) e l).
Proof.
  intros He. unfold shr_fexp, shr. rewrite fexp_eq. cbn [Zdigits2].
  set (d := Zpos (digits2_pos q)).
  pose proof (digits2_pos_lower q) as Hlow. fold d in Hlow.
  assert (Hd : 1 <= d) by (unfold d; lia).
  destruct (Z.max (d + e - 53) (-1074) - e) as [|k|k] eqn:Hk; cbn [fst snd].
  - split; [|lia]. destruct l as [|[]]; cbn; lia.
  - split; [|lia].
    rewrite iter_pos_iter.
    assert (Hm : shr_m (shr_record_of_loc (Zpos q) l) = Zpos q)
      by (destruct l as [|[]]; reflexivity).
    rewrite shr_iter_m by (rewrite Hm; lia).
    rewrite Hm. rewrite Z.shiftr_div_pow2 by lia.
    apply Z.div_str_pos. split; [apply Z.pow_pos_nonneg; lia|].
    eapply Z.le_trans; [|exact Hlow].
    apply Z.pow_le_mono_r; lia.
  - split; [|lia]. destruct l as [|[]]; cbn; lia.
Qed.

Lemma round_nearest_even_pos m l : 0 < m -> 0 < round_nearest_even m l.
Proof.
  intros Hm. destruct l as [|[]]; cbn; try lia.
  destruct (Z.even m); lia.
Qed.

Lemma binary_round_aux_pos sx q e l :
  -1074 <= e ->
  (exists m e',
      binary_round_aux prec emax sx (Zpos q) e l = S754_finite sx m e' /\ e <= e')
  \/ binary_round_aux prec emax sx (Zpos q) e l = S754_infinity sx.
Proof.
  intros He. unfold binary_round_aux.
  pose proof (shr_fexp_pos q e l He) as [Hm1 He1].
  destruct (shr_fexp prec emax (Zpos q) e l) as [mrs1 e1]. cbn [fst snd] in *.
  pose proof (round_nearest_even_pos (shr_m mrs1) (loc_of_shr_record mrs1) Hm1)
    as Hm2.
  destruct (round_nearest_even (shr_m mrs1) (loc_of_shr_record mrs1))
    as [|q2|q2]; try lia.
  pose proof (shr_fexp_pos q2 e1 loc_Exact ltac:(lia)) as [Hm3 He3].
  destruct (shr_fexp prec emax (Zpos q2) e1 loc_Exact) as [mrs3 e3].
  cbn [fst snd] in *.
  destruct (shr_m mrs3) as [|q3|q3]; try lia.
  destruct (Z.leb e3 (emax - prec)).
  - left. exists q3, e3. split; [reflexivity|lia].
  - right. reflexivity.
Qed.

(** A mantissa of exactly 53 bits is kept as it is. *)
Lemma binary_round_aux_exact sx q e :
  Zpos (digits2_pos q) = 53 -> -1074 <= e <= 971 ->
  binary_round_aux prec emax sx (Zpos q) e loc_Exact = S754_finite sx q e.
Proof.
  intros Hd He.
  assert (Hs : shr_fexp prec emax (Zpos q) e loc_Exact
               = ({| shr_m := Zpos q; shr_r := false; shr_s := false |}, e)).
  { unfold shr_fexp, shr. rewrite fexp_eq. cbn [Zdigits2]. rewrite Hd.
    replace (Z.max (53 + e - 53) (-1074) - e) with 0 by lia. reflexivity. }
  unfold binary_round_aux. rewrite Hs.
  cbn [shr_m loc_of_shr_record round_nearest_even].
  rewrite Hs. cbn [shr_m].
  replace (Z.leb e (emax - prec)) with true; [reflexivity|].
  symmetry. apply Z.leb_le. unfold emax, prec. lia.
Qed.

Lemma digits2_pos_iter_xO k p :
  Zpos (digits2_pos (Pos.iter xO p k)) = Zpos (digits2_pos p) + Zpos k.
Proof.
  induction k using Pos.peano_ind.
  - simpl. lia.
  - rewrite Pos.iter_succ. simpl. lia.
Qed.

Lemma iter_xO_value k p : Zpos (Pos.iter xO p k) = Zpos p * 2 ^ Zpos k.
Proof.
  induction k using Pos.peano_ind.
  - simpl. lia.
  - rewrite Pos.iter_succ. rewrite Pos2Z.inj_succ, Z.pow_succ_r by lia.
    change (Z.pos (Pos.iter xO p k)~0) with (2 * Z.pos (Pos.iter xO p k)). lia.
Qed.

(** The rounding of a positive integer [p] of [d] bits: exact, with the
    exponent [d - 53], when [d <= 53]; otherwise finite with an exponent
    that is not negative, or infinite. *)
Lemma binary_round_int sx p :
  let d := Zpos (digits2_pos p) in
  (d <= 53
   /\ exists m, binary_round prec emax sx p 0 = S754_finite sx m (d - 53)
                /\ Zpos m = Zpos p * 2 ^ (53 - d))
  \/ (53 < d
      /\ ((exists m e,
              binary_round prec emax sx p 0 = S754_finite sx m e /\ 0 <= e)
          \/ binary_round prec emax sx p 0 = S754_infinity sx)).
Proof.
  intros d. unfold binary_round, shl_align. rewrite fexp_eq. fold d.
  assert (Hd : 1 <= d) by (unfold d; lia).
  destruct (Z_le_gt_dec d 53) as [Hle|Hgt].
  - left. split; [assumption|].
    replace (Z.max (d + 0 - 53) (-1074)) with (d - 53) by lia.
    destruct (d - 53 - 0) as [|k|k] eqn:Hk; try lia.
    + exists p. assert (d = 53) by lia.
      rewrite binary_round_aux_exact by (fold d; lia).
      split; [f_equal; lia|]. replace (53 - d) with 0 by lia. lia.
    + exists (Pos.iter xO p k).
      rewrite binary_round_aux_exact.
      * split; [reflexivity|]. rewrite iter_xO_value. f_equal. f_equal. lia.
      * rewrite digits2_pos_iter_xO. fold d. lia.
      * lia.
  - right. split; [lia|].
    replace (Z.max (d + 0 - 53) (-1074)) with (d - 53) by lia.
    destruct (d - 53 - 0) as [|k|k] eqn:Hk; try lia.
    destruct (binary_round_aux_pos sx p 0 loc_Exact ltac:(lia))
      as [(m & e & H & He)|H].
    + left. eauto.
    + right. assumption.
Qed.

Lemma SFeqb_finite_pos m e m' e' :
  SFeqb (S754_finite false m e) (S754_finite false m' e') = true ->
  e = e' /\ m = m'.
Proof.
  unfold SFeqb, SFcompare.
  destruct (Z.compare e e') eqn:He; try discriminate.
  apply Z.compare_eq in He.
  change (Pos.compare_cont Eq m m') with (Pos.compare m m').
  destruct (Pos.compare m m') eqn:Hm; try discriminate.
  apply Pos.compare_eq in Hm. auto.
Qed.

Lemma Number_pos_cases p :
  let d := Zpos (digits2_pos p) in
  (d <= 53 /\ exists m, Number (Zpos p) = S754_finite false m (d - 53)
                        /\ Zpos m = Zpos p * 2 ^ (53 - d))
  \/ (exists m e, Number (Zpos p) = S754_finite false m e /\ 0 <= e)
  \/ Number (Zpos p) = S754_infinity false.
Proof.
  intros d.
  destruct (binary_round_int false p) as [H|[_ H]];
    [left; exact H|right; exact H].
Qed.

Lemma Number_neg_cases p :
  (exists m e, Number (Zneg p) = S754_finite true m e)
  \/ Number (Zneg p) = S754_infinity true.
Proof.
  unfold Number, binary_normalize.
  destruct (binary_round_int true p)
    as [(_ & m & H & _)|[_ [(m & e & H & _)|H]]]; eauto.
Qed.

Lemma Number_0 : Number 0 = S754_zero false.
Proof. reflexivity. Qed.

Lemma Number_1 : Number 1 = S754_finite false 4503599627370496 (-52).
Proof. reflexivity. Qed.

Lemma Number_2 : Number 2 = S754_finite false 4503599627370496 (-51).
Proof. reflexivity. Qed.

Lemma Number_is_zero s : strict_eq (Number s) lit_0 = true <-> s = 0.
Proof.
  unfold strict_eq, lit_0.
  split; [|intros ->; reflexivity].
  destruct s as [|p|p]; [reflexivity| |]; intros H; exfalso.
  - destruct (Number_pos_cases p) as [(_ & m & E & _)|[(m & e & E & _)|E]];
      rewrite E in H; discriminate.
  - destruct (Number_neg_cases p) as [(m & e & E)|E];
      rewrite E in H; discriminate.
Qed.

Lemma Number_is_one s : strict_eq (Number s) lit_1 = true <-> s = 1.
Proof.
  unfold strict_eq, lit_1.
  split; [|intros ->; reflexivity].
  rewrite Number_1.
  destruct s as [|p|p]; intros H.
  - discriminate.
  - destruct (Number_pos_cases p) as [(Hd & m & E & Hm)|[(m & e & E & He)|E]];
      rewrite E in H.
    + apply SFeqb_finite_pos in H. destruct H as [He ->].
      replace (53 - Z.pos (digits2_pos p)) with 52 in Hm by lia.
      change (2 ^ 52) with 4503599627370496 in Hm. lia.
    + apply SFeqb_finite_pos in H. lia.
    + discriminate.
  - destruct (Number_neg_cases p) as [(m & e & E)|E];
      rewrite E in H; discriminate.
Qed.

Lemma Number_is_two s : strict_eq (Number s) lit_2 = true <-> s = 2.
Proof.
  unfold strict_eq, lit_2.
  split; [|intros ->; reflexivity].
  rewrite Number_2.
  destruct s as [|p|p]; intros H.
  - discriminate.
  - destruct (Number_pos_cases p) as [(Hd & m & E & Hm)|[(m & e & E & He)|E]];
      rewrite E in H.
    + apply SFeqb_finite_pos in H. destruct H as [He ->].
      replace (53 - Z.pos (digits2_pos p)) with 51 in Hm by lia.
      change (2 ^ 51) with 2251799813685248 in Hm. lia.
    + apply SFeqb_finite_pos in H. lia.
    + discriminate.
  - destruct (Number_neg_cases p) as [(m & e & E)|E];
      rewrite E in H; discriminate.
Qed.

(** *** Rounding to nearest

    The conversion of an integer, the product and the division by [1e18]
    return a double within half a unit in the last place of the exact
    result. *)

(** One shift to the right keeps the bracket, the unit being doubled. *)
Lemma shr_1_bracket mrs N D :
  0 <= shr_m mrs -> 0 < D -> bracket mrs N D -> bracket (shr_1 mrs) N (2 * D).
Proof.
  destruct mrs as [m r s]. unfold bracket. cbn [shr_m shr_r shr_s].
  intros Hm HD.
  destruct m as [|[p|p|]|p]; try lia;
    destruct r, s; cbn [shr_1 shr_m shr_r shr_s orb];
    try change (Z.pos p~1) with (2 * Z.pos p + 1);
    try change (Z.pos p~0) with (2 * Z.pos p);
    intros H; lia.
Qed.

Lemma shr_iter_bracket k : forall mrs N D,
  0 <= shr_m mrs -> 0 < D -> bracket mrs N D ->
  bracket (Pos.iter shr_1 mrs k) N (2 ^ Zpos k * D).
Proof.
  induction k using Pos.peano_ind; intros mrs N D Hm HD Hb.
  - cbn [Pos.iter]. change (2 ^ 1) with 2. apply shr_1_bracket; assumption.
  - rewrite Pos.iter_succ.
    rewrite Pos2Z.inj_succ, Z.pow_succ_r by lia.
    replace (2 * 2 ^ Z.pos k * D) with (2 * (2 ^ Z.pos k * D)) by lia.
    apply shr_1_bracket.
    + rewrite shr_iter_m by assumption. apply Z.shiftr_nonneg. assumption.
    + pose proof (Z.pow_pos_nonneg 2 (Zpos k)). nia.
    + apply IHk; assumption.
Qed.

(** Rounding to nearest, ties to even, moves to the mantissa or to its
    successor and ends within half a unit of [N / D]. *)
Lemma round_nearest_even_bracket mrs N D :
  0 < D -> bracket mrs N D ->
  let m2 := round_nearest_even (shr_m mrs) (loc_of_shr_record mrs) in
  shr_m mrs <= m2 <= shr_m mrs + 1 /\ Z.abs (2 * m2 * D - 2 * N) <= D.
Proof.
  destruct mrs as [m r s]. unfold bracket. cbn [shr_m shr_r shr_s].
  intros HD Hb. destruct r, s; cbn [loc_of_shr_record round_nearest_even].
  - split; [lia|]. lia.
  - destruct (Z.even m); split; lia.
  - split; [lia|]. lia.
  - split; [lia|]. lia.
Qed.

Lemma digits2_pos_upper p : Zpos p < 2 ^ Zpos (digits2_pos p).
Proof.
  rewrite digits2_pos_size.
  pose proof (Pos.size_gt p) as H.
  apply Pos2Z.pos_lt_pos in H. rewrite Pos2Z.inj_pow in H. exact H.
Qed.

(** The number of bits of [p] is the [n] with [2^(n-1) <= p < 2^n]. *)
Lemma digits2_pos_unique p n :
  2 ^ (n - 1) <= Zpos p < 2 ^ n -> Zpos (digits2_pos p) = n.
Proof.
  intros [Hlo Hhi].
  pose proof (digits2_pos_lower p) as Hl.
  pose proof (digits2_pos_upper p) as Hu.
  set (d := Zpos (digits2_pos p)) in *.
  assert (Hd : 1 <= d) by (unfold d; lia).
  assert (Hn : 0 < n).
  { destruct (Z_lt_le_dec 0 n); [assumption|].
    rewrite (Z.pow_neg_r 2 (n - 1)) in Hlo by lia.
    destruct (Z.eq_dec n 0) as [->|]; [simpl in Hhi; lia|].
    rewrite (Z.pow_neg_r 2 n) in Hhi by lia. lia. }
  destruct (Z_lt_le_dec d n) as [Hlt|Hge].
  - assert (2 ^ d <= 2 ^ (n - 1)) by (apply Z.pow_le_mono_r; lia). lia.
  - destruct (Z_lt_le_dec n d) as [Hlt|Hle]; [|lia].
    assert (2 ^ n <= 2 ^ (d - 1)) by (apply Z.pow_le_mono_r; lia). lia.
Qed.

Lemma shr_record_of_loc_m m l : shr_m (shr_record_of_loc m l) = m.
Proof. destruct l as [|[]]; reflexivity. Qed.

Lemma loc_of_shr_record_of_loc m l : loc_of_shr_record (shr_record_of_loc m l) = l.
Proof. destruct l as [|[]]; reflexivity. Qed.

(** The first normalisation of a mantissa of at least 53 bits leaves 53
    bits and a bracket of the same quantity. *)
Lemma shr_fexp_normal q e l N D :
  0 < D -> -1074 <= e -> 53 <= Zpos (digits2_pos q) ->
  bracket (shr_record_of_loc (Zpos q) l) N D ->
  exists mrs1,
    shr_fexp prec emax (Zpos q) e l = (mrs1, e + (Zpos (digits2_pos q) - 53))
    /\ 2 ^ 52 <= shr_m mrs1 < 2 ^ 53
    /\ bracket mrs1 N (2 ^ (Zpos (digits2_pos q) - 53) * D).
Proof.
  intros HD He Hd Hb.
  pose proof (digits2_pos_lower q) as Hlo.
  pose proof (digits2_pos_upper q) as Hhi.
  unfold shr_fexp, shr. rewrite fexp_eq. cbn [Zdigits2].
  set (d := Zpos (digits2_pos q)) in *.
  replace (Z.max (d + e - 53) (-1074) - e) with (d - 53) by lia.
  destruct (d - 53) as [|k|k] eqn:Hk; try lia.
  - exists (shr_record_of_loc (Zpos q) l).
    assert (d = 53) by lia. subst d.
    split; [f_equal; lia|]. rewrite shr_record_of_loc_m.
    split.
    + replace 52 with (Z.pos (digits2_pos q) - 1) by lia.
      replace 53 with (Z.pos (digits2_pos q)) by lia. lia.
    + change (2 ^ 0) with 1. rewrite Z.mul_1_l. exact Hb.
  - exists (Pos.iter shr_1 (shr_record_of_loc (Zpos q) l) k).
    rewrite iter_pos_iter. split; [reflexivity|].
    split.
    + rewrite shr_iter_m by (rewrite shr_record_of_loc_m; lia).
      rewrite shr_record_of_loc_m. rewrite Z.shiftr_div_pow2 by lia.
      assert (Hp : 0 < 2 ^ Z.pos k) by (apply Z.pow_pos_nonneg; lia).
      assert (E1 : 2 ^ (d - 1) = 2 ^ Z.pos k * 2 ^ 52).
      { rewrite <- Z.pow_add_r by lia. f_equal. lia. }
      assert (E2 : 2 ^ d = 2 ^ Z.pos k * 2 ^ 53).
      { rewrite <- Z.pow_add_r by lia. f_equal. lia. }
      split.
      * apply Z.div_le_lower_bound; lia.
      * apply Z.div_lt_upper_bound; lia.
    + apply shr_iter_bracket; [rewrite shr_record_of_loc_m; lia|assumption|assumption].
Qed.

(** Rounding a mantissa of at least 53 bits that brackets [N / D]: the
    result has a 53-bit mantissa and lies within half a unit in the last
    place of [N / D]; it is infinite when the exponent leaves the format. *)
Lemma binary_round_aux_correct sx q e l N D :
  0 < D -> -1074 <= e -> 53 <= Zpos (digits2_pos q) ->
  bracket (shr_record_of_loc (Zpos q) l) N D ->
  exists m3 e3,
    e + (Zpos (digits2_pos q) - 53) <= e3 <= e + (Zpos (digits2_pos q) - 53) + 1
    /\ 2 ^ 52 <= Zpos m3 < 2 ^ 53
    /\ binary_round_aux prec emax sx (Zpos q) e l
       = (if e3 <=? 971 then S754_finite sx m3 e3 else S754_infinity sx)
    /\ Z.abs (2 * (Zpos m3 * 2 ^ (e3 - e) * D) - 2 * N) <= 2 ^ (e3 - e) * D.
Proof.
  intros HD He Hd Hb.
  destruct (shr_fexp_normal q e l N D HD He Hd Hb) as (mrs1 & Hs1 & Hm1 & Hb1).
  set (k1 := Zpos (digits2_pos q) - 53) in *.
  assert (Hk1 : 0 <= k1) by (unfold k1; lia).
  assert (HP : 0 < 2 ^ k1) by (apply Z.pow_pos_nonneg; lia).
  assert (HD1 : 0 < 2 ^ k1 * D) by nia.
  pose proof (round_nearest_even_bracket mrs1 N (2 ^ k1 * D) HD1 Hb1) as [Hm2 Herr].
  cbv zeta in Hm2, Herr.
  unfold binary_round_aux. rewrite Hs1.
  set (m2 := round_nearest_even (shr_m mrs1) (loc_of_shr_record mrs1)) in *.
  change (2 ^ 52) with 4503599627370496 in *.
  change (2 ^ 53) with 9007199254740992 in *.
  destruct m2 as [|q2|q2] eqn:Eq2; try lia.
  destruct (Z_lt_le_dec (Zpos q2) 9007199254740992) as [Hlt|Hge].
  - (* the rounded mantissa still has 53 bits *)
    assert (Hd2 : Zpos (digits2_pos q2) = 53).
    { apply digits2_pos_unique.
      change (2 ^ (53 - 1)) with 4503599627370496.
      change (2 ^ 53) with 9007199254740992. lia. }
    assert (Hs2 : shr_fexp prec emax (Zpos q2) (e + k1) loc_Exact
                  = ({| shr_m := Zpos q2; shr_r := false; shr_s := false |}, e + k1)).
    { unfold shr_fexp, shr. rewrite fexp_eq. cbn [Zdigits2]. rewrite Hd2.
      replace (Z.max (53 + (e + k1) - 53) (-1074) - (e + k1)) with 0 by lia.
      reflexivity. }
    rewrite Hs2. cbn [shr_m].
    exists q2, (e + k1). split; [lia|]. split; [lia|]. split; [reflexivity|].
    replace (e + k1 - e) with k1 by lia.
    replace (2 * (Z.pos q2 * 2 ^ k1 * D)) with (2 * Z.pos q2 * (2 ^ k1 * D)) by lia.
    exact Herr.
  - (* rounding carried into a 54th bit: the mantissa is 2^53 *)
    assert (Hq2 : Zpos q2 = 9007199254740992) by lia.
    injection Hq2 as ->.
    exists 4503599627370496%positive, (e + k1 + 1).
    split; [lia|]. split; [lia|]. split.
    + assert (Hs2 : shr_fexp prec emax 9007199254740992 (e + k1) loc_Exact
                    = ({| shr_m := 4503599627370496; shr_r := false; shr_s := false |},
                       e + k1 + 1)).
      { unfold shr_fexp, shr. rewrite fexp_eq.
        change (Zdigits2 9007199254740992) with 54.
        replace (Z.max (54 + (e + k1) - 53) (-1074) - (e + k1)) with 1 by lia.
        reflexivity. }
      rewrite Hs2. reflexivity.
    + replace (e + k1 + 1 - e) with (k1 + 1) by lia.
      rewrite Z.pow_add_r by lia. change (2 ^ 1) with 2.
      replace (2 * (4503599627370496 * (2 ^ k1 * 2) * D))
        with (2 * 9007199254740992 * (2 ^ k1 * D)) by lia.
      lia.
Qed.

Lemma bracket_exact m N : N = m -> bracket (shr_record_of_loc m loc_Exact) N 1.
Proof. intros ->. unfold bracket. cbn. lia. Qed.

(** [Number] on a positive integer below 2^256: a normal double within
    half a unit in the last place of the integer. *)
Lemma Number_correct p :
  Zpos p < 2 ^ 256 ->
  exists mx ex,
    Number (Zpos p) = S754_finite false mx ex
    /\ 2 ^ 52 <= Zpos mx < 2 ^ 53
    /\ -52 <= ex <= 204
    /\ Z.abs (2 * (Zpos mx * 2 ^ (ex + 52)) - 2 * (Zpos p * 2 ^ 52)) <= 2 ^ (ex + 52).
Proof.
  intros Hp.
  pose proof (digits2_pos_lower p) as Hlo.
  pose proof (digits2_pos_upper p) as Hhi.
  set (d := Zpos (digits2_pos p)) in *.
  assert (Hd1 : 1 <= d) by (unfold d; lia).
  assert (Hd256 : d <= 256).
  { destruct (Z_le_gt_dec d 256); [assumption|].
    assert (2 ^ 256 <= 2 ^ (d - 1)) by (apply Z.pow_le_mono_r; lia). lia. }
  destruct (Z_le_gt_dec d 53) as [Hle|Hgt].
  - pose proof (binary_round_int false p) as Hint.
    cbv zeta in Hint. fold d in Hint.
    destruct Hint as [(_ & m & E & Hm)|[Hbad _]]; [|lia].
    exists m, (d - 53). split; [exact E|].
    assert (Hpow : 2 ^ (d - 1) * 2 ^ (53 - d) = 2 ^ 52).
    { rewrite <- Z.pow_add_r by lia. f_equal. lia. }
    assert (Hpow' : 2 ^ d * 2 ^ (53 - d) = 2 ^ 53).
    { rewrite <- Z.pow_add_r by lia. f_equal. lia. }
    assert (Hs : 0 < 2 ^ (53 - d)) by (apply Z.pow_pos_nonneg; lia).
    split; [rewrite Hm; nia|]. split; [lia|].
    replace (d - 53 + 52) with (d - 1) by lia.
    assert (Hx : Zpos m * 2 ^ (d - 1) = Zpos p * 2 ^ 52).
    { rewrite Hm. rewrite <- Hpow. ring. }
    rewrite Hx. replace (2 * (Z.pos p * 2 ^ 52) - 2 * (Z.pos p * 2 ^ 52)) with 0 by lia.
    cbn [Z.abs]. apply Z.pow_nonneg. lia.
  - assert (Hb : bracket (shr_record_of_loc (Zpos p) loc_Exact) (Zpos p) 1)
      by (apply bracket_exact; reflexivity).
    destruct (binary_round_aux_correct false p 0 loc_Exact (Zpos p) 1
                ltac:(lia) ltac:(lia) ltac:(fold d; lia) Hb)
      as (m3 & e3 & He3 & Hm3 & E & Herr).
    fold d in He3.
    exists m3, e3. split.
    + unfold Number, binary_normalize, binary_round, shl_align.
      rewrite fexp_eq. fold d.
      replace (Z.max (d + 0 - 53) (-1074) - 0) with (d - 53) by lia.
      destruct (d - 53) as [|k|k] eqn:Hk; try lia.
      rewrite E. replace (e3 <=? 971) with true; [reflexivity|].
      symmetry. apply Z.leb_le. lia.
    + split; [exact Hm3|]. split; [lia|].
      rewrite Z.sub_0_r, !Z.mul_1_r in Herr.
      rewrite Z.pow_add_r by lia.
      assert (H52 : 0 < 2 ^ 52) by (apply Z.pow_pos_nonneg; lia).
      replace (2 * (Z.pos m3 * (2 ^ e3 * 2 ^ 52)) - 2 * (Z.pos p * 2 ^ 52))
        with ((2 * (Z.pos m3 * 2 ^ e3) - 2 * Z.pos p) * 2 ^ 52) by ring.
      rewrite Z.abs_mul, (Z.abs_eq (2 ^ 52)) by lia.
      apply Z.mul_le_mono_nonneg_r; lia.
Qed.

(** An integer below 2^53 is converted exactly. *)
Lemma Number_small k :
  0 < k < 2 ^ 53 ->
  exists mk ek,
    Number k = S754_finite false mk ek
    /\ 2 ^ 52 <= Zpos mk < 2 ^ 53
    /\ -52 <= ek <= 0
    /\ Zpos mk * 2 ^ (ek + 52) = k * 2 ^ 52.
Proof.
  intros [Hk0 Hk]. destruct k as [|p|p]; try lia.
  pose proof (digits2_pos_lower p) as Hlo.
  pose proof (digits2_pos_upper p) as Hhi.
  pose proof (binary_round_int false p) as Hint. cbv zeta in Hint.
  set (d := Zpos (digits2_pos p)) in *.
  assert (Hd1 : 1 <= d) by (unfold d; lia).
  assert (Hd : d <= 53).
  { destruct (Z_le_gt_dec d 53); [assumption|].
    assert (2 ^ 53 <= 2 ^ (d - 1)) by (apply Z.pow_le_mono_r; lia). lia. }
  destruct Hint as [(_ & m & E & Hm)|[Hbad _]]; [|lia].
  exists m, (d - 53). split; [exact E|].
  assert (Hpow : 2 ^ (d - 1) * 2 ^ (53 - d) = 2 ^ 52).
  { rewrite <- Z.pow_add_r by lia. f_equal. lia. }
  assert (Hpow' : 2 ^ d * 2 ^ (53 - d) = 2 ^ 53).
  { rewrite <- Z.pow_add_r by lia. f_equal. lia. }
  assert (Hs : 0 < 2 ^ (53 - d)) by (apply Z.pow_pos_nonneg; lia).
  split; [rewrite Hm; nia|]. split; [lia|].
  replace (d - 53 + 52) with (d - 1) by lia.
  rewrite Hm. rewrite <- Hpow. ring.
Qed.

Lemma lit_1e18_finite : lit_1e18 = S754_finite false 7812500000000000 7.
Proof. reflexivity. Qed.

(** The location computed from the remainder of a division brackets the
    quotient. *)
Lemma new_location_bracket q r my :
  0 < my -> 0 <= r < my -> 0 < q ->
  bracket (shr_record_of_loc q (new_location_even my r)) (my * q + r) my.
Proof.
  intros Hmy Hr Hq. unfold new_location_even.
  destruct (Z.eqb_spec r 0) as [->|Hr0].
  - unfold bracket. cbn. lia.
  - destruct (Z.compare_spec (2 * r) my) as [H|H|H]; unfold bracket; cbn; lia.
Qed.

(** The division of a normal double by [1e18]. *)
Lemma div_1e18_correct mx ex :
  2 ^ 52 <= Zpos mx < 2 ^ 53 -> -1014 <= ex <= 971 ->
  exists m3 u,
    number_div (S754_finite false mx ex) lit_1e18 = S754_finite false m3 (ex - 60 + u)
    /\ 0 <= u <= 2
    /\ 2 ^ 52 <= Zpos m3 < 2 ^ 53
    /\ Z.abs (2 * (Zpos m3 * 2 ^ u * 7812500000000000) - 2 * (Zpos mx * 2 ^ 53))
       <= 2 ^ u * 7812500000000000.
Proof.
  intros Hmx Hex.
  assert (Hdx : Zpos (digits2_pos mx) = 53).
  { apply digits2_pos_unique. exact Hmx. }
  rewrite lit_1e18_finite. unfold number_div, SFdiv, SFdiv_core_binary.
  cbn [Zdigits2]. rewrite Hdx.
  change (Z.pos (digits2_pos 7812500000000000)) with 53.
  rewrite fexp_eq.
  replace (Z.min (Z.max (53 + ex - (53 + 7) - 53) (-1074)) (ex - 7))
    with (ex - 60) by lia.
  replace (ex - 7 - (ex - 60)) with 53 by lia.
  cbv iota beta.
  rewrite Z.shiftl_mul_pow2 by lia.
  set (my := 7812500000000000) in *.
  set (m' := Zpos mx * 2 ^ 53).
  pose proof (Z_div_mod m' my ltac:(reflexivity)) as Hdiv.
  destruct (Z.div_eucl m' my) as [q r]. destruct Hdiv as [Hq Hr].
  change (2 ^ 52) with 4503599627370496 in *.
  change (2 ^ 53) with 9007199254740992 in *.
  assert (Hqlo : 4503599627370496 <= q) by (subst m' my; nia).
  assert (Hqhi : q < 18014398509481984) by (subst m' my; nia).
  destruct q as [|qq|qq]; try lia.
  assert (Hdq : 53 <= Zpos (digits2_pos qq) <= 54).
  { pose proof (digits2_pos_lower qq) as Hl. pose proof (digits2_pos_upper qq) as Hu.
    set (dq := Zpos (digits2_pos qq)) in *. split.
    - destruct (Z_le_gt_dec 53 dq); [assumption|].
      assert (2 ^ dq <= 2 ^ 52) by (apply Z.pow_le_mono_r; lia).
      change (2 ^ 52) with 4503599627370496 in *. lia.
    - destruct (Z_le_gt_dec dq 54); [assumption|].
      assert (2 ^ 54 <= 2 ^ (dq - 1)) by (apply Z.pow_le_mono_r; lia).
      change (2 ^ 54) with 18014398509481984 in *. lia. }
  assert (Hloc : new_location my r = new_location_even my r) by reflexivity.
  rewrite Hloc.
  assert (Hb : bracket (shr_record_of_loc (Zpos qq) (new_location_even my r)) m' my).
  { rewrite Hq. apply new_location_bracket; lia. }
  destruct (binary_round_aux_correct false qq (ex - 60) (new_location_even my r) m' my
              ltac:(reflexivity) ltac:(lia) ltac:(lia) Hb)
    as (m3 & e3 & He3 & Hm3 & E & Herr).
  exists m3, (e3 - (ex - 60)).
  replace (ex - 60 + (e3 - (ex - 60))) with e3 by lia.
  split.
  { cbn [xorb]. rewrite E. replace (e3 <=? 971) with true; [reflexivity|].
    symmetry. apply Z.leb_le. lia. }
  split; [lia|]. split; [exact Hm3|]. exact Herr.
Qed.

(** The product of two normal doubles. *)
Lemma mul_correct mx ex my ey :
  2 ^ 52 <= Zpos mx < 2 ^ 53 -> 2 ^ 52 <= Zpos my < 2 ^ 53 ->
  -1074 <= ex + ey <= 917 ->
  exists m2 t,
    number_mul (S754_finite false mx ex) (S754_finite false my ey)
    = S754_finite false m2 (ex + ey + t)
    /\ 52 <= t <= 54
    /\ 2 ^ 52 <= Zpos m2 < 2 ^ 53
    /\ Z.abs (2 * (Zpos m2 * 2 ^ t) - 2 * (Zpos mx * Zpos my)) <= 2 ^ t.
Proof.
  intros Hmx Hmy He.
  unfold number_mul, SFmul. cbn [xorb].
  change (2 ^ 52) with 4503599627370496 in *.
  change (2 ^ 53) with 9007199254740992 in *.
  assert (Hq : 2 ^ 104 <= Zpos (mx * my) < 2 ^ 106).
  { rewrite Pos2Z.inj_mul.
    change (2 ^ 104) with (4503599627370496 * 4503599627370496).
    change (2 ^ 106) with (9007199254740992 * 9007199254740992). nia. }
  assert (Hdq : 105 <= Zpos (digits2_pos (mx * my)) <= 106).
  { pose proof (digits2_pos_lower (mx * my)) as Hl.
    pose proof (digits2_pos_upper (mx * my)) as Hu.
    set (dq := Zpos (digits2_pos (mx * my))) in *. split.
    - destruct (Z_le_gt_dec 105 dq); [assumption|].
      assert (2 ^ dq <= 2 ^ 104) by (apply Z.pow_le_mono_r; lia). lia.
    - destruct (Z_le_gt_dec dq 106); [assumption|].
      assert (2 ^ 106 <= 2 ^ (dq - 1)) by (apply Z.pow_le_mono_r; lia). lia. }
  assert (Hb : bracket (shr_record_of_loc (Zpos (mx * my)) loc_Exact) (Zpos (mx * my)) 1)
    by (apply bracket_exact; reflexivity).
  destruct (binary_round_aux_correct false (mx * my) (ex + ey) loc_Exact
              (Zpos (mx * my)) 1 ltac:(lia) ltac:(lia) ltac:(lia) Hb)
    as (m3 & e3 & He3 & Hm3 & E & Herr).
  exists m3, (e3 - (ex + ey)).
  replace (ex + ey + (e3 - (ex + ey))) with e3 by lia.
  split.
  { rewrite E. replace (e3 <=? 971) with true; [reflexivity|].
    symmetry. apply Z.leb_le. lia. }
  split; [lia|]. split; [exact Hm3|].
  rewrite !Z.mul_1_r in Herr. rewrite Pos2Z.inj_mul in Herr. exact Herr.
Qed.

Lemma rel_scale c a b z : 0 <= z -> c * Z.abs a <= b -> c * Z.abs (a * z) <= b * z.
Proof.
  intros Hz H. rewrite Z.abs_mul, (Z.abs_eq z) by assumption.
  rewrite Z.mul_assoc. apply Z.mul_le_mono_nonneg_r; assumption.
Qed.

(** Three relative errors of 2^-52, 2^-51 and 2^-51 in a row stay below
    2^-49. *)
Lemma rel_chain T0 T1 T2 T3 :
  0 < T0 ->
  2 ^ 52 * Z.abs (T1 - T0) <= T0 ->
  2 ^ 51 * Z.abs (T2 - T1) <= T1 ->
  2 ^ 51 * Z.abs (T3 - T2) <= T2 ->
  2 ^ 49 * Z.abs (T3 - T0) <= T0.
Proof.
  change (2 ^ 52) with 4503599627370496.
  change (2 ^ 51) with 2251799813685248.
  change (2 ^ 49) with 562949953421312.
  lia.
Qed.

Lemma pow2_small u : 0 <= u <= 2 -> 1 <= 2 ^ u <= 4.
Proof.
  intros Hu. assert (H : u = 0 \/ u = 1 \/ u = 2) by lia.
  destruct H as [-> | [-> | ->]]; cbn; lia.
Qed.

End NumberFacts.

(** ** The challenge modal *)

Module ChallengeModalFacts.
Import ChallengeModal NumberFacts.

(** A table that evaluates to [true] holds at each of its entries. *)
Lemma forall_range_spec lo len f k :
  forall_range lo len f = true -> lo <= k < lo + len -> f k = true.
Proof.
  unfold forall_range. intros Hall Hk.
  rewrite forallb_forall in Hall. apply Hall.
  apply list_elem_of_In, elem_of_seqZ. exact Hk.
Qed.

(** [getRoundStatus] as a function of the integer state code. *)
Lemma getRoundStatus_cases s :
  getRoundStatus s =
  match s with
  | 0 => {| text := "Waiting for players"; color := "text-green-500" |}
  | 1 => {| text := "In progress"; color := "text-yellow-500" |}
  | 2 => {| text := "Ended"; color := "text-red-500" |}
  | _ => {| text := "Unknown"; color := "text-gray-500" |}
  end.
Proof.
  unfold getRoundStatus.
  destruct (strict_eq (Number s) lit_0) eqn:H0.
  { apply Number_is_zero in H0. subst s. reflexivity. }
  destruct (strict_eq (Number s) lit_1) eqn:H1.
  { apply Number_is_one in H1. subst s. reflexivity. }
  destruct (strict_eq (Number s) lit_2) eqn:H2.
  { apply Number_is_two in H2. subst s. reflexivity. }
  assert (s <> 0) by (intros E; apply Number_is_zero in E; congruence).
  assert (s <> 1) by (intros E; apply Number_is_one in E; congruence).
  assert (s <> 2) by (intros E; apply Number_is_two in E; congruence).
  destruct s as [|[p|p|]|p]; try reflexivity; try congruence.
  destruct p; try reflexivity; congruence.
Qed.

(** C8. For every integer state code [s], [getRoundStatus s] shows
    'Waiting for players' exactly when [s = 0], 'In progress' exactly when
    [s = 1], 'Ended' exactly when [s = 2], and 'Unknown' for every other
    value: each integer gets one of the four texts. *)
Theorem getRoundStatus_by_state_code (s : Z) :
  (text (getRoundStatus s) = "Waiting for players" <-> s = 0)
  /\ (text (getRoundStatus s) = "In progress" <-> s = 1)
  /\ (text (getRoundStatus s) = "Ended" <-> s = 2)
  /\ (text (getRoundStatus s) = "Unknown" <-> s <> 0 /\ s <> 1 /\ s <> 2).
Proof.
  rewrite getRoundStatus_cases.
  destruct s as [|[p|p|]|p]; cbn; try destruct p; cbn;
    repeat split; intros; try discriminate; try lia;
    try (exfalso; intuition congruence).
Qed.

(** C3. In the rendered modal of a loaded round the action button is the
    Join button; it is enabled only if the state of the round is 0 and the
    user is not a participant yet, and it is disabled whenever the state is
    not 0 or [isPlayer] holds.  A click on it reaches [joinRound] only in
    the first case. *)
Theorem join_only_waiting_round_non_player (p : Props) (r : RoundData) (v : View) :
  round p = Some r ->
  render p = Ok v ->
  exists b,
    action v = Some b
    /\ onClick b = handleJoin
    /\ (disabled b = false -> state r = Some 0 /\ isPlayer p = false)
    /\ (state r <> Some 0 \/ isPlayer p = true -> disabled b = true)
    /\ (forall id, join_action p = Some id ->
                   state r = Some 0 /\ isPlayer p = false).
Proof.
  intros Hr Hv.
  assert (Hen : forall b, render_action p = Some b -> disabled b = false ->
                          state r = Some 0 /\ isPlayer p = false).
  { intros b Hb Hd. unfold render_action in Hb. rewrite Hr in Hb.
    injection Hb as <-. cbn in Hd.
    apply orb_false_iff in Hd as [Hd Hs].
    apply orb_false_iff in Hd as [Hl Hp].
    apply negb_false_iff in Hs. unfold stateNumber in Hs.
    apply Number_is_zero in Hs.
    split; [|exact Hp].
    destruct (state r) as [s|] eqn:Hst.
    - cbn in Hs. congruence.
    - (* a missing state makes the card throw unless the round is loading *)
      exfalso. unfold render, render_card in Hv. rewrite Hr, Hst in Hv.
      unfold isLoading in Hl. apply orb_false_iff in Hl as [_ Hl].
      rewrite Hl in Hv. cbn in Hv. discriminate. }
  assert (Hact : action v = render_action p).
  { unfold render in Hv. destruct (render_card p); cbn in Hv; [|discriminate].
    injection Hv as <-. reflexivity. }
  assert (Hb : exists b, render_action p = Some b /\ onClick b = handleJoin).
  { unfold render_action. rewrite Hr. eexists. split; reflexivity. }
  destruct Hb as (b & Hb & Hclick).
  exists b. rewrite Hact.
  split; [exact Hb|]. split; [exact Hclick|]. split; [apply Hen, Hb|]. split.
  - intros Hbad. destruct (disabled b) eqn:Hd; [reflexivity|].
    destruct (Hen b Hb Hd) as [Hs Hp]. destruct Hbad; congruence.
  - intros id Hj. unfold join_action in Hj. rewrite Hv, Hact, Hb in Hj.
    unfold click in Hj. destruct (disabled b) eqn:Hd; [discriminate|].
    apply (Hen b Hb Hd).
Qed.

Lemma join_only_waiting_round_non_player_witness :
  join_action Sample.modal = Some 7
  /\ state Sample.open_round = Some 0
  /\ isPlayer Sample.modal = false.
Proof.
  destruct (join_only_waiting_round_non_player Sample.modal Sample.open_round
              {| card := Some {| wagerAmount := formatWagerAmount (10 ^ 17);
                                 participants := 1;
                                 payout := calculatePayout (10 ^ 17) None;
                                 status := getRoundStatus 0;
                                 joinedBadge := false |};
                 cancel := {| onClick := closeModal; disabled := false;
                              label := "Cancel" |};
                 action := render_action Sample.modal |}
              eq_refl eq_refl) as (b & _ & _ & _ & _ & Hj).
  split; [reflexivity|]. apply (Hj 7). reflexivity.
Defined.

(** *** Display values *)

Lemma lit_1e18_value :
  lit_1e18 = S754_finite false 7812500000000000 7
  /\ has_value lit_1e18 (10 ^ 18) 1 = true.
Proof. split; reflexivity. Qed.

Lemma format_exact_table_checked :
  forall_range 0 2362 (fun n => forall_range 0 19 (format_exact_at n)) = true.
Proof. vm_compute. reflexivity. Qed.

Lemma payout_exact_table_checked :
  forall_range 1 2361 payout_exact_row = true.
Proof. vm_compute. reflexivity. Qed.

(** *** Accuracy of the display values *)

(** [formatWagerAmount a] against [a / 10^18]: the conversion and the
    division each round once. *)
Lemma formatWagerAmount_close a :
  0 <= a < 2 ^ 256 -> close_to (formatWagerAmount a) a (10 ^ 18) 50.
Proof.
  intros [Ha0 Ha]. destruct a as [|p|p]; [vm_compute; reflexivity| |lia].
  destruct (Number_correct p Ha) as (mx & ex & EN & Hmx & Hex & HerrN).
  destruct (div_1e18_correct mx ex Hmx ltac:(lia)) as (m3 & u & ED & Hu & Hm3 & HerrD).
  unfold formatWagerAmount. rewrite EN, ED. unfold close_to.
  split; [lia|].
  set (c := 2 ^ (ex + 52)) in *.
  assert (Hc : 0 < c) by (apply Z.pow_pos_nonneg; lia).
  assert (E1 : 2 ^ (ex - 60 + u + 1074) = 2 ^ u * c * 2 ^ 962).
  { unfold c. rewrite <- !Z.pow_add_r by lia. f_equal. lia. }
  assert (E2 : 2 ^ 1074 = 2 ^ 112 * 2 ^ 962) by reflexivity.
  rewrite E1, E2.
  set (my := 7812500000000000) in *.
  assert (E3 : 10 ^ 18 = my * 2 ^ 7) by reflexivity.
  rewrite E3.
  set (Aerr := Zpos m3 * 2 ^ u * my - Zpos mx * 2 ^ 53) in *.
  set (Xerr := Zpos mx * c - Zpos p * 2 ^ 52) in *.
  replace (Z.pos m3 * (2 ^ u * c * 2 ^ 962) * (my * 2 ^ 7) - Z.pos p * (2 ^ 112 * 2 ^ 962))
    with ((Aerr * c * 2 ^ 7 + Xerr * 2 ^ 60) * 2 ^ 962)
    by (unfold Aerr, Xerr; change (2 ^ 112) with (2 ^ 52 * 2 ^ 60);
        change (2 ^ 60) with (2 ^ 53 * 2 ^ 7); ring).
  assert (H962 : 0 < 2 ^ 962) by (apply Z.pow_pos_nonneg; lia).
  rewrite Z.abs_mul, (Z.abs_eq (2 ^ 962)) by lia.
  rewrite !Z.mul_assoc.
  apply Z.mul_le_mono_nonneg_r; [lia|].
  assert (Hu4 : 1 <= 2 ^ u <= 4).
  { assert (Hu3 : u = 0 \/ u = 1 \/ u = 2) by lia.
    destruct Hu3 as [-> | [-> | ->]]; cbn; lia. }
  replace (2 * (Z.pos m3 * 2 ^ u * my) - 2 * (Z.pos mx * 2 ^ 53)) with (2 * Aerr) in HerrD
    by (unfold Aerr; ring).
  replace (2 * (Z.pos mx * c) - 2 * (Z.pos p * 2 ^ 52)) with (2 * Xerr) in HerrN
    by (unfold Xerr; ring).
  assert (HA : - (2 * my) <= Aerr <= 2 * my).
  { assert (2 ^ u * my <= 4 * my) by (unfold my; lia). lia. }
  assert (HAc : - (2 * my * c) <= Aerr * c <= 2 * my * c) by nia.
  assert (HX : - c <= 2 * Xerr <= c) by lia.
  assert (Hp : (2 ^ 53 - 1) * c <= Zpos p * 2 ^ 53).
  { change (2 ^ 52) with 4503599627370496 in *.
    change (2 ^ 53) with 9007199254740992 in *.
    assert (4503599627370496 * c <= Zpos mx * c)
      by (apply Z.mul_le_mono_nonneg_r; lia).
    unfold Xerr in HX. lia. }
  change (2 ^ 53) with 9007199254740992 in Hp.
  change (2 ^ 50) with 1125899906842624.
  change (2 ^ 112) with 5192296858534827628530496329220096.
  change (2 ^ 60) with 1152921504606846976.
  change (2 ^ 7) with 128.
  unfold my in HAc.
  lia.
Qed.

(** [calculatePayout w k] against [w * k / 10^18]: the conversion of [w],
    the product and the division each round once. *)
Lemma calculatePayout_close w k :
  0 < w < 2 ^ 256 -> 0 < k < 2 ^ 53 ->
  close_to (calculatePayout w (Some (Number k))) (w * k) (10 ^ 18) 49.
Proof.
  intros [Hw0 Hw] Hk. destruct w as [|p|p]; try lia.
  destruct (Number_correct p Hw) as (mx & ex & EN & Hmx & Hex & HerrN).
  destruct (Number_small k Hk) as (mk & ek & EK & Hmk & Hek & Hkv).
  destruct (mul_correct mx ex mk ek Hmx Hmk ltac:(lia))
    as (m2 & t & EM & Ht & Hm2 & HerrM).
  destruct (div_1e18_correct m2 (ex + ek + t) Hm2 ltac:(lia))
    as (m3 & u & ED & Hu & Hm3 & HerrD).
  unfold calculatePayout.
  change (default lit_6 (Some (Number k))) with (Number k).
  rewrite EN, EK, EM, ED. unfold close_to.
  split; [lia|].
  set (cx := 2 ^ (ex + 52)) in *. set (ck := 2 ^ (ek + 52)) in *.
  set (pt := 2 ^ (t - 52)). set (pu := 2 ^ u) in *.
  set (my := 7812500000000000) in *.
  assert (Hcx : 0 < cx) by (apply Z.pow_pos_nonneg; lia).
  assert (Hck : 0 < ck) by (apply Z.pow_pos_nonneg; lia).
  assert (Hpt : 1 <= pt <= 4) by (apply pow2_small; lia).
  assert (Hpu : 1 <= pu <= 4) by (apply pow2_small; lia).
  assert (Et : 2 ^ t = 2 ^ 52 * pt).
  { unfold pt. rewrite <- Z.pow_add_r by lia. f_equal. lia. }
  assert (E1 : 2 ^ (ex + ek + t - 60 + u + 1074) = cx * ck * pt * pu * 2 ^ 962).
  { unfold cx, ck, pt, pu. rewrite <- !Z.pow_add_r by lia. f_equal. lia. }
  rewrite E1. rewrite Et in HerrM.
  change (2 ^ 1074) with (2 ^ 105 * (2 ^ 7 * 2 ^ 962)).
  change (10 ^ 18) with (my * 2 ^ 7).
  pose (G := cx * ck).
  assert (HG : 0 < G) by (apply Z.mul_pos_pos; assumption).
  pose (T0 := Zpos p * k * 2 ^ 105).
  pose (T1 := 2 * (Zpos mx * Zpos mk) * G).
  pose (T2 := Zpos m2 * 2 ^ 53 * pt * G).
  pose (T3 := Zpos m3 * pu * my * pt * G).
  replace (Z.pos m3 * (cx * ck * pt * pu * 2 ^ 962) * (my * 2 ^ 7)
           - Z.pos p * k * (2 ^ 105 * (2 ^ 7 * 2 ^ 962)))
    with ((T3 - T0) * (2 ^ 7 * 2 ^ 962)) by (unfold T3, T0, G; ring).
  replace (Z.pos p * k * (2 ^ 105 * (2 ^ 7 * 2 ^ 962))) with (T0 * (2 ^ 7 * 2 ^ 962))
    by (unfold T0; ring).
  assert (HS : 0 <= 2 ^ 7 * 2 ^ 962) by (apply Z.lt_le_incl; reflexivity).
  apply rel_scale; [exact HS|].
  change (2 ^ 52) with 4503599627370496 in *.
  change (2 ^ 53) with 9007199254740992 in *.
  assert (HT0 : 0 < T0) by (unfold T0; repeat apply Z.mul_pos_pos; lia).
  set (A1 := Zpos mx * cx - Zpos p * 4503599627370496).
  set (A2 := Zpos m2 * (4503599627370496 * pt) - Zpos mx * Zpos mk).
  set (A3 := Zpos m3 * pu * my - Zpos m2 * 9007199254740992).
  replace (2 * (Z.pos mx * cx) - 2 * (Z.pos p * 4503599627370496)) with (2 * A1) in HerrN
    by (unfold A1; ring).
  replace (2 * (Z.pos m2 * (4503599627370496 * pt)) - 2 * (Z.pos mx * Z.pos mk))
    with (2 * A2) in HerrM by (unfold A2; ring).
  replace (2 * (Z.pos m3 * pu * my) - 2 * (Z.pos m2 * 9007199254740992))
    with (2 * A3) in HerrD by (unfold A3; ring).
  assert (Hmxcx : 4503599627370496 * cx <= Zpos mx * cx)
    by (apply Z.mul_le_mono_nonneg_r; lia).
  assert (HA1 : Z.abs A1 <= Zpos p) by (unfold A1 in *; lia).
  apply rel_chain with (T1 := T1) (T2 := T2); [exact HT0| | |].
  - replace (T1 - T0) with (A1 * (k * 9007199254740992)).
    2:{ unfold T1, T0, A1, G.
        replace (2 * (Z.pos mx * Z.pos mk) * (cx * ck))
          with (2 * (Z.pos mx * cx) * (Z.pos mk * ck)) by ring.
        rewrite Hkv. change (2 ^ 105) with (4503599627370496 * 9007199254740992).
        ring. }
    replace T0 with (Zpos p * 4503599627370496 * (k * 9007199254740992)).
    2:{ unfold T0. change (2 ^ 105) with (4503599627370496 * 9007199254740992). ring. }
    apply rel_scale; [lia|]. change (2 ^ 52) with 4503599627370496. lia.
  - replace (T2 - T1) with (2 * A2 * G).
    2:{ unfold T2, T1, A2. ring. }
    unfold T1. apply rel_scale; [lia|].
    assert (4503599627370496 * 4503599627370496 <= Zpos mx * Zpos mk)
      by (apply Z.mul_le_mono_nonneg; lia).
    change (2 ^ 51) with 2251799813685248. lia.
  - replace (T3 - T2) with (A3 * (pt * G)).
    2:{ unfold T3, T2, A3. ring. }
    replace T2 with (Zpos m2 * 9007199254740992 * (pt * G)) by (unfold T2; ring).
    apply rel_scale; [apply Z.mul_nonneg_nonneg; lia|].
    change (2 ^ 51) with 2251799813685248. unfold my in *. lia.
Qed.

(** [k * formatWagerAmount w] against [w * k / 10^18]: the conversion,
    the division and the product each round once. *)
Lemma scaled_format_close w k :
  0 < w < 2 ^ 256 -> 0 < k < 2 ^ 53 ->
  close_to (number_mul (Number k) (formatWagerAmount w)) (w * k) (10 ^ 18) 49.
Proof.
  intros [Hw0 Hw] Hk. destruct w as [|p|p]; try lia.
  destruct (Number_correct p Hw) as (mx & ex & EN & Hmx & Hex & HerrN).
  destruct (Number_small k Hk) as (mk & ek & EK & Hmk & Hek & Hkv).
  destruct (div_1e18_correct mx ex Hmx ltac:(lia))
    as (m3 & u & ED & Hu & Hm3 & HerrD).
  destruct (mul_correct mk ek m3 (ex - 60 + u) Hmk Hm3 ltac:(lia))
    as (m4 & t & EM & Ht & Hm4 & HerrM).
  unfold formatWagerAmount. rewrite EN, EK, ED, EM. unfold close_to.
  split; [lia|].
  set (cx := 2 ^ (ex + 52)) in *. set (ck := 2 ^ (ek + 52)) in *.
  set (pt := 2 ^ (t - 52)). set (pu := 2 ^ u) in *.
  set (my := 7812500000000000) in *.
  assert (Hcx : 0 < cx) by (apply Z.pow_pos_nonneg; lia).
  assert (Hck : 0 < ck) by (apply Z.pow_pos_nonneg; lia).
  assert (Hpt : 1 <= pt <= 4) by (apply pow2_small; lia).
  assert (Hpu : 1 <= pu <= 4) by (apply pow2_small; lia).
  assert (Et : 2 ^ t = 2 ^ 52 * pt).
  { unfold pt. rewrite <- Z.pow_add_r by lia. f_equal. lia. }
  assert (E1 : 2 ^ (ek + (ex - 60 + u) + t + 1074) = cx * ck * pt * pu * 2 ^ 962).
  { unfold cx, ck, pt, pu. rewrite <- !Z.pow_add_r by lia. f_equal. lia. }
  rewrite E1. rewrite Et in HerrM.
  change (2 ^ 1074) with (2 ^ 105 * (2 ^ 7 * 2 ^ 962)).
  change (10 ^ 18) with (my * 2 ^ 7).
  pose (G := cx * ck).
  assert (HG : 0 < G) by (apply Z.mul_pos_pos; assumption).
  pose (V0 := Zpos p * k * 2 ^ 105).
  pose (V3 := Zpos m4 * pt * pu * my * G).
  replace (Z.pos m4 * (cx * ck * pt * pu * 2 ^ 962) * (my * 2 ^ 7)
           - Z.pos p * k * (2 ^ 105 * (2 ^ 7 * 2 ^ 962)))
    with ((V3 - V0) * (2 ^ 7 * 2 ^ 962)) by (unfold V3, V0, G; ring).
  replace (Z.pos p * k * (2 ^ 105 * (2 ^ 7 * 2 ^ 962))) with (V0 * (2 ^ 7 * 2 ^ 962))
    by (unfold V0; ring).
  assert (HS : 0 <= 2 ^ 7 * 2 ^ 962) by (apply Z.lt_le_incl; reflexivity).
  apply rel_scale; [exact HS|].
  change (2 ^ 52) with 4503599627370496 in *.
  change (2 ^ 53) with 9007199254740992 in *.
  (* the chain is followed at the scale 2^52 *)
  pose (U0 := V0 * 4503599627370496).
  pose (U1 := Zpos mk * (Zpos mx * 9007199254740992) * G).
  pose (U2 := Zpos mk * Zpos m3 * (pu * my) * G).
  pose (U3 := V3 * 4503599627370496).
  assert (HU0 : 0 < U0) by (unfold U0, V0; repeat apply Z.mul_pos_pos; lia).
  set (A1 := Zpos mx * cx - Zpos p * 4503599627370496).
  set (B2 := Zpos m3 * pu * my - Zpos mx * 9007199254740992).
  set (B3 := Zpos m4 * (4503599627370496 * pt) - Zpos mk * Zpos m3).
  replace (2 * (Z.pos mx * cx) - 2 * (Z.pos p * 4503599627370496)) with (2 * A1) in HerrN
    by (unfold A1; ring).
  replace (2 * (Z.pos m3 * pu * my) - 2 * (Z.pos mx * 9007199254740992))
    with (2 * B2) in HerrD by (unfold B2; ring).
  replace (2 * (Z.pos m4 * (4503599627370496 * pt)) - 2 * (Z.pos mk * Z.pos m3))
    with (2 * B3) in HerrM by (unfold B3; ring).
  assert (Hmxcx : 4503599627370496 * cx <= Zpos mx * cx)
    by (apply Z.mul_le_mono_nonneg_r; lia).
  assert (HA1 : Z.abs A1 <= Zpos p) by (unfold A1 in *; lia).
  assert (Hfinal : 2 ^ 49 * Z.abs (U3 - U0) <= U0).
  { apply rel_chain with (T1 := U1) (T2 := U2); [exact HU0| | |].
    - replace (U1 - U0) with (A1 * (k * 4503599627370496 * 9007199254740992)).
      2:{ unfold U1, U0, V0, A1, G.
          replace (Z.pos mk * (Z.pos mx * 9007199254740992) * (cx * ck))
            with ((Z.pos mx * cx) * 9007199254740992 * (Z.pos mk * ck)) by ring.
          rewrite Hkv. change (2 ^ 105) with (4503599627370496 * 9007199254740992).
          ring. }
      replace U0 with (Zpos p * 4503599627370496
                       * (k * 4503599627370496 * 9007199254740992)).
      2:{ unfold U0, V0. change (2 ^ 105) with (4503599627370496 * 9007199254740992).
          ring. }
      apply rel_scale; [lia|]. change (2 ^ 52) with 4503599627370496. lia.
    - replace (U2 - U1) with (B2 * (Zpos mk * G)).
      2:{ unfold U2, U1, B2. ring. }
      replace U1 with (Zpos mx * 9007199254740992 * (Zpos mk * G))
        by (unfold U1; ring).
      apply rel_scale; [apply Z.mul_nonneg_nonneg; lia|].
      change (2 ^ 51) with 2251799813685248. unfold my in *. lia.
    - replace (U3 - U2) with (B3 * (pu * my * G)).
      2:{ unfold U3, V3, U2, B3. ring. }
      replace U2 with (Zpos mk * Zpos m3 * (pu * my * G)) by (unfold U2; ring).
      apply rel_scale; [unfold my; repeat apply Z.mul_nonneg_nonneg; lia|].
      assert (4503599627370496 * 4503599627370496 <= Zpos mk * Zpos m3)
        by (apply Z.mul_le_mono_nonneg; lia).
      change (2 ^ 51) with 2251799813685248. lia. }
  unfold U3, U0 in Hfinal.
  replace (V3 * 4503599627370496 - V0 * 4503599627370496)
    with ((V3 - V0) * 4503599627370496) in Hfinal by ring.
  rewrite Z.abs_mul in Hfinal. change (Z.abs 4503599627370496) with 4503599627370496 in Hfinal.
  change (2 ^ 49) with 562949953421312 in *. lia.
Qed.

(** C7, amended.  [formatWagerAmount a] is the double [Number a / 1e18],
    where the literal is exactly 10^18.  For every amount below 2^256 it
    is the quotient [a / 10^18] up to a relative error of 2^-50 (zero for
    the amount 0): the conversion of [a] and the division each round once.
    On the amounts of [n / 2^j] tokens with [n <= 2361] and [j <= 18],
    where the amount and its quotient by 10^18 are both doubles, it is the
    quotient itself. *)
Theorem formatWagerAmount_divides_by_1e18 (a n j : Z) :
  0 <= a < 2 ^ 256 ->
  0 <= n <= 2361 -> 0 <= j <= 18 ->
  has_value lit_1e18 (10 ^ 18) 1 = true
  /\ close_to (formatWagerAmount a) a (10 ^ 18) 50
  /\ has_value (formatWagerAmount (tokens n j)) (tokens n j) (10 ^ 18) = true.
Proof.
  intros Ha Hn Hj. split; [reflexivity|].
  split; [apply formatWagerAmount_close; exact Ha|].
  assert (Hn' : 0 <= n < 0 + 2362) by lia.
  assert (Hj' : 0 <= j < 0 + 19) by lia.
  pose proof (forall_range_spec _ _ _ n format_exact_table_checked Hn') as Hrow.
  cbv beta in Hrow.
  pose proof (forall_range_spec _ _ _ j Hrow Hj') as Hcell.
  unfold format_exact_at in Hcell. exact Hcell.
Qed.

Lemma formatWagerAmount_divides_by_1e18_witness :
  close_to (formatWagerAmount 123456789012345678901) 123456789012345678901
    (10 ^ 18) 50
  /\ has_value (formatWagerAmount (5 * 10 ^ 17)) (5 * 10 ^ 17) (10 ^ 18) = true
  /\ formatWagerAmount (5 * 10 ^ 17) = S754_finite false 4503599627370496 (-53).
Proof.
  assert (Ha : 0 <= 123456789012345678901 < 2 ^ 256) by (split; [discriminate|reflexivity]).
  assert (Hn : 0 <= 1 <= 2361) by lia.
  assert (Hj : 0 <= 1 <= 18) by lia.
  destruct (formatWagerAmount_divides_by_1e18 123456789012345678901 1 1 Ha Hn Hj)
    as (_ & Hclose & Hval).
  split; [exact Hclose|]. split; [exact Hval|]. vm_compute. reflexivity.
Defined.

(** No power of two is a multiple of five. *)
Lemma five_divides_no_power_of_two (k : Z) : 0 <= k -> forall q, 2 ^ k <> 5 * q.
Proof.
  intros Hk. pattern k. apply natlike_ind; [| |exact Hk].
  - intros q. change (2 ^ 0) with 1. lia.
  - intros n Hn IH q. rewrite Z.pow_succ_r by exact Hn. intros H.
    apply (IH (3 * q - 2 ^ n)). lia.
Qed.

(** A tenth is not a double: no double has the value 10^17 / 10^18. *)
Lemma no_double_is_a_tenth (x : spec_float) :
  has_value x (10 ^ 17) (10 ^ 18) = false.
Proof.
  destruct x as [s| | |s m e]; try reflexivity.
  unfold has_value.
  set (v := if s then Z.neg m else Z.pos m).
  change (10 ^ 18) with 1000000000000000000.
  change (10 ^ 17) with 100000000000000000.
  destruct (0 <=? e) eqn:He.
  - apply Z.eqb_neq. intros H.
    assert (Hv : v * 2 ^ e * 10 = 1) by lia. lia.
  - apply Z.eqb_neq. intros H. apply Z.leb_gt in He.
    apply (five_divides_no_power_of_two (- e) ltac:(lia) (2 * v)). lia.
Qed.

(** C7, as stated, fails: for the amount 10^17 the quotient is a tenth,
    which is no double, and [formatWagerAmount] returns the double next to
    it, 7205759403792794 / 2^56; for the amount 1 the result is not
    1 / 10^18 either. *)
Lemma formatWagerAmount_is_not_the_quotient :
  formatWagerAmount (10 ^ 17) = S754_finite false 7205759403792794 (-56)
  /\ has_value (formatWagerAmount (10 ^ 17)) (10 ^ 17) (10 ^ 18) = false
  /\ (forall x, has_value x (10 ^ 17) (10 ^ 18) = false)
  /\ has_value (formatWagerAmount 1) 1 (10 ^ 18) = false.
Proof.
  split; [vm_compute; reflexivity|]. split; [vm_compute; reflexivity|].
  split; [exact no_double_is_a_tenth|]. vm_compute. reflexivity.
Qed.

(** C6, amended. [calculatePayout w n] is the double
    [(Number w * n) / 1e18]: the product is taken first and then divided
    by 10^18, and a call without [n] uses 6.  For a wager below 2^256 and a
    whole number of players below 2^53, this double and
    [n * formatWagerAmount w] are both [n * w / 10^18] up to a relative
    error of 2^-49, so that they agree up to rounding.  For a wager of [k]
    whole tokens, [k >= 1], with [k * n <= 2361] every intermediate value is
    exact:
    the two are then equal, and equal to [k * n]. *)
Theorem calculatePayout_product_then_scale (w n : Z) (m : spec_float) :
  0 < w < 2 ^ 256 -> 0 < n < 2 ^ 53 ->
  calculatePayout w (Some m) = number_div (number_mul (Number w) m) lit_1e18
  /\ calculatePayout w None = calculatePayout w (Some (Number 6))
  /\ close_to (calculatePayout w (Some (Number n))) (w * n) (10 ^ 18) 49
  /\ close_to (number_mul (Number n) (formatWagerAmount w)) (w * n) (10 ^ 18) 49
  /\ (forall k, 0 < k -> k * n <= 2361 ->
        calculatePayout (k * 10 ^ 18) (Some (Number n))
        = number_mul (Number n) (formatWagerAmount (k * 10 ^ 18))
        /\ has_value (calculatePayout (k * 10 ^ 18) (Some (Number n))) (k * n) 1
           = true).
Proof.
  intros Hw Hn. split; [reflexivity|]. split; [reflexivity|].
  split; [apply calculatePayout_close; assumption|].
  split; [apply scaled_format_close; assumption|].
  intros k Hk Hkn.
  assert (Hk' : 1 <= k < 1 + 2361) by nia.
  assert (Hn' : 0 <= n < 0 + (2361 / k + 1)).
  { assert (n <= 2361 / k) by (apply Z.div_le_lower_bound; lia). lia. }
  pose proof (forall_range_spec _ _ _ k payout_exact_table_checked Hk') as Hrow.
  unfold payout_exact_row in Hrow.
  pose proof (forall_range_spec _ _ _ n Hrow Hn') as Htab.
  unfold payout_exact_at in Htab.
  apply andb_true_iff in Htab as [Heq Hval].
  apply bool_decide_eq_true in Heq. split; [exact Heq|exact Hval].
Qed.

Lemma calculatePayout_product_then_scale_witness :
  close_to (calculatePayout (10 ^ 17) (Some (Number 6))) (10 ^ 17 * 6) (10 ^ 18) 49
  /\ close_to (number_mul (Number 6) (formatWagerAmount (10 ^ 17)))
       (10 ^ 17 * 6) (10 ^ 18) 49
  /\ calculatePayout (2 * 10 ^ 18) (Some (Number 6))
     = number_mul (Number 6) (formatWagerAmount (2 * 10 ^ 18))
  /\ has_value (calculatePayout (2 * 10 ^ 18) (Some (Number 6))) 12 1 = true.
Proof.
  assert (Hw : 0 < 10 ^ 17 < 2 ^ 256) by (split; reflexivity).
  assert (Hn : 0 < 6 < 2 ^ 53) by (split; reflexivity).
  destruct (calculatePayout_product_then_scale (10 ^ 17) 6 lit_6 Hw Hn)
    as (_ & _ & Hp & Hf & Hex).
  split; [exact Hp|]. split; [exact Hf|].
  apply (Hex 2); lia.
Defined.

(** C6, as stated, fails in the last bit: for a wager of 0.1 token and
    six players the payout is the double 0.6, while six times
    [formatWagerAmount] is 6 * 0.1 = 0.6000000000000001. *)
Lemma calculatePayout_differs_from_scaled_format :
  calculatePayout (10 ^ 17) None = S754_finite false 5404319552844595 (-53)
  /\ number_mul (Number 6) (formatWagerAmount (10 ^ 17))
     = S754_finite false 5404319552844596 (-53)
  /\ calculatePayout (10 ^ 17) None
     <> number_mul (Number 6) (formatWagerAmount (10 ^ 17)).
Proof.
  split; [reflexivity|]. split; [reflexivity|]. vm_compute. discriminate.
Qed.

End ChallengeModalFacts.

(** * Further properties of the system calls *)

Section SystemCallsMore.
Context `{env : Env} {S : Type} `{laws : DojoStoreLaws S}.

(** X1. Without a connected account each of the three operations throws
    'Account not available' at once: nothing is sent to the client,
    nothing is logged, and the store is not touched. *)
Theorem operations_need_an_account (w : World S) :
  account = None ->
  generateEntityId = Err AccountNotAvailable
  /\ (forall genre tx n1 n2,
        outcome (createRound genre tx n1 n2) w = Err AccountNotAvailable
        /\ emitted (createRound genre tx n1 n2) w = []
        /\ final_store (createRound genre tx n1 n2) w = store w)
  /\ (forall roundId tx,
        outcome (joinRound roundId tx) w = Err AccountNotAvailable
        /\ emitted (joinRound roundId tx) w = []
        /\ final_store (joinRound roundId tx) w = store w)
  /\ (forall roundId tx now,
        outcome (startRound roundId tx now) w = Err AccountNotAvailable
        /\ emitted (startRound roundId tx now) w = []
        /\ final_store (startRound roundId tx now) w = store w).
Proof.
  intros Hacc.
  unfold generateEntityId, outcome, emitted, final_store,
    createRound, joinRound, startRound.
  rewrite Hacc. cbn. rewrite drop_all. repeat split.
Qed.


(** X3. Past the account guard, [createRound] returns a round id exactly
    when the remote [createRound] call resolves, the round-id fetch
    resolves and the fetched value converts to an integer; the id it
    returns is that integer.  In every other case it throws. *)
Theorem createRound_succeeds_iff
    (acc : Account) genre tx n1 n2 (w : World S) (r : Z) :
  account = Some acc ->
  outcome (createRound genre tx n1 n2) w = Ok r
  <-> exists txResult res,
        actions_createRound client acc genre = Ok txResult
        /\ actions_getRoundId client = Ok res
        /\ extractRoundId res = Ok r.
Proof.
  intros Hacc. unfold outcome. rewrite (createRound_run acc Hacc); cbn.
  destruct (actions_createRound client acc genre) as [txr|e]; cbn;
    [destruct (actions_getRoundId client) as [res|e]; cbn;
     [destruct (extractRoundId res) as [r'|e] eqn:Hr; cbn|]|].
  - split.
    + intros [= ->]. eauto.
    + intros (txr' & res' & _ & [= <-] & Hr'). congruence.
  - split; [discriminate|]. intros (txr' & res' & _ & [= <-] & Hr'). congruence.
  - split; [discriminate|]. intros (txr' & res' & _ & Hg & _). discriminate.
  - split; [discriminate|]. intros (txr' & res' & Hc & _). discriminate.
Qed.

(** X5. When an operation succeeds its optimistic update stays: the
    entities of the store are the result of the updater on the entities
    the operation found. *)
Theorem success_keeps_the_update
    (acc : Account) (tx : TxId) (w : World S) :
  account = Some acc ->
  (forall genre n1 n2 r,
     outcome (createRound genre tx n1 n2) w = Ok r ->
     entities (final_store (createRound genre tx n1 n2) w)
     = createRound_update acc genre r n1 n2 (entities (store w)))
  /\ (forall roundId k,
     BigInt (address acc) = Ok k ->
     outcome (joinRound roundId tx) w = Ok tt ->
     entities (final_store (joinRound roundId tx) w)
     = joinRound_update acc roundId (getEntityIdFromKeys [k]) (entities (store w)))
  /\ (forall roundId now,
     outcome (startRound roundId tx now) w = Ok tt ->
     entities (final_store (startRound roundId tx now) w)
     = startRound_update roundId now (entities (store w))).
Proof.
  intros Hacc. split; [|split].
  - intros genre n1 n2 r. unfold outcome, final_store.
    rewrite (createRound_run acc Hacc); cbn.
    destruct (actions_createRound client acc genre) as [txr|e]; cbn;
      [destruct (actions_getRoundId client) as [res|e]; cbn;
       [destruct (extractRoundId res) as [r'|e]; cbn|]|];
      intros Hok; try discriminate.
    injection Hok as ->. rewrite entities_confirm, entities_apply. reflexivity.
  - intros roundId k Hk. unfold outcome, final_store.
    rewrite (joinRound_run acc Hacc _ _ k _ Hk); cbn.
    destruct (actions_joinRound client acc roundId) as [u|e]; cbn;
      intros Hok; try discriminate.
    rewrite entities_confirm, entities_apply. reflexivity.
  - intros roundId now. unfold outcome, final_store.
    rewrite (startRound_run acc Hacc); cbn.
    destruct (actions_startRound client acc roundId) as [u|e]; cbn;
      intros Hok; try discriminate.
    rewrite entities_confirm, entities_apply. reflexivity.
Qed.

Lemma marker_cleared_again (P : gset TxId) tx : P ∖ {[tx]} ∖ {[tx]} = P ∖ {[tx]}.
Proof.
  apply set_eq. intros x. rewrite !elem_of_difference, !elem_of_singleton. tauto.
Qed.

Lemma marker_set_and_cleared (P : gset TxId) tx : ({[tx]} ∪ P) ∖ {[tx]} = P ∖ {[tx]}.
Proof.
  apply set_eq. intros x.
  rewrite !elem_of_difference, elem_of_union, !elem_of_singleton. tauto.
Qed.

(** X6. Whatever the remote client answers, an operation leaves the
    pending markers of the other transactions as they were and none for
    its own transaction id. *)
Theorem pending_markers_of_others_kept
    (acc : Account) (tx : TxId) (w : World S) :
  account = Some acc ->
  (forall genre n1 n2,
     pendingTransactions (final_store (createRound genre tx n1 n2) w)
     = pendingTransactions (store w) ∖ {[tx]})
  /\ (forall roundId k,
     BigInt (address acc) = Ok k ->
     pendingTransactions (final_store (joinRound roundId tx) w)
     = pendingTransactions (store w) ∖ {[tx]})
  /\ (forall roundId now,
     pendingTransactions (final_store (startRound roundId tx now) w)
     = pendingTransactions (store w) ∖ {[tx]}).
Proof.
  intros Hacc. split; [|split].
  - intros genre n1 n2. unfold final_store.
    rewrite (createRound_run acc Hacc); cbn.
    destruct (actions_createRound client acc genre) as [txr|e]; cbn;
      [destruct (actions_getRoundId client) as [res|e]; cbn;
       [destruct (extractRoundId res) as [r'|e]; cbn|]|];
      rewrite pending_confirm, ?pending_revert, ?pending_apply,
        ?marker_cleared_again, ?marker_set_and_cleared; reflexivity.
  - intros roundId k Hk. unfold final_store.
    rewrite (joinRound_run acc Hacc _ _ k _ Hk); cbn.
    destruct (actions_joinRound client acc roundId) as [u|e]; cbn;
      rewrite pending_confirm, ?pending_revert, ?pending_apply,
        ?marker_cleared_again, ?marker_set_and_cleared; reflexivity.
  - intros roundId now. unfold final_store.
    rewrite (startRound_run acc Hacc); cbn.
    destruct (actions_startRound client acc roundId) as [u|e]; cbn;
      rewrite pending_confirm, ?pending_revert, ?pending_apply,
        ?marker_cleared_again, ?marker_set_and_cleared; reflexivity.
Qed.

End SystemCallsMore.

Lemma operations_need_an_account_witness :
  outcome (createRound (env := Sample.no_account_env) Sample.pop "tx-1" 100 101)
    Sample.w0 = Err AccountNotAvailable
  /\ emitted (joinRound (env := Sample.no_account_env) 7 "tx-2") Sample.w0 = []
  /\ final_store (startRound (env := Sample.no_account_env) 7 "tx-3" 100) Sample.w0
     = store Sample.w0.
Proof.
  destruct (operations_need_an_account (env := Sample.no_account_env)
              Sample.w0 eq_refl) as (_ & Hc & Hj & Hs).
  destruct (Hc Sample.pop "tx-1" 100 101) as (H1 & _).
  destruct (Hj 7 "tx-2") as (_ & H2 & _).
  destruct (Hs 7 "tx-3" 100) as (_ & _ & H3).
  split; [exact H1|]. split; [exact H2|exact H3].
Defined.


Lemma createRound_succeeds_iff_witness :
  outcome (createRound (env := Sample.resolving_env) Sample.pop "tx-1" 100 101)
    Sample.w0 = Ok 7.
Proof.
  apply (createRound_succeeds_iff (env := Sample.resolving_env)
           Sample.alice Sample.pop "tx-1" 100 101 Sample.w0 7 eq_refl).
  exists "0xfeed", ["0x7"]. repeat split; reflexivity.
Defined.

Lemma success_keeps_the_update_witness :
  entities (final_store (createRound (env := Sample.resolving_env)
                           Sample.pop "tx-1" 100 101) Sample.w0)
  = createRound_update (env := Sample.resolving_env) Sample.alice Sample.pop
      7 100 101 (entities (store Sample.w0))
  /\ entities (final_store (joinRound (env := Sample.resolving_env) 7 "tx-2")
                 Sample.w0)
     = joinRound_update Sample.alice 7 (Sample.keys_text [659918])
         (entities (store Sample.w0)).
Proof.
  destruct (success_keeps_the_update (env := Sample.resolving_env)
              Sample.alice "tx-1" Sample.w0 eq_refl) as (Hc & _).
  destruct (success_keeps_the_update (env := Sample.resolving_env)
              Sample.alice "tx-2" Sample.w0 eq_refl) as (_ & Hj & _).
  split.
  - exact (Hc Sample.pop 100 101 7 eq_refl).
  - exact (Hj 7 659918 eq_refl eq_refl).
Defined.

Lemma pending_markers_of_others_kept_witness :
  pendingTransactions (final_store (createRound (env := Sample.rejecting_env)
                                      Sample.pop "tx-1" 100 101) Sample.w0)
  = pendingTransactions (store Sample.w0) ∖ {["tx-1"]}
  /\ pendingTransactions (final_store (startRound (env := Sample.resolving_env)
                                         7 "tx-2" 100) Sample.w0)
     = pendingTransactions (store Sample.w0) ∖ {["tx-2"]}.
Proof.
  destruct (pending_markers_of_others_kept (env := Sample.rejecting_env)
              Sample.alice "tx-1" Sample.w0 eq_refl) as (Hc & _).
  destruct (pending_markers_of_others_kept (env := Sample.resolving_env)
              Sample.alice "tx-2" Sample.w0 eq_refl) as (_ & _ & Hs).
  split; [exact (Hc Sample.pop 100 101)|exact (Hs 7 100)].
Defined.

Section ApplyFirst.
Context `{env : Env} {S : Type} `{laws : DojoStoreLaws S}
  {U : Type} `{ulaws : AnyDraft.DojoStoreLaws U}.

(** X4. [joinRound] and [startRound] apply their optimistic update before
    they call the remote action.  When the update goes through, their
    outcome is the answer of that action: they return when it resolves and
    throw its rejection value when it rejects.  The updater of [joinRound]
    cannot throw; when the updater of [startRound] throws, [startRound]
    throws the same value and the remote action is not called.  The run of
    [startRound] is taken on drafts of any shape. *)
Theorem join_and_start_apply_first
    (acc : Account) (roundId : Z) (tx : TxId) (w : World S) (u : World U) :
  account = Some acc ->
  (forall k, BigInt (address acc) = Ok k ->
     outcome (joinRound roundId tx) w = actions_joinRound client acc roundId
     /\ exists rest,
          emitted (joinRound roundId tx) w
          = EApply tx :: EAction (AJoinRound acc roundId) :: rest)
  /\ (forall now,
     match AnyDraft.startRound_update roundId now (AnyDraft.entities (store u)) with
     | Ok _ =>
         outcome (AnyDraft.startRound roundId tx now) u
         = actions_startRound client acc roundId
         /\ exists rest,
              emitted (AnyDraft.startRound roundId tx now) u
              = EApply tx :: EAction (AStartRound acc roundId) :: rest
     | Err e =>
         outcome (AnyDraft.startRound roundId tx now) u = Err e
         /\ actions (emitted (AnyDraft.startRound roundId tx now) u) = []
     end).
Proof.
  intros Hacc. split.
  - intros k Hk. unfold outcome, emitted.
    rewrite (joinRound_run acc Hacc _ _ k _ Hk); cbn.
    destruct (actions_joinRound client acc roundId) as [[]|e]; cbn;
      rewrite drop_app_length; eauto.
  - intros now. unfold outcome, emitted.
    rewrite (startRound_any_run acc Hacc).
    destruct (AnyDraft.startRound_update roundId now (AnyDraft.entities (store u)))
      as [d|e] eqn:Hupd.
    + destruct (AnyDraft.any_apply_returns tx _ _ _ Hupd) as (s1 & -> & _).
      cbn. destruct (actions_startRound client acc roundId) as [[]|e]; cbn;
        rewrite drop_app_length; eauto.
    + rewrite (AnyDraft.any_apply_throws tx _ _ _ Hupd). cbn.
      rewrite drop_app_length. split; reflexivity.
Qed.

End ApplyFirst.

Lemma join_and_start_apply_first_witness :
  outcome (joinRound (env := Sample.resolving_env) 7 "tx-1") Sample.w0 = Ok tt
  /\ outcome (AnyDraft.startRound (env := Sample.rejecting_env) 8 "tx-2" 100)
       AnyDraft.w_sample = Err (Rejected "start")
  /\ outcome (AnyDraft.startRound (env := Sample.rejecting_env) 7 "tx-2" 100)
       AnyDraft.w_sample = Err (TypeError "Rounds.round.state").
Proof.
  destruct (join_and_start_apply_first (env := Sample.resolving_env)
              Sample.alice 7 "tx-1" Sample.w0 AnyDraft.w_sample eq_refl) as (Hj & _).
  destruct (join_and_start_apply_first (env := Sample.rejecting_env)
              Sample.alice 8 "tx-2" Sample.w0 AnyDraft.w_sample eq_refl) as (_ & Hs8).
  destruct (join_and_start_apply_first (env := Sample.rejecting_env)
              Sample.alice 7 "tx-2" Sample.w0 AnyDraft.w_sample eq_refl) as (_ & Hs7).
  destruct (Hj 659918 eq_refl) as (H1 & _).
  pose proof (Hs8 100) as H2. cbn in H2. destruct H2 as (H2 & _).
  pose proof (Hs7 100) as H3. cbn in H3. destruct H3 as (H3 & _).
  split; [exact H1|]. split; [exact H2|exact H3].
Defined.

(** ** The updaters, once more *)

Section UpdatersMore.
Context `{env : Env}.

Lemma insert_free_keeps (d : gmap EntityId Entity) j x k e :
  d !! j = None -> d !! k = Some e -> <[j:=x]> d !! k = Some e.
Proof.
  intros Hj Hk. rewrite lookup_insert_ne by congruence. exact Hk.
Qed.

(** X7. The updater of [createRound] only adds: an entity that is in the
    draft stays as it is, and the only ids that can be filled are the one
    of the round and the one of the event.  A free round id receives a
    [Rounds] entity in the waiting state, with the creator as its one
    player, no wager, and the genre and start time of the call. *)
Theorem createRound_update_only_adds
    (acc : Account) genre (r n1 n2 : Z) (d : gmap EntityId Entity) :
  let rid := getEntityIdFromKeys [r] in
  let eid := getEntityIdFromKeys [r; n2] in
  let d' := createRound_update acc genre r n1 n2 d in
  (forall k e, d !! k = Some e -> d' !! k = Some e)
  /\ (forall k, k <> rid -> k <> eid -> d' !! k = d !! k)
  /\ (d !! rid = None ->
      exists e,
        d' !! rid = Some e
        /\ entityId e = rid
        /\ entity_RoundPlayer e = None /\ entity_RoundCreated e = None
        /\ entity_Rounds e
           = Some {| round_id := r;
                     round := {| creator := address acc;
                                 genre := activeVariant genre;
                                 wager_amount := 0;
                                 start_time := n1;
                                 state := 0;
                                 end_time := 0;
                                 next_card_index := 0;
                                 players_count := 1;
                                 ready_players_count := 0 |} |}).
Proof.
  intros rid eid d'. subst d'. unfold createRound_update. fold rid eid.
  split; [|split].
  - intros k e Hk.
    destruct (d !! rid) as [e0|] eqn:Hr.
    + destruct (d !! eid) as [e1|] eqn:He; [exact Hk|].
      apply insert_free_keeps; assumption.
    + match goal with |- context [match ?m !! eid with _ => _ end] =>
        assert (Hk1 : m !! k = Some e) by (apply insert_free_keeps; assumption);
        destruct (m !! eid) as [e1|] eqn:He end.
      * exact Hk1.
      * apply insert_free_keeps; assumption.
  - intros k Hkr Hke.
    destruct (d !! rid) as [e0|] eqn:Hr.
    + destruct (d !! eid) as [e1|] eqn:He; [reflexivity|].
      apply lookup_insert_ne. congruence.
    + match goal with |- context [match ?m !! eid with _ => _ end] =>
        destruct (m !! eid) as [e1|] eqn:He end.
      * apply lookup_insert_ne. congruence.
      * rewrite !lookup_insert_ne by congruence. reflexivity.
  - intros Hfree. rewrite Hfree.
    match goal with |- context [match ?m !! eid with _ => _ end] =>
      destruct (m !! eid) as [e1|] eqn:He end.
    + rewrite lookup_insert_eq. eexists. split; [reflexivity|].
      cbn. rewrite string_or_empty. auto.
    + assert (Hne : eid <> rid).
      { intros Heq. rewrite Heq, lookup_insert_eq in He. discriminate. }
      rewrite lookup_insert_ne by exact Hne. rewrite lookup_insert_eq.
      eexists. split; [reflexivity|].
      cbn. rewrite string_or_empty. auto.
Qed.

(** X8. Running the updater of [createRound] again with the same round id
    and the same clock readings changes nothing more. *)
Theorem createRound_update_idempotent
    (acc : Account) genre (r n1 n2 : Z) (d : gmap EntityId Entity) :
  createRound_update acc genre r n1 n2 (createRound_update acc genre r n1 n2 d)
  = createRound_update acc genre r n1 n2 d.
Proof.
  set (rid := getEntityIdFromKeys [r]).
  set (eid := getEntityIdFromKeys [r; n2]).
  set (d1 := createRound_update acc genre r n1 n2 d).
  assert (Hr : is_Some (d1 !! rid)).
  { subst d1. unfold createRound_update. fold rid eid.
    destruct (d !! rid) as [e0|] eqn:Hr.
    - destruct (d !! eid) as [e1|] eqn:He; [rewrite Hr; eauto|].
      destruct (decide (eid = rid)) as [Heq|Hne]; [congruence|].
      rewrite lookup_insert_ne by exact Hne. rewrite Hr. eauto.
    - match goal with |- context [match ?m !! eid with _ => _ end] =>
        destruct (m !! eid) as [e1|] eqn:He end.
      + rewrite lookup_insert_eq. eauto.
      + destruct (decide (eid = rid)) as [Heq|Hne].
        * rewrite Heq, lookup_insert_eq in He. discriminate.
        * rewrite lookup_insert_ne by exact Hne. rewrite lookup_insert_eq. eauto. }
  assert (He : is_Some (d1 !! eid)).
  { subst d1. unfold createRound_update. fold rid eid.
    match goal with |- context [match ?m !! eid with _ => _ end] =>
      destruct (m !! eid) as [e1|] eqn:He end.
    - rewrite He. eauto.
    - rewrite lookup_insert_eq. eauto. }
  destruct Hr as [e0 Hr]. destruct He as [e1 He].
  unfold createRound_update at 1. fold rid eid. rewrite Hr, He. reflexivity.
Qed.

(** X9. The updater of [joinRound] writes under its entity id only, and
    only when that id is free: an entity already there is kept, every other
    entry is untouched, and a second run changes nothing more. *)
Theorem joinRound_update_only_adds
    (acc : Account) (roundId : Z) (id : EntityId) (d : gmap EntityId Entity) :
  let d' := joinRound_update acc roundId id d in
  (forall k e, d !! k = Some e -> d' !! k = Some e)
  /\ (forall k, k <> id -> d' !! k = d !! k)
  /\ is_Some (d' !! id)
  /\ (forall roundId', joinRound_update acc roundId' id d' = d').
Proof.
  intros d'. subst d'. unfold joinRound_update.
  destruct (d !! id) as [e0|] eqn:Hid.
  - split; [auto|]. split; [auto|]. split; [eauto|].
    intros roundId'. rewrite Hid. reflexivity.
  - split; [|split; [|split]].
    + intros k e Hk. rewrite lookup_insert_ne by congruence. exact Hk.
    + intros k Hk. apply lookup_insert_ne. congruence.
    + rewrite lookup_insert_eq. eauto.
    + intros roundId'. rewrite lookup_insert_eq. reflexivity.
Qed.

(** X10. The updater of [startRound] never adds or removes an entity, and
    of two runs for the same round the later one decides: the result is
    the one of the later run alone. *)
Theorem startRound_update_last_wins
    (roundId now1 now2 : Z) (d : gmap EntityId Entity) :
  dom (startRound_update roundId now1 d) = dom d
  /\ startRound_update roundId now2 (startRound_update roundId now1 d)
     = startRound_update roundId now2 d.
Proof.
  set (id := getEntityIdFromKeys [roundId]).
  unfold startRound_update. fold id.
  destruct (d !! id) as [e|] eqn:He; [|rewrite He; auto].
  destruct (models e) as [ms|] eqn:Hms; [|rewrite He, Hms; auto].
  destruct (lyricsflip ms) as [lf|] eqn:Hlf; [|rewrite He, Hms, Hlf; auto].
  destruct (Rounds lf) as [rm|] eqn:Hrm; [|rewrite He, Hms, Hlf, Hrm; auto].
  split.
  - rewrite dom_insert_L. apply elem_of_dom_2 in He.
    apply set_eq. intros x. rewrite elem_of_union, elem_of_singleton.
    split; [intros [->|Hx]; assumption|auto].
  - rewrite lookup_insert_eq. cbn. rewrite insert_insert_eq. reflexivity.
Qed.

End UpdatersMore.

Section Composition.
Context `{env : Env} {S : Type} `{laws : DojoStoreLaws S}.

(** X11. A round created and then started: when [createRound] succeeds
    with the id [r] on a store that has no entity for that round, and
    [startRound r] then succeeds, the store shows the round as started
    (state 1) at the time of the start, with the creator as its one
    player and the genre of the creation. *)
Theorem created_round_can_be_started
    (acc : Account) genre (tx1 tx2 : TxId) (n1 n2 now r : Z) (w : World S) :
  account = Some acc ->
  entities (store w) !! getEntityIdFromKeys [r] = None ->
  outcome (createRound genre tx1 n1 n2) w = Ok r ->
  let w1 := fst (createRound genre tx1 n1 n2 w) in
  outcome (startRound r tx2 now) w1 = Ok tt ->
  exists e,
    entities (final_store (startRound r tx2 now) w1) !! getEntityIdFromKeys [r]
    = Some e
    /\ entity_Rounds e
       = Some {| round_id := r;
                 round := {| creator := address acc;
                             genre := activeVariant genre;
                             wager_amount := 0;
                             start_time := now;
                             state := 1;
                             end_time := 0;
                             next_card_index := 0;
                             players_count := 1;
                             ready_players_count := 0 |} |}.
Proof.
  intros Hacc Hfree Hc w1 Hs. subst w1.
  revert Hs Hc. unfold outcome, final_store.
  rewrite (startRound_run acc Hacc); cbn.
  destruct (actions_startRound client acc r) as [u|e]; cbn; [|discriminate].
  intros _.
  rewrite (createRound_run acc Hacc); cbn.
  destruct (actions_createRound client acc genre) as [txr|e]; cbn;
    [destruct (actions_getRoundId client) as [res|e]; cbn;
     [destruct (extractRoundId res) as [r'|e]; cbn|]|];
    intros Hok; try discriminate.
  injection Hok as ->.
  rewrite !entities_confirm, !entities_apply, !entities_confirm, !entities_apply.
  set (d := entities (store w)) in *.
  set (rid := getEntityIdFromKeys [r]) in *.
  set (d1 := createRound_update acc genre r n1 n2 d).
  assert (Hd1 : exists e1,
             d1 !! rid = Some e1
             /\ models e1 = Some {| lyricsflip := Some {|
                  Rounds := Some {| round_id := r;
                     round := {| creator := address acc;
                                 genre := activeVariant genre;
                                 wager_amount := 0; start_time := n1; state := 0;
                                 end_time := 0; next_card_index := 0;
                                 players_count := 1;
                                 ready_players_count := 0 |} |};
                  RoundPlayer := None; RoundCreated := None |} |}).
  { subst d1. unfold createRound_update. fold rid. rewrite Hfree.
    match goal with |- context [match ?m !! ?k with _ => _ end] =>
      destruct (m !! k) as [e1|] eqn:He end.
    - rewrite lookup_insert_eq. eexists. split; [reflexivity|].
      cbn. rewrite string_or_empty. reflexivity.
    - match type of He with _ !! ?k = None => set (eid := k) in * end.
      assert (Hne : eid <> rid).
      { intros Heq. rewrite Heq, lookup_insert_eq in He. discriminate. }
      rewrite lookup_insert_ne by exact Hne. rewrite lookup_insert_eq.
      eexists. split; [reflexivity|].
      cbn. rewrite string_or_empty. reflexivity. }
  destruct Hd1 as (e1 & He1 & Hm1).
  rewrite (startRound_update_hit r now d1 e1 _ _ _ He1 Hm1 eq_refl eq_refl).
  fold rid. rewrite lookup_insert_eq.
  eexists. split; [reflexivity|]. reflexivity.
Qed.

End Composition.

Lemma created_round_can_be_started_witness :
  exists e,
    entities (final_store (startRound (env := Sample.resolving_env) 7 "tx-2" 200)
                (fst (createRound (env := Sample.resolving_env)
                        Sample.pop "tx-1" 100 101 Sample.w0)))
      !! Sample.keys_text [7] = Some e
    /\ entity_Rounds e
       = Some {| round_id := 7;
                 round := {| creator := "0xA11CE";
                             genre := "Pop";
                             wager_amount := 0;
                             start_time := 200;
                             state := 1;
                             end_time := 0;
                             next_card_index := 0;
                             players_count := 1;
                             ready_players_count := 0 |} |}.
Proof.
  exact (created_round_can_be_started (env := Sample.resolving_env)
           Sample.alice Sample.pop "tx-1" "tx-2" 100 101 200 7 Sample.w0
           eq_refl (lookup_empty _) eq_refl eq_refl).
Defined.

(** ** The extraction of the round id *)

Lemma trim_start_snoc c l :
  is_white_space c = false ->
  exists l', trim_start (l ++ [c])%list = (l' ++ [c])%list.
Proof.
  intros Hc. induction l as [|a l IH]; cbn.
  - rewrite Hc. exists []. reflexivity.
  - destruct (is_white_space a); [exact IH|].
    exists (a :: l). reflexivity.
Qed.

Lemma trim_keeps_head c l :
  is_white_space c = false -> exists l', trim (c :: l) = c :: l'.
Proof.
  intros Hc. unfold trim. cbn [trim_start]. rewrite Hc. cbn [rev].
  destruct (trim_start_snoc c (rev l) Hc) as (l' & ->).
  rewrite rev_app_distr. cbn. eauto.
Qed.

Lemma BigInt_leading_comma s : BigInt ("," ++ s) = Err (SyntaxError ("," ++ s)).
Proof.
  change ("," ++ s) with (String "," s).
  unfold BigInt, StringToBigInt.
  change (list_ascii_of_string (String "," s))
    with (","%char :: list_ascii_of_string s).
  destruct (trim_keeps_head "," (list_ascii_of_string s) eq_refl) as (l' & ->).
  reflexivity.
Qed.

(** X12. [createRound] reads the round id off the first element of the
    answer of [getRoundId] and ignores the others.  An empty answer, or an
    answer whose only element is the empty string, is read as the round id
    0, not as an error; an empty first element followed by others is a
    SyntaxError. *)
Theorem extractRoundId_reads_first_element :
  extractRoundId [] = Ok 0
  /\ extractRoundId [""] = Ok 0
  /\ (forall x rest, x <> "" -> extractRoundId (x :: rest) = BigInt x)
  /\ (forall y rest,
        extractRoundId ("" :: y :: rest)
        = Err (SyntaxError (array_toString ("" :: y :: rest)))).
Proof.
  split; [reflexivity|]. split; [reflexivity|]. split.
  - intros x rest Hx. unfold extractRoundId, string_or.
    destruct (decide (x = "")); [contradiction|reflexivity].
  - intros y rest. unfold extractRoundId, string_or.
    destruct (decide ("" = "")) as [_|Hne]; [|contradiction].
    change (array_toString ("" :: y :: rest))
      with ("," ++ array_toString (y :: rest)).
    apply BigInt_leading_comma.
Qed.

(** ** White space and decimal digits *)

Lemma trim_start_fixed l :
  (forall c, head l = Some c -> is_white_space c = false) -> trim_start l = l.
Proof.
  destruct l as [|c l]; [reflexivity|]. intros H. cbn.
  rewrite (H c eq_refl). reflexivity.
Qed.

Lemma trim_start_head l c :
  head (trim_start l) = Some c -> is_white_space c = false.
Proof.
  induction l as [|a l IH]; cbn; [discriminate|].
  destruct (is_white_space a) eqn:Ha; [exact IH|].
  cbn. intros [= <-]. exact Ha.
Qed.

Lemma trim_start_suffix l : exists pre, l = (pre ++ trim_start l)%list.
Proof.
  induction l as [|a l [pre IH]]; cbn.
  - exists []. reflexivity.
  - destruct (is_white_space a).
    + exists (a :: pre). cbn. f_equal. exact IH.
    + exists []. reflexivity.
Qed.

Lemma head_rev {A} (l : list A) : head (rev l) = last l.
Proof. rewrite rev_alt. apply head_reverse. Qed.

Lemma last_rev {A} (l : list A) : last (rev l) = head l.
Proof. rewrite rev_alt. apply last_reverse. Qed.

Lemma trim_fixed l :
  (forall c, head l = Some c -> is_white_space c = false) ->
  (forall c, last l = Some c -> is_white_space c = false) ->
  trim l = l.
Proof.
  intros Hh Hl. unfold trim. rewrite (trim_start_fixed l Hh).
  rewrite trim_start_fixed.
  - apply rev_involutive.
  - intros c. rewrite head_rev. apply Hl.
Qed.

Lemma trim_idempotent l : trim (trim l) = trim l.
Proof.
  apply trim_fixed; unfold trim; intros c.
  - rewrite head_rev.
    destruct (trim_start_suffix (rev (trim_start l))) as [pre Hpre].
    intros Hc.
    assert (Hlast : last (rev (trim_start l)) = Some c).
    { rewrite Hpre, last_app, Hc. reflexivity. }
    rewrite last_rev in Hlast. exact (trim_start_head _ _ Hlast).
  - rewrite last_rev. apply trim_start_head.
Qed.

(** [BigInt] drops the surrounding white space itself. *)
Lemma StringToBigInt_trim s :
  StringToBigInt (ChallengeModalHandlers.js_trim s) = StringToBigInt s.
Proof.
  unfold StringToBigInt, ChallengeModalHandlers.js_trim.
  rewrite list_ascii_of_string_of_list_ascii, trim_idempotent. reflexivity.
Qed.

Lemma digit_cases (d : N) :
  (d < 10)%N ->
  d = 0%N \/ d = 1%N \/ d = 2%N \/ d = 3%N \/ d = 4%N \/ d = 5%N
  \/ d = 6%N \/ d = 7%N \/ d = 8%N \/ d = 9%N.
Proof. lia. Qed.

Lemma digit_value_pretty (d : N) :
  (d < 10)%N -> digit_value 10 (pretty_N_char d) = Some (Z.of_N d).
Proof.
  intros Hd.
  destruct (digit_cases d Hd) as [->|[->|[->|[->|[->|[->|[->|[->|[->| ->]]]]]]]]];
    reflexivity.
Qed.

Lemma digit_not_white_space (d : N) :
  (d < 10)%N -> is_white_space (pretty_N_char d) = false.
Proof.
  intros Hd.
  destruct (digit_cases d Hd) as [->|[->|[->|[->|[->|[->|[->|[->|[->| ->]]]]]]]]];
    reflexivity.
Qed.

(** The characters [pretty_N_go] puts before its accumulator are decimal
    digits, and they read back as the number. *)
Lemma pretty_N_go_digits (x : N) (s : string) :
  Forall (fun c => exists d, (d < 10)%N /\ c = pretty_N_char d)
    (list_ascii_of_string s) ->
  Forall (fun c => exists d, (d < 10)%N /\ c = pretty_N_char d)
    (list_ascii_of_string (pretty_N_go x s)).
Proof.
  revert s. induction (N.lt_wf_0 x) as [x _ IH]. intros s Hs.
  destruct (N.eq_dec x 0%N) as [->|Hx].
  - rewrite pretty_N_go_0. exact Hs.
  - rewrite pretty_N_go_step by lia. apply IH.
    + apply N.div_lt; lia.
    + cbn. constructor; [|exact Hs].
      exists (x mod 10)%N. split; [apply N.mod_lt; lia|reflexivity].
Qed.

Lemma pretty_N_go_nonempty (x : N) (s : string) :
  s <> "" -> pretty_N_go x s <> "".
Proof.
  revert s. induction (N.lt_wf_0 x) as [x _ IH]. intros s Hs.
  destruct (N.eq_dec x 0%N) as [->|Hx].
  - rewrite pretty_N_go_0. exact Hs.
  - rewrite pretty_N_go_step by lia. apply IH; [apply N.div_lt; lia|discriminate].
Qed.

Lemma pretty_N_go_parse (x : N) (s : string) :
  parse_digits_from 10 0 (list_ascii_of_string (pretty_N_go x s))
  = parse_digits_from 10 (Z.of_N x) (list_ascii_of_string s).
Proof.
  revert s. induction (N.lt_wf_0 x) as [x _ IH]. intros s.
  destruct (N.eq_dec x 0%N) as [->|Hx].
  - rewrite pretty_N_go_0. reflexivity.
  - rewrite pretty_N_go_step by lia. rewrite IH by (apply N.div_lt; lia).
    cbn [list_ascii_of_string parse_digits_from].
    rewrite digit_value_pretty by (apply N.mod_lt; lia).
    f_equal. pose proof (N.div_mod x 10 ltac:(lia)) as Hdm.
    set (q := (x / 10)%N) in *. set (r := (x mod 10)%N) in *. lia.
Qed.

(** A non-empty string of decimal digits is read in radix 10. *)
Lemma StringToBigInt_digits (s : string) :
  s <> "" ->
  Forall (fun c => exists d, (d < 10)%N /\ c = pretty_N_char d)
    (list_ascii_of_string s) ->
  StringToBigInt s = parse_digits_from 10 0 (list_ascii_of_string s).
Proof.
  intros Hne Hall. unfold StringToBigInt.
  assert (Hws : Forall (fun c => is_white_space c = false) (list_ascii_of_string s)).
  { eapply Forall_impl; [exact Hall|]. cbv beta.
    intros c (d & Hd & ->). apply digit_not_white_space, Hd. }
  rewrite trim_fixed.
  - destruct s as [|c s]; [contradiction|].
    cbn [list_ascii_of_string] in *.
    apply Forall_cons_1 in Hall as [(d & Hd & ->) Hall].
    destruct (digit_cases d Hd) as [->|[->|[->|[->|[->|[->|[->|[->|[->| ->]]]]]]]]];
      try reflexivity.
    destruct s as [|c2 s]; [reflexivity|].
    cbn [list_ascii_of_string] in *.
    apply Forall_cons_1 in Hall as [(d2 & Hd2 & ->) Hall].
    destruct (digit_cases d2 Hd2)
      as [->|[->|[->|[->|[->|[->|[->|[->|[->| ->]]]]]]]]];
      reflexivity.
  - intros c Hc. apply head_Some_elem_of in Hc.
    rewrite Forall_forall in Hws. apply Hws. exact Hc.
  - intros c Hc. apply last_Some_elem_of in Hc.
    rewrite Forall_forall in Hws. apply Hws. exact Hc.
Qed.

Lemma StringToBigInt_pretty_pos (p : positive) :
  StringToBigInt (pretty_N_go (N.pos p) "") = Some (Z.pos p).
Proof.
  rewrite StringToBigInt_digits.
  - rewrite pretty_N_go_parse. reflexivity.
  - rewrite pretty_N_go_step by lia. apply pretty_N_go_nonempty. discriminate.
  - apply pretty_N_go_digits. constructor.
Qed.

Lemma StringToBigInt_pretty_neg (p : positive) :
  StringToBigInt ("-" +:+ pretty_N_go (N.pos p) "") = Some (Z.neg p).
Proof.
  unfold StringToBigInt.
  change (list_ascii_of_string ("-" +:+ pretty_N_go (N.pos p) ""))
    with ("-"%char :: list_ascii_of_string (pretty_N_go (N.pos p) "")).
  pose proof (pretty_N_go_digits (N.pos p) "" ltac:(constructor)) as Hall.
  assert (Hne : list_ascii_of_string (pretty_N_go (N.pos p) "") <> []).
  { intros E. apply (pretty_N_go_nonempty (N.pos p / 10)
                       (String (pretty_N_char (N.pos p mod 10)) "")).
    - discriminate.
    - rewrite <- pretty_N_go_step by lia.
      rewrite <- (string_of_list_ascii_of_string (pretty_N_go (N.pos p) "")), E.
      reflexivity. }
  pose proof (pretty_N_go_parse (N.pos p) "") as Hparse.
  destruct (list_ascii_of_string (pretty_N_go (N.pos p) "")) as [|c l] eqn:El;
    [contradiction|].
  rewrite trim_fixed.
  - unfold parse_digits. rewrite Hparse. reflexivity.
  - intros c' [= <-]. reflexivity.
  - intros c' Hc. rewrite last_cons_cons in Hc.
    assert (Hin : c' ∈ c :: l) by (apply last_Some_elem_of, Hc).
    rewrite Forall_forall in Hall. destruct (Hall c' Hin) as (d & Hd & ->).
    apply digit_not_white_space, Hd.
Qed.

Lemma BigInt_bigint_toString (x : Z) :
  BigInt (ChallengeModalHandlers.bigint_toString x) = Ok x.
Proof.
  unfold BigInt, ChallengeModalHandlers.bigint_toString.
  destruct x as [|p|p].
  - reflexivity.
  - change (pretty (Z.pos p)) with (pretty_N_go (N.pos p) "").
    rewrite StringToBigInt_pretty_pos. reflexivity.
  - change (pretty (Z.neg p)) with ("-" +:+ pretty_N_go (N.pos p) "").
    rewrite StringToBigInt_pretty_neg. reflexivity.
Qed.

(** ** The challenge modal: buttons, input and display *)

Module ChallengeModalMore.
Import ChallengeModal ChallengeModalHandlers NumberFacts.

Lemma truthy_Some (b : option Z) :
  truthy b = true <-> exists id, b = Some id /\ id <> 0.
Proof.
  unfold truthy. destruct b as [z|].
  - rewrite negb_true_iff, Z.eqb_neq. split.
    + intros Hz. eauto.
    + intros (id & [= <-] & Hid). exact Hid.
  - split; [discriminate|]. intros (id & Hid & _). discriminate.
Qed.

Lemma render_Ok_action p v : render p = Ok v -> action v = render_action p.
Proof.
  unfold render. destruct (render_card p); cbn; [|discriminate].
  intros [= <-]. reflexivity.
Qed.

(** When a click on the action button reaches [joinRound]. *)
Lemma join_action_spec (p : Props) (id : Z) :
  join_action p = Some id
  <-> roundId p = Some id /\ id <> 0
      /\ isJoining p = false /\ isLoadingRound p = false /\ isPlayer p = false
      /\ exists r, round p = Some r /\ state r = Some 0.
Proof.
  unfold join_action. split.
  - destruct (render p) as [v|e] eqn:Hv; [|discriminate].
    rewrite (render_Ok_action p v Hv).
    unfold render_action.
    destruct (round p) as [r|] eqn:Hr.
    + unfold click. cbn [disabled onClick].
      destruct (isLoading p || isPlayer p || negb (strict_eq (stateNumber r) lit_0))
        eqn:Hd; [discriminate|].
      apply orb_false_iff in Hd as [Hd Hs].
      apply orb_false_iff in Hd as [Hl Hp].
      unfold isLoading in Hl. apply orb_false_iff in Hl as [Hj Hl].
      apply negb_false_iff, Number_is_zero in Hs. unfold stateNumber in Hs.
      unfold handleJoin_request.
      destruct (truthy (roundId p)) eqn:Ht; [|discriminate].
      apply truthy_Some in Ht as (id' & Hid & Hne).
      intros Hreq. rewrite Hid in Hreq. injection Hreq as <-.
      split; [exact Hid|]. split; [exact Hne|].
      split; [exact Hj|]. split; [exact Hl|]. split; [exact Hp|].
      exists r. split; [reflexivity|].
      destruct (state r) as [s|] eqn:Hst; [cbn in Hs; congruence|].
      exfalso. unfold render, render_card in Hv. rewrite Hr, Hst, Hl in Hv.
      discriminate.
    + destruct (truthy (roundId p)); [|discriminate].
      unfold click. cbn [disabled onClick].
      destruct (isLoading p || negb true); discriminate.
  - intros (Hid & Hne & Hj & Hl & Hp & r & Hr & Hs).
    unfold render, render_card, render_action.
    rewrite Hr, Hl, Hs. cbn.
    unfold click, isLoading, stateNumber. cbn. rewrite Hj, Hl, Hp, Hs. cbn.
    unfold handleJoin_request.
    assert (Ht : truthy (roundId p) = true) by (apply truthy_Some; eauto).
    rewrite Ht. exact Hid.
Qed.

(** When a click on the action button reaches [queryRound]. *)
Lemma query_action_spec (p : Props) (id : Z) :
  query_action p = Some id
  <-> roundId p = Some id /\ id <> 0 /\ round p = None
      /\ isJoining p = false /\ isLoadingRound p = false.
Proof.
  unfold query_action. split.
  - destruct (render p) as [v|e] eqn:Hv; [|discriminate].
    rewrite (render_Ok_action p v Hv).
    unfold render_action.
    destruct (round p) as [r|] eqn:Hr.
    + unfold click. cbn [disabled onClick].
      destruct (isLoading p || isPlayer p
                || negb (strict_eq (stateNumber r) lit_0)); discriminate.
    + destruct (truthy (roundId p)) eqn:Ht; [|discriminate].
      unfold click. cbn [disabled onClick negb]. rewrite orb_false_r.
      destruct (isLoading p) eqn:Hl; [discriminate|].
      unfold isLoading in Hl. apply orb_false_iff in Hl as [Hj Hl].
      unfold handleQuery_request. rewrite Ht.
      apply truthy_Some in Ht as (id' & Hid & Hne).
      intros Hreq. rewrite Hid in Hreq. injection Hreq as <-. auto.
  - intros (Hid & Hne & Hr & Hj & Hl).
    assert (Ht : truthy (roundId p) = true) by (apply truthy_Some; eauto).
    unfold render, render_card, render_action. rewrite Hr. cbn. rewrite Ht.
    unfold click, isLoading. cbn. rewrite Hj, Hl. cbn.
    unfold handleQuery_request. rewrite Ht. exact Hid.
Qed.

(** X14. A click on the action button reaches [queryRound] exactly when no
    round is loaded, nothing is loading or joining, and the code field
    holds a round id other than 0; that id is the one queried.  With no
    round loaded and no id, or the id 0, there is no action button. *)
Theorem query_action_iff (p : Props) (id : Z) :
  (query_action p = Some id
   <-> roundId p = Some id /\ id <> 0 /\ round p = None
       /\ isJoining p = false /\ isLoadingRound p = false)
  /\ (round p = None -> (roundId p = None \/ roundId p = Some 0) ->
      render_action p = None).
Proof.
  split; [apply query_action_spec|].
  intros Hr Hid. unfold render_action. rewrite Hr.
  destruct Hid as [-> | ->]; reflexivity.
Qed.

(** X16. The text of the Join button: it reads 'Join Challenge' exactly
    when no join is in progress, the user is not a participant and the
    state of the round is 0 (a missing state counts as 0).  An enabled
    button always reads 'Join Challenge'; the three other texts only appear
    on a disabled button. *)
Theorem join_button_label (p : Props) (r : RoundData) (b : Button) :
  round p = Some r ->
  render_action p = Some b ->
  (label b = "Join Challenge"
   <-> isJoining p = false /\ isPlayer p = false /\ default 0 (state r) = 0)
  /\ (disabled b = false -> label b = "Join Challenge")
  /\ (label b <> "Join Challenge" -> disabled b = true).
Proof.
  intros Hr Hb. unfold render_action in Hb. rewrite Hr in Hb.
  injection Hb as <-. cbn. unfold isLoading, stateNumber.
  change (S754_zero false) with lit_0.
  pose proof (Number_is_zero (default 0 (state r))) as Hz.
  destruct (strict_eq (Number (default 0 (state r))) lit_0) eqn:Hs.
  - assert (Hs0 : default 0 (state r) = 0) by (apply Hz; reflexivity).
    destruct (isJoining p), (isPlayer p), (isLoadingRound p); cbn;
      repeat split; intros; try reflexivity; try discriminate;
      try congruence; try (exfalso; intuition congruence).
  - assert (Hs0 : default 0 (state r) <> 0)
      by (intros E; apply Hz in E; discriminate).
    destruct (isJoining p), (isPlayer p), (isLoadingRound p); cbn;
      repeat split; intros; try reflexivity; try discriminate;
      try congruence; try (exfalso; intuition congruence).
Qed.

Lemma join_button_label_witness :
  render_action Sample.modal
  = Some {| onClick := handleJoin; disabled := false; label := "Join Challenge" |}
  /\ isJoining Sample.modal = false /\ isPlayer Sample.modal = false
  /\ default 0 (state Sample.open_round) = 0.
Proof.
  assert (Hb : render_action Sample.modal
               = Some {| onClick := handleJoin; disabled := false;
                         label := "Join Challenge" |})
    by (vm_compute; reflexivity).
  destruct (join_button_label Sample.modal Sample.open_round
              {| onClick := handleJoin; disabled := false;
                 label := "Join Challenge" |} eq_refl Hb) as (Hl & _).
  split; [exact Hb|]. exact (proj1 Hl eq_refl).
Defined.

(** X17. While a join or a round query is in progress the modal lets no
    click through: the Cancel button and the action button are disabled,
    so neither [joinRound] nor [queryRound] is called. *)
Theorem loading_blocks_every_button (p : Props) :
  isLoading p = true ->
  (forall v, render p = Ok v ->
     click (cancel v) = None
     /\ forall b, action v = Some b -> click b = None)
  /\ join_action p = None /\ query_action p = None.
Proof.
  intros Hl. split; [|split].
  - intros v Hv. pose proof (render_Ok_action p v Hv) as Ha.
    unfold render in Hv. destruct (render_card p) as [c|e]; [|discriminate].
    cbn [result_bind] in Hv. injection Hv as <-. cbn [cancel action] in *. split.
    + unfold click. cbn [disabled]. rewrite Hl. reflexivity.
    + intros b Hb. unfold render_action in Hb.
      destruct (round p); [|destruct (truthy (roundId p)); [|discriminate]];
        injection Hb as <-; unfold click; cbn [disabled]; rewrite Hl; reflexivity.
  - destruct (join_action p) as [id|] eqn:Hj; [|reflexivity].
    apply join_action_spec in Hj as (_ & _ & Hj1 & Hl1 & _).
    unfold isLoading in Hl. rewrite Hj1, Hl1 in Hl. discriminate.
  - destruct (query_action p) as [id|] eqn:Hq; [|reflexivity].
    apply query_action_spec in Hq as (_ & _ & _ & Hj1 & Hl1).
    unfold isLoading in Hl. rewrite Hj1, Hl1 in Hl. discriminate.
Qed.

Lemma loading_blocks_every_button_witness :
  join_action {| code := "7"; roundId := Some 7; isJoining := true;
                 round := Some Sample.open_round; isPlayer := false;
                 playersCount := 1; isLoadingRound := false; error := None |}
  = None.
Proof.
  destruct (loading_blocks_every_button
              {| code := "7"; roundId := Some 7; isJoining := true;
                 round := Some Sample.open_round; isPlayer := false;
                 playersCount := 1; isLoadingRound := false; error := None |}
              eq_refl) as (_ & Hj & _).
  exact Hj.
Defined.

(** The round id that [handleCodeChange] stores. *)
Lemma handleCodeChange_roundId (validateRoundId : string -> bool) value p :
  roundId (handleCodeChange validateRoundId value p)
  = if validateRoundId (js_trim value) then StringToBigInt value else None.
Proof.
  cbn. unfold BigInt.
  destruct (validateRoundId (js_trim value)); [|reflexivity].
  destruct (String.prefix "0x" value); destruct (StringToBigInt value); reflexivity.
Qed.

(** X18. [handleCodeChange] stores the text as typed and leaves the rest
    of the state alone.  The round id it stores is the integer value of
    the trimmed text, when the validator accepts the trimmed text and that
    text is an integer literal; it is [null] otherwise.  The earlier round
    id plays no part, and the test on the [0x] prefix makes no
    difference. *)
Theorem handleCodeChange_stores_parsed_id
    (validateRoundId : string -> bool) (value : string) (p : Props) :
  let p' := handleCodeChange validateRoundId value p in
  code p' = value
  /\ roundId p'
     = (if validateRoundId (js_trim value) then StringToBigInt (js_trim value)
        else None)
  /\ (forall q, roundId (handleCodeChange validateRoundId value q) = roundId p')
  /\ isJoining p' = isJoining p /\ round p' = round p
  /\ isPlayer p' = isPlayer p /\ playersCount p' = playersCount p
  /\ isLoadingRound p' = isLoadingRound p /\ error p' = error p.
Proof.
  intros p'. subst p'.
  split; [reflexivity|]. split.
  - rewrite handleCodeChange_roundId, StringToBigInt_trim. reflexivity.
  - split; [|repeat split].
    intros q. rewrite !handleCodeChange_roundId. reflexivity.
Qed.

(** X19. Typing in the code field while a round is loaded redirects the
    Join button: a click passes to [joinRound] the id parsed from the new
    text.  The loaded round, which the card keeps showing, only decides
    whether the button is enabled. *)
Theorem typed_code_decides_joined_round
    (validateRoundId : string -> bool) (value : string) (p : Props) (id : Z) :
  join_action (handleCodeChange validateRoundId value p) = Some id
  <-> validateRoundId (js_trim value) = true
      /\ StringToBigInt value = Some id /\ id <> 0
      /\ isJoining p = false /\ isLoadingRound p = false /\ isPlayer p = false
      /\ exists r, round p = Some r /\ state r = Some 0.
Proof.
  rewrite join_action_spec, handleCodeChange_roundId.
  change (isJoining (handleCodeChange validateRoundId value p)) with (isJoining p).
  change (isLoadingRound (handleCodeChange validateRoundId value p))
    with (isLoadingRound p).
  change (isPlayer (handleCodeChange validateRoundId value p)) with (isPlayer p).
  change (round (handleCodeChange validateRoundId value p)) with (round p).
  destruct (validateRoundId (js_trim value)); split.
  - intros (H1 & H2 & H3). auto.
  - intros (_ & H1 & H2 & H3). auto.
  - intros (H1 & _). discriminate.
  - intros (H1 & _). discriminate.
Qed.

(** The modal of [Sample.modal] shows round 7; once the user has typed 8,
    a click on Join asks for round 8. *)
Example typed_code_redirects_join :
  join_action Sample.modal = Some 7
  /\ join_action (handleCodeChange (fun _ => true) "8" Sample.modal) = Some 8
  /\ round (handleCodeChange (fun _ => true) "8" Sample.modal)
     = Some Sample.open_round.
Proof. repeat split; vm_compute; reflexivity. Qed.

(** *** The creator label *)







(** X21. [BigInt(x.toString())] is [x] for every bigint [x]: the decimal
    text of an integer is read back as that integer.  So the conversions
    that [formatWagerAmount], [calculatePayout] and [getRoundStatus] start
    with never throw on a bigint and hand on the integer itself. *)
Theorem BigInt_reads_back_toString (x : Z) :
  BigInt (bigint_toString x) = Ok x
  /\ result_bind (BigInt (bigint_toString x))
       (fun b => Ok (number_div (Number b) lit_1e18))
     = Ok (formatWagerAmount x)
  /\ result_bind (BigInt (bigint_toString x))
       (fun b => Ok (number_div (number_mul (Number b) lit_6) lit_1e18))
     = Ok (calculatePayout x None)
  /\ result_bind (BigInt (bigint_toString x)) (fun b => Ok (getRoundStatus b))
     = Ok (getRoundStatus x).
Proof.
  rewrite BigInt_bigint_toString. repeat split.
Qed.

End ChallengeModalMore.

(** ** The challenge modal on any [BigNumberish] *)

Module ChallengeModalAnyFacts.
Import ChallengeModal ChallengeModalHandlers NumberFacts.

Lemma BigInt_Ok_iff s z : BigInt s = Ok z <-> StringToBigInt s = Some z.
Proof.
  unfold BigInt. destruct (StringToBigInt s); split; congruence.
Qed.

Lemma BigInt_cases s :
  BigInt s = match StringToBigInt s with
             | Some z => Ok z
             | None => Err (SyntaxError s)
             end.
Proof. reflexivity. Qed.

Lemma bigint_toString_nonempty (x : Z) : bigint_toString x <> "".
Proof.
  intros E. pose proof (BigInt_bigint_toString x) as H. rewrite E in H.
  injection H as <-. discriminate.
Qed.

(** The text the button converts, and what it converts to. *)
Lemma state_text_value (st : option string) :
  StringToBigInt (string_or (default "" st) "0")
  = match st with
    | Some s => StringToBigInt s
    | None => Some 0
    end.
Proof.
  destruct st as [s|]; [|reflexivity]. cbn. unfold string_or.
  destruct (decide (s = "")) as [->|]; reflexivity.
Qed.

(** The card, case by case. *)
Lemma render_card_cases (p : ChallengeModalAny.Props) :
  ChallengeModalAny.render_card p =
  match ChallengeModalAny.round p with
  | None => Ok None
  | Some r =>
      if ChallengeModalAny.isLoadingRound p then Ok None
      else
        match StringToBigInt (ChallengeModalAny.wager_amount r) with
        | None => Err (SyntaxError (ChallengeModalAny.wager_amount r))
        | Some w =>
            match ChallengeModalAny.state r with
            | None => Err (TypeError "state.toString")
            | Some s =>
                match StringToBigInt s with
                | None => Err (SyntaxError s)
                | Some st =>
                    Ok (Some {| wagerAmount := formatWagerAmount w;
                                participants := ChallengeModalAny.playersCount p;
                                payout := calculatePayout w None;
                                status := getRoundStatus st;
                                joinedBadge := ChallengeModalAny.isPlayer p |})
                end
            end
        end
  end.
Proof.
  unfold ChallengeModalAny.render_card.
  destruct (ChallengeModalAny.round p) as [r|]; [|reflexivity].
  destruct (ChallengeModalAny.isLoadingRound p); [reflexivity|].
  cbn [negb].
  unfold ChallengeModalAny.formatWagerAmount, ChallengeModalAny.calculatePayout,
    ChallengeModalAny.getRoundStatus.
  rewrite BigInt_cases.
  destruct (StringToBigInt (ChallengeModalAny.wager_amount r)) as [w|];
    [|reflexivity].
  cbn [result_bind].
  destruct (ChallengeModalAny.state r) as [s|]; [|reflexivity].
  rewrite BigInt_cases. destruct (StringToBigInt s) as [st|]; reflexivity.
Qed.

(** The Join button, case by case: [sv] is the value of the state text. *)
Lemma render_join_button_cases (p : ChallengeModalAny.Props)
    (r : ChallengeModalAny.RoundData) :
  ChallengeModalAny.round p = Some r ->
  ChallengeModalAny.render_action p =
  let sv := match ChallengeModalAny.state r with
            | Some s => StringToBigInt s
            | None => Some 0
            end in
  let text := string_or (default "" (ChallengeModalAny.state r)) "0" in
  if ChallengeModalAny.isJoining p then
    Ok (Some {| onClick := handleJoin; disabled := true; label := "Joining..." |})
  else if ChallengeModalAny.isPlayer p then
    Ok (Some {| onClick := handleJoin; disabled := true;
                label := "Already Joined" |})
  else
    match sv with
    | None => Err (SyntaxError text)
    | Some z =>
        Ok (Some {| onClick := handleJoin;
                    disabled := ChallengeModalAny.isLoadingRound p || negb (z =? 0);
                    label := if z =? 0 then "Join Challenge"
                             else "Round Not Available" |})
    end.
Proof.
  intros Hr. unfold ChallengeModalAny.render_action. rewrite Hr.
  unfold ChallengeModalAny.isLoading, ChallengeModalAny.stateNumber.
  rewrite BigInt_cases, state_text_value. cbv zeta.
  destruct (ChallengeModalAny.isJoining p); [reflexivity|].
  destruct (ChallengeModalAny.isPlayer p).
  { cbn. rewrite orb_true_r. reflexivity. }
  destruct (match ChallengeModalAny.state r with
            | Some s => StringToBigInt s
            | None => Some 0
            end) as [z|].
  2:{ cbn. destruct (ChallengeModalAny.isLoadingRound p); reflexivity. }
  cbn [result_bind orb].
  assert (Hz : strict_eq (Number z) lit_0 = (z =? 0)).
  { destruct (z =? 0) eqn:E.
    - apply Number_is_zero. apply Z.eqb_eq. exact E.
    - destruct (strict_eq (Number z) lit_0) eqn:E'; [|reflexivity].
      apply Number_is_zero in E'. apply Z.eqb_neq in E. contradiction. }
  rewrite Hz.
  destruct (ChallengeModalAny.isLoadingRound p); destruct (z =? 0); reflexivity.
Qed.

(** On bigints the modal is the one of [ChallengeModal]. *)
Lemma render_of_bigints (p : Props) :
  ChallengeModalAny.render (ChallengeModalAny.of_bigints p) = render p
  /\ ChallengeModalAny.join_action (ChallengeModalAny.of_bigints p) = join_action p.
Proof.
  assert (Hrender : ChallengeModalAny.render (ChallengeModalAny.of_bigints p)
                    = render p).
  { unfold ChallengeModalAny.render, render.
    rewrite render_card_cases. unfold render_card. cbn.
    destruct (round p) as [r|] eqn:Hr; cbn.
    - assert (Hbtn : ChallengeModalAny.render_action (ChallengeModalAny.of_bigints p)
                     = Ok (render_action p)).
      { rewrite (render_join_button_cases _
                   {| ChallengeModalAny.wager_amount := bigint_toString (wager_amount r);
                      ChallengeModalAny.creator := creator r;
                      ChallengeModalAny.state := bigint_toString <$> state r |})
          by (cbn; rewrite Hr; reflexivity).
        cbn. unfold render_action, isLoading, stateNumber. rewrite Hr.
        assert (Hsv : match bigint_toString <$> state r with
                      | Some s => StringToBigInt s
                      | None => Some 0
                      end = Some (default 0 (state r))).
        { destruct (state r) as [z|]; [|reflexivity]. cbn.
          apply BigInt_Ok_iff, BigInt_bigint_toString. }
        rewrite Hsv.
        assert (Hz : strict_eq (Number (default 0 (state r))) lit_0
                     = (default 0 (state r) =? 0)).
        { destruct (default 0 (state r) =? 0) eqn:E.
          - apply Number_is_zero. apply Z.eqb_eq. exact E.
          - destruct (strict_eq (Number (default 0 (state r))) lit_0) eqn:E';
              [|reflexivity].
            apply Number_is_zero in E'. apply Z.eqb_neq in E. contradiction. }
        rewrite Hz.
        destruct (isJoining p), (isPlayer p), (isLoadingRound p),
          (default 0 (state r) =? 0); reflexivity. }
      rewrite Hbtn.
      destruct (isLoadingRound p); cbn; [reflexivity|].
      assert (Hw : StringToBigInt (bigint_toString (wager_amount r))
                   = Some (wager_amount r))
        by apply BigInt_Ok_iff, BigInt_bigint_toString.
      rewrite Hw.
      destruct (state r) as [z|]; cbn; [|reflexivity].
      assert (Hs : StringToBigInt (bigint_toString z) = Some z)
        by apply BigInt_Ok_iff, BigInt_bigint_toString.
      rewrite Hs. reflexivity.
    - unfold ChallengeModalAny.render_action, render_action. cbn. rewrite Hr.
      destruct (truthy (roundId p)); reflexivity. }
  split; [exact Hrender|].
  unfold ChallengeModalAny.join_action, join_action. rewrite Hrender.
  reflexivity.
Qed.


(** X15. Rendering the modal throws exactly when a round is loaded and
    one of its conversions throws: in the card (shown unless the round is
    being reloaded) when the wager amount is no integer literal, the state
    is missing, or the state is no integer literal; in the Join button,
    unless a join is in progress or the user is a participant, when the
    state is no integer literal.  What is thrown is the TypeError of
    [state.toString()] or the SyntaxError of [BigInt].  When the modal
    renders, it shows the card exactly when a round is loaded and not
    being reloaded. *)
Theorem render_throws_exactly_when (p : ChallengeModalAny.Props) :
  ((exists e, ChallengeModalAny.render p = Err e)
   <-> exists r,
         ChallengeModalAny.round p = Some r
         /\ ((ChallengeModalAny.isLoadingRound p = false
              /\ (StringToBigInt (ChallengeModalAny.wager_amount r) = None
                  \/ ChallengeModalAny.state r = None
                  \/ exists s, ChallengeModalAny.state r = Some s
                               /\ StringToBigInt s = None))
             \/ (ChallengeModalAny.isJoining p = false
                 /\ ChallengeModalAny.isPlayer p = false
                 /\ exists s, ChallengeModalAny.state r = Some s
                              /\ StringToBigInt s = None)))
  /\ (forall e, ChallengeModalAny.render p = Err e ->
        e = TypeError "state.toString" \/ exists s, e = SyntaxError s)
  /\ (forall v, ChallengeModalAny.render p = Ok v ->
        (is_Some (card v)
         <-> is_Some (ChallengeModalAny.round p)
             /\ ChallengeModalAny.isLoadingRound p = false)).
Proof.
  unfold ChallengeModalAny.render. rewrite render_card_cases.
  destruct (ChallengeModalAny.round p) as [r|] eqn:Hr.
  2:{ unfold ChallengeModalAny.render_action. rewrite Hr. cbn [result_bind].
      destruct (truthy (ChallengeModalAny.roundId p)); cbn [result_bind];
        (split; [|split]);
        try (intros e He; discriminate He);
        try (intros v [= <-]; cbn [card]; split;
             [intros [c Hc]; discriminate Hc|intros [[r Hr'] _]; discriminate Hr']);
        (split; [intros [e He]; discriminate He|intros (r & H & _); discriminate H]). }
  rewrite (render_join_button_cases p r Hr). cbv zeta.
  split; [|split].
  - destruct (ChallengeModalAny.isLoadingRound p) eqn:Hl;
      destruct (StringToBigInt (ChallengeModalAny.wager_amount r)) as [w|] eqn:Hw;
      destruct (ChallengeModalAny.state r) as [s|] eqn:Hs;
      cbn [result_bind];
      try (destruct (StringToBigInt s) as [z|] eqn:Hz);
      destruct (ChallengeModalAny.isJoining p) eqn:Hj;
      destruct (ChallengeModalAny.isPlayer p) eqn:Hp;
      cbn [result_bind];
      (split;
       [ intros [e He];
         first
           [ discriminate He
           | exists r; split; [reflexivity|];
             first
               [ left; split; [reflexivity|];
                 first
                   [ left; assumption
                   | right; left; assumption
                   | right; right; exists s; split; assumption ]
               | right; split; [reflexivity|]; split; [reflexivity|];
                 exists s; split; assumption ] ]
       | intros (r' & [= <-] & Hcase);
         first
           [ eexists; reflexivity
           | exfalso;
             destruct Hcase as [(Hl' & [Hw'|[Hs'|(s' & Hs' & Hz')]])
                               |(Hj' & Hp' & s' & Hs' & Hz')];
             congruence ] ]).
  - intros e.
    destruct (ChallengeModalAny.isLoadingRound p);
      destruct (StringToBigInt (ChallengeModalAny.wager_amount r)) as [w|];
      destruct (ChallengeModalAny.state r) as [s|];
      cbn [result_bind];
      try (destruct (StringToBigInt s) as [z|]);
      destruct (ChallengeModalAny.isJoining p);
      destruct (ChallengeModalAny.isPlayer p);
      cbn [result_bind]; intros He;
      first [discriminate He | injection He as <-; eauto].
  - intros v.
    destruct (ChallengeModalAny.isLoadingRound p);
      destruct (StringToBigInt (ChallengeModalAny.wager_amount r)) as [w|];
      destruct (ChallengeModalAny.state r) as [s|];
      cbn [result_bind];
      try (destruct (StringToBigInt s) as [z|]);
      destruct (ChallengeModalAny.isJoining p);
      destruct (ChallengeModalAny.isPlayer p);
      cbn [result_bind]; intros Hv;
      first
        [ discriminate Hv
        | injection Hv as <-; cbn [card]; split;
          [ intros [c Hc]; first [discriminate Hc | split; [eauto|reflexivity]]
          | intros [_ Hf]; first [discriminate Hf | eauto] ] ].
Qed.

(** A wager amount that is the number 1.5 prints as ["1.5"]: the modal
    throws the SyntaxError of [BigInt] while rendering, and a click
    cannot reach [joinRound], although the round waits, the user is no
    participant and nothing is loading. *)
Example fractional_wager_breaks_the_modal :
  ChallengeModalAny.render ChallengeModalAny.fractional_modal
  = Err (SyntaxError "1.5")
  /\ ChallengeModalAny.join_action ChallengeModalAny.fractional_modal = None.
Proof. split; reflexivity. Qed.

End ChallengeModalAnyFacts.
